(** * Buzzer: the session / round state engine of [server/game-state.ts]

    A shallow embedding of [GameStateManager] and of the types of
    [shared/types.ts], followed by the properties of the buzz queue, the
    player directory and the session registry.

    Conventions of the embedding.
    - The four [Map]s of the manager and the [players] map of a session are
      finite maps with string keys; arrays are lists.
    - Objects held in a map are mutated in place by the source; here the
      updated object is written back under the key it was read from.
    - [Date.now()] is an argument [now] of every operation that reads the
      clock; [uuidv4()] is an argument carrying the identifier drawn;
      [Math.random()] is an argument giving the successive draws.
    - Millisecond timestamps, scores and configured limits are integers
      ([Z]); array lengths, queue positions and the question counter are
      natural numbers.
    - JavaScript truthiness is written out: the empty string, [0],
      [null] and [undefined] are falsy. *)

From stdpp Require Import gmap strings list fin_maps.
From Stdlib Require Import QArith Qround.

Local Close Scope Q_scope.
Local Open Scope string_scope.
Local Open Scope list_scope.
Local Open Scope Z_scope.

(** ** Shared types ([shared/types.ts]) *)

Module Team.
Record t := mk {
  id : string;
  name : string;
  color : string;
  score : Z
}.
End Team.

Module Player.
Record t := mk {
  id : string;
  socketId : string;
  displayName : string;
  teamId : option string;
  isConnected : bool;
  lastSeen : Z
}.
End Player.

Module BuzzEntry.
Record t := mk {
  playerId : string;
  playerName : string;
  teamId : option string;
  teamName : option string;
  teamColor : option string;
  timestamp : Z;
  position : nat
}.
End BuzzEntry.

Inductive RoundStatus := waiting | open | locked | evaluating | ended.

#[global] Instance RoundStatus_eq_dec : EqDecision RoundStatus.
Proof. solve_decision. Defined.

Module RoundState.
Record t := mk {
  status : RoundStatus;
  questionNumber : nat;
  startedAt : option Z;
  lockedAt : option Z;
  activePlayerId : option string;
  buzzQueue : list BuzzEntry.t
}.
End RoundState.

Module SessionSettings.
Record t := mk {
  teamModeEnabled : bool;
  oneBuzzPerTeam : bool;
  allowLateBuzzes : bool;
  showQueueToPlayers : bool;
  maxPlayersPerSession : Z;
  buzzCooldownMs : Z
}.
End SessionSettings.

(** [Partial<SessionSettings>]: every field may be absent. *)
Module PartialSettings.
Record t := mk {
  teamModeEnabled : option bool;
  oneBuzzPerTeam : option bool;
  allowLateBuzzes : option bool;
  showQueueToPlayers : option bool;
  maxPlayersPerSession : option Z;
  buzzCooldownMs : option Z
}.
Definition none : t := mk None None None None None None.
End PartialSettings.

Module RoundResult.
Record t := mk {
  questionNumber : nat;
  winnerId : option string;
  winnerName : option string;
  teamId : option string;
  buzzCount : nat;
  duration : Z
}.
End RoundResult.

Module GameSession.
Record t := mk {
  id : string;
  hostSocketId : string;
  createdAt : Z;
  settings : SessionSettings.t;
  teams : list Team.t;
  players : gmap string Player.t;
  round : RoundState.t;
  roundHistory : list RoundResult.t
}.

Definition with_round (r : RoundState.t) (s : t) : t :=
  mk (id s) (hostSocketId s) (createdAt s) (settings s) (teams s)
     (players s) r (roundHistory s).

Definition with_players (ps : gmap string Player.t) (s : t) : t :=
  mk (id s) (hostSocketId s) (createdAt s) (settings s) (teams s)
     ps (round s) (roundHistory s).
End GameSession.

(** ** The manager's private state *)

Record State := mkState {
  sessions : gmap string GameSession.t;
  playerToSession : gmap string string;
  socketToPlayer : gmap string string;
  playerBuzzTimestamps : gmap string Z
}.

Definition emptyState : State := mkState ∅ ∅ ∅ ∅.

Definition set_sessions (m : gmap string GameSession.t) (st : State) : State :=
  mkState m (playerToSession st) (socketToPlayer st) (playerBuzzTimestamps st).

Definition set_playerBuzzTimestamps (m : gmap string Z) (st : State) : State :=
  mkState (sessions st) (playerToSession st) (socketToPlayer st) m.

(** ** JavaScript truthiness *)

Definition truthy (s : string) : bool := negb (bool_decide (s = "")).

Definition truthy_opt (o : option string) : bool :=
  match o with Some s => truthy s | None => false end.

Definition truthy_num (z : Z) : bool := negb (bool_decide (z = 0)).

(** ** Default settings *)

Definition DEFAULT_SETTINGS : SessionSettings.t :=
  SessionSettings.mk false false true true 50 100.

(** [{ ...base, ...partial }] *)
Definition mergeSettings (base : SessionSettings.t) (p : PartialSettings.t)
  : SessionSettings.t :=
  SessionSettings.mk
    (default (SessionSettings.teamModeEnabled base) (PartialSettings.teamModeEnabled p))
    (default (SessionSettings.oneBuzzPerTeam base) (PartialSettings.oneBuzzPerTeam p))
    (default (SessionSettings.allowLateBuzzes base) (PartialSettings.allowLateBuzzes p))
    (default (SessionSettings.showQueueToPlayers base) (PartialSettings.showQueueToPlayers p))
    (default (SessionSettings.maxPlayersPerSession base) (PartialSettings.maxPlayersPerSession p))
    (default (SessionSettings.buzzCooldownMs base) (PartialSettings.buzzCooldownMs p)).

(** ** Lookups *)

Definition getPlayerBySocketId (st : State) (socketId : string)
  : option (Player.t * string * GameSession.t) :=
  match socketToPlayer st !! socketId with
  | None => None
  | Some playerId =>
    if negb (truthy playerId) then None else
    match playerToSession st !! playerId with
    | None => None
    | Some sessionId =>
      if negb (truthy sessionId) then None else
      match sessions st !! sessionId with
      | None => None
      | Some session =>
        match GameSession.players session !! playerId with
        | None => None
        | Some player => Some (player, sessionId, session)
        end
      end
    end
  end.

(** ** Buzzing logic *)

Inductive BuzzOutcome :=
  | BuzzAccepted (entry : BuzzEntry.t)
  | BuzzError (error : string).

(** [lastBuzz && now - lastBuzz < buzzCooldownMs] *)
Definition tooFast (lastBuzz : option Z) (now cooldown : Z) : bool :=
  match lastBuzz with
  | Some t => truthy_num t && bool_decide (now - t < cooldown)
  | None => false
  end.

Definition alreadyBuzzed (playerId : string) (q : list BuzzEntry.t) : bool :=
  existsb (fun b => bool_decide (BuzzEntry.playerId b = playerId)) q.

Definition teamAlreadyBuzzed (teamId : option string) (q : list BuzzEntry.t) : bool :=
  existsb (fun b => bool_decide (BuzzEntry.teamId b = teamId)) q.

Definition findTeam (teamId : string) (ts : list Team.t) : option Team.t :=
  List.find (fun t => bool_decide (Team.id t = teamId)) ts.

Definition mkBuzzEntry (player : Player.t) (session : GameSession.t) (now : Z)
  : BuzzEntry.t :=
  let team :=
    match Player.teamId player with
    | Some tid => if truthy tid then findTeam tid (GameSession.teams session) else None
    | None => None
    end in
  BuzzEntry.mk (Player.id player) (Player.displayName player)
    (Player.teamId player) (Team.name <$> team) (Team.color <$> team) now
    (length (RoundState.buzzQueue (GameSession.round session)) + 1)%nat.

(** The round after [buzzQueue.push(buzzEntry)] and the lock on first buzz
    ([buzzEntry.playerId] is [player.id]). *)
Definition pushBuzz (e : BuzzEntry.t) (now : Z) (r : RoundState.t) : RoundState.t :=
  let q := RoundState.buzzQueue r ++ [e] in
  if bool_decide (RoundState.status r = open)
  then RoundState.mk locked (RoundState.questionNumber r) (RoundState.startedAt r)
         (Some now) (Some (BuzzEntry.playerId e)) q
  else RoundState.mk (RoundState.status r) (RoundState.questionNumber r)
         (RoundState.startedAt r) (RoundState.lockedAt r)
         (RoundState.activePlayerId r) q.

Definition processBuzz (socketId : string) (now : Z) (st : State)
  : BuzzOutcome * State :=
  match getPlayerBySocketId st socketId with
  | None => (BuzzError "Player not found", st)
  | Some (player, sessionId, session) =>
    let round := GameSession.round session in
    let settings := GameSession.settings session in
    if bool_decide (RoundState.status round ≠ open)
       && bool_decide (RoundState.status round ≠ locked)
    then (BuzzError "Buzzer is not active", st)
    else if alreadyBuzzed (Player.id player) (RoundState.buzzQueue round)
    then (BuzzError "Already buzzed", st)
    else if tooFast (playerBuzzTimestamps st !! Player.id player) now
              (SessionSettings.buzzCooldownMs settings)
    then (BuzzError "Too fast", st)
    else
      let st1 := set_playerBuzzTimestamps
                   (<[Player.id player := now]> (playerBuzzTimestamps st)) st in
      if SessionSettings.oneBuzzPerTeam settings
         && truthy_opt (Player.teamId player)
         && teamAlreadyBuzzed (Player.teamId player) (RoundState.buzzQueue round)
      then (BuzzError "Team already buzzed", st1)
      else if bool_decide (RoundState.status round = locked)
              && negb (SessionSettings.allowLateBuzzes settings)
      then (BuzzError "Buzzer is locked", st1)
      else
        let buzzEntry := mkBuzzEntry player session now in
        let session' := GameSession.with_round (pushBuzz buzzEntry now round) session in
        (BuzzAccepted buzzEntry,
         set_sessions (<[sessionId := session']> (sessions st1)) st1)
  end.

(** ** String helpers

    Strings are sequences of code units below 256; on that range the
    functions below are what [toLowerCase], [trim], [slice] and [charAt]
    compute. *)

Definition lowerCodeUnit (c : Ascii.ascii) : Ascii.ascii :=
  let n := Ascii.nat_of_ascii c in
  if (bool_decide (65 ≤ n ≤ 90) || (bool_decide (192 ≤ n ≤ 222) && bool_decide (n ≠ 215)))%nat
  then Ascii.ascii_of_nat (n + 32) else c.

Fixpoint toLowerCase (s : string) : string :=
  match s with
  | EmptyString => EmptyString
  | String c s' => String (lowerCodeUnit c) (toLowerCase s')
  end.

Definition isWhiteSpace (c : Ascii.ascii) : bool :=
  let n := Ascii.nat_of_ascii c in
  (bool_decide (9 ≤ n ≤ 13) || bool_decide (n = 32) || bool_decide (n = 160))%nat.

Fixpoint trimStart (s : string) : string :=
  match s with
  | EmptyString => EmptyString
  | String c s' => if isWhiteSpace c then trimStart s' else s
  end.

Fixpoint trimEnd (s : string) : string :=
  match s with
  | EmptyString => EmptyString
  | String c s' =>
    match trimEnd s' with
    | EmptyString => if isWhiteSpace c then EmptyString else String c EmptyString
    | t => String c t
    end
  end.

Definition trim (s : string) : string := trimEnd (trimStart s).

(** [s.slice(0, n)] *)
Definition slice0 (n : nat) (s : string) : string := String.substring 0 n s.

(** [s.charAt(i)]: the empty string when [i] is out of range. *)
Definition charAt (s : string) (i : Z) : string :=
  if bool_decide (i < 0) then ""
  else match String.get (Z.to_nat i) s with
       | Some c => String c ""
       | None => ""
       end.

(** ** Session management *)

Definition createInitialRoundState : RoundState.t :=
  RoundState.mk waiting 0 None None None [].

Definition chars : string := "ABCDEFGHJKLMNPQRSTUVWXYZ23456789".

(** [Math.floor(Math.random() * chars.length)] for the draw [r]. *)
Definition randomIndex (r : Q) : Z :=
  Qfloor (r * inject_Z (Z.of_nat (String.length chars)))%Q.

(** The loop [for (let i = 0; i < 6; i++) result += chars.charAt(...)],
    with [n] iterations left; [rand i] is the draw of iteration [i]. *)
Fixpoint generateLoop (n i : nat) (rand : nat → Q) (result : string) : string :=
  match n with
  | O => result
  | S n' =>
    generateLoop n' (S i) rand
      (String.append result (charAt chars (randomIndex (rand i))))
  end.

Definition generateSessionId (rand : nat → Q) : string :=
  generateLoop 6 0 rand "".

Definition createSession (hostSocketId : string) (settings : PartialSettings.t)
    (now : Z) (rand : nat → Q) (st : State) : GameSession.t * State :=
  let sessionId := generateSessionId rand in
  let session :=
    GameSession.mk sessionId hostSocketId now
      (mergeSettings DEFAULT_SETTINGS settings) [] ∅
      createInitialRoundState [] in
  (session, set_sessions (<[sessionId := session]> (sessions st)) st).

(** [Array.from(session.players.values())]; the order of the values plays
    no part in what the callers compute from them. *)
Definition playersValues (session : GameSession.t) : list Player.t :=
  (map_to_list (GameSession.players session)).*2.

Definition forgetPlayer (player : Player.t) (st : State) : State :=
  mkState (sessions st)
    (delete (Player.id player) (playerToSession st))
    (delete (Player.socketId player) (socketToPlayer st))
    (playerBuzzTimestamps st).

Definition endSession (sessionId : string) (st : State) : State :=
  match sessions st !! sessionId with
  | None => st
  | Some session =>
    let st1 := foldl (fun acc player => forgetPlayer player acc) st
                 (playersValues session) in
    set_sessions (delete sessionId (sessions st1)) st1
  end.

Definition updateSettings (sessionId : string) (settings : PartialSettings.t)
    (st : State) : State :=
  match sessions st !! sessionId with
  | None => st
  | Some s =>
    let s' := GameSession.mk (GameSession.id s) (GameSession.hostSocketId s)
                (GameSession.createdAt s)
                (mergeSettings (GameSession.settings s) settings)
                (GameSession.teams s) (GameSession.players s)
                (GameSession.round s) (GameSession.roundHistory s) in
    set_sessions (<[sessionId := s']> (sessions st)) st
  end.

(** ** Player management *)

Inductive JoinOutcome :=
  | Joined (player : Player.t)
  | JoinError (error : string).

Definition nameClash (displayName : string) (p : Player.t) : bool :=
  bool_decide (toLowerCase (Player.displayName p) = toLowerCase displayName)
  && Player.isConnected p.

Definition addPlayer (sessionId socketId displayName : string)
    (uuid : string) (now : Z) (st : State) : JoinOutcome * State :=
  match sessions st !! sessionId with
  | None => (JoinError "Session not found", st)
  | Some session =>
    if bool_decide (Z.of_nat (size (GameSession.players session))
                    >= SessionSettings.maxPlayersPerSession (GameSession.settings session))
    then (JoinError "Session is full", st)
    else
      match List.find (nameClash displayName) (playersValues session) with
      | Some existingPlayer => (JoinError "Name already taken", st)
      | None =>
        let playerId := uuid in
        let player :=
          Player.mk playerId socketId (slice0 20 (trim displayName)) None true now in
        let session' :=
          GameSession.with_players (<[playerId := player]> (GameSession.players session))
            session in
        (Joined player,
         mkState (<[sessionId := session']> (sessions st))
           (<[playerId := sessionId]> (playerToSession st))
           (<[socketId := playerId]> (socketToPlayer st))
           (playerBuzzTimestamps st))
      end
  end.

Definition rejoinPlayer (sessionId playerId newSocketId : string) (now : Z)
    (st : State) : JoinOutcome * State :=
  match sessions st !! sessionId with
  | None => (JoinError "Session not found", st)
  | Some session =>
    match GameSession.players session !! playerId with
    | None => (JoinError "Player not found in session", st)
    | Some player =>
      let player' :=
        Player.mk (Player.id player) newSocketId (Player.displayName player)
          (Player.teamId player) true now in
      let session' :=
        GameSession.with_players (<[playerId := player']> (GameSession.players session))
          session in
      (Joined player',
       mkState (<[sessionId := session']> (sessions st))
         (playerToSession st)
         (<[newSocketId := playerId]> (delete (Player.socketId player) (socketToPlayer st)))
         (playerBuzzTimestamps st))
    end
  end.

Definition disconnectPlayer (socketId : string) (now : Z) (st : State) : State :=
  match socketToPlayer st !! socketId with
  | None => st
  | Some playerId =>
    if negb (truthy playerId) then st else
    match playerToSession st !! playerId with
    | None => st
    | Some sessionId =>
      if negb (truthy sessionId) then st else
      match sessions st !! sessionId with
      | None => st
      | Some session =>
        match GameSession.players session !! playerId with
        | None => st
        | Some player =>
          let player' :=
            Player.mk (Player.id player) (Player.socketId player)
              (Player.displayName player) (Player.teamId player) false now in
          let session' :=
            GameSession.with_players
              (<[playerId := player']> (GameSession.players session)) session in
          set_sessions (<[sessionId := session']> (sessions st)) st
        end
      end
    end
  end.

(** ** Queue maintenance *)

Definition with_position (n : nat) (b : BuzzEntry.t) : BuzzEntry.t :=
  BuzzEntry.mk (BuzzEntry.playerId b) (BuzzEntry.playerName b)
    (BuzzEntry.teamId b) (BuzzEntry.teamName b) (BuzzEntry.teamColor b)
    (BuzzEntry.timestamp b) n.

(** [queue.forEach((b, i) => { b.position = i + 1 })], from index [i]. *)
Fixpoint renumberFrom (i : nat) (q : list BuzzEntry.t) : list BuzzEntry.t :=
  match q with
  | [] => []
  | b :: q' => with_position (i + 1) b :: renumberFrom (S i) q'
  end.

Definition renumber (q : list BuzzEntry.t) : list BuzzEntry.t := renumberFrom 0 q.

(** [queue.filter(b => b.playerId !== playerId)] *)
Definition dropPlayer (playerId : string) (q : list BuzzEntry.t) : list BuzzEntry.t :=
  List.filter (fun b => negb (bool_decide (BuzzEntry.playerId b = playerId))) q.

(** [queue[0]?.playerId ?? null] *)
Definition headPlayerId (q : list BuzzEntry.t) : option string :=
  BuzzEntry.playerId <$> head q.

Definition advanceQueue (r : RoundState.t) : RoundState.t :=
  let active := headPlayerId (RoundState.buzzQueue r) in
  RoundState.mk
    (if negb (truthy_opt active) then waiting else RoundState.status r)
    (RoundState.questionNumber r) (RoundState.startedAt r)
    (RoundState.lockedAt r) active (RoundState.buzzQueue r).

Definition with_buzzQueue (q : list BuzzEntry.t) (r : RoundState.t) : RoundState.t :=
  RoundState.mk (RoundState.status r) (RoundState.questionNumber r)
    (RoundState.startedAt r) (RoundState.lockedAt r)
    (RoundState.activePlayerId r) q.

Definition with_activePlayerId (a : option string) (r : RoundState.t) : RoundState.t :=
  RoundState.mk (RoundState.status r) (RoundState.questionNumber r)
    (RoundState.startedAt r) (RoundState.lockedAt r) a (RoundState.buzzQueue r).

Definition removePlayer (sessionId playerId : string) (st : State) : State :=
  match sessions st !! sessionId with
  | None => st
  | Some session =>
    let socketToPlayer' :=
      match GameSession.players session !! playerId with
      | Some player => delete (Player.socketId player) (socketToPlayer st)
      | None => socketToPlayer st
      end in
    let r1 := with_buzzQueue
                (dropPlayer playerId (RoundState.buzzQueue (GameSession.round session)))
                (GameSession.round session) in
    let r2 := if bool_decide (RoundState.activePlayerId r1 = Some playerId)
              then advanceQueue r1 else r1 in
    let session' :=
      GameSession.with_round r2
        (GameSession.with_players (delete playerId (GameSession.players session)) session) in
    mkState (<[sessionId := session']> (sessions st))
      (delete playerId (playerToSession st))
      socketToPlayer'
      (playerBuzzTimestamps st)
  end.

(** ** Team management *)

Definition TEAM_COLORS : list string :=
  ["#FF2D55"; "#007AFF"; "#34C759"; "#FF9500";
   "#AF52DE"; "#FFCC00"; "#00C7BE"; "#FF375F"].

Definition with_teams (ts : list Team.t) (s : GameSession.t) : GameSession.t :=
  GameSession.mk (GameSession.id s) (GameSession.hostSocketId s)
    (GameSession.createdAt s) (GameSession.settings s) ts
    (GameSession.players s) (GameSession.round s) (GameSession.roundHistory s).

Definition addTeam (sessionId name uuid : string) (st : State) : option Team.t * State :=
  match sessions st !! sessionId with
  | None => (None, st)
  | Some session =>
    let colorIndex := (length (GameSession.teams session) mod length TEAM_COLORS)%nat in
    let team := Team.mk uuid (slice0 20 (trim name))
                  (nth colorIndex TEAM_COLORS "") 0 in
    (Some team,
     set_sessions
       (<[sessionId := with_teams (GameSession.teams session ++ [team]) session]>
          (sessions st)) st)
  end.

Definition assignPlayerToTeam (sessionId playerId : string) (teamId : option string)
    (st : State) : bool * State :=
  match sessions st !! sessionId with
  | None => (false, st)
  | Some session =>
    match GameSession.players session !! playerId with
    | None => (false, st)
    | Some player =>
      if match teamId with
         | Some tid => negb (bool_decide (is_Some (findTeam tid (GameSession.teams session))))
         | None => false
         end
      then (false, st)
      else
        let player' :=
          Player.mk (Player.id player) (Player.socketId player)
            (Player.displayName player) teamId (Player.isConnected player)
            (Player.lastSeen player) in
        (true,
         set_sessions
           (<[sessionId :=
                GameSession.with_players
                  (<[playerId := player']> (GameSession.players session)) session]>
              (sessions st)) st)
    end
  end.

(** [team.score += delta] on the first team whose id is [teamId]
    ([teams.find]); no change when there is none. *)
Fixpoint addScore (teamId : string) (delta : Z) (ts : list Team.t) : list Team.t :=
  match ts with
  | [] => []
  | t :: ts' =>
    if bool_decide (Team.id t = teamId)
    then Team.mk (Team.id t) (Team.name t) (Team.color t) (Team.score t + delta) :: ts'
    else t :: addScore teamId delta ts'
  end.

Definition updateTeamScore (sessionId teamId : string) (delta : Z) (st : State)
  : option Team.t * State :=
  match sessions st !! sessionId with
  | None => (None, st)
  | Some session =>
    match findTeam teamId (GameSession.teams session) with
    | None => (None, st)
    | Some team =>
      let teams' := addScore teamId delta (GameSession.teams session) in
      (findTeam teamId teams',
       set_sessions (<[sessionId := with_teams teams' session]> (sessions st)) st)
    end
  end.

(** ** Round management *)

Definition startRound (sessionId : string) (now : Z) (st : State) : State :=
  match sessions st !! sessionId with
  | None => st
  | Some session =>
    let r := RoundState.mk open
               (RoundState.questionNumber (GameSession.round session) + 1)%nat
               (Some now) None None [] in
    set_sessions (<[sessionId := GameSession.with_round r session]> (sessions st)) st
  end.

Definition resetRound (sessionId : string) (st : State) : State :=
  match sessions st !! sessionId with
  | None => st
  | Some session =>
    let r := RoundState.mk waiting
               (RoundState.questionNumber (GameSession.round session))
               None None None [] in
    set_sessions (<[sessionId := GameSession.with_round r session]> (sessions st)) st
  end.

Definition endedRound (questionNumber : nat) : RoundState.t :=
  RoundState.mk ended questionNumber None None None [].

(** [updateTeamScore(sessionId, teamId, 1)] is applied to the session that
    [markCorrect] already holds, so the award is written on its [teams]
    ([updateTeamScore_same_session] below relates the two). *)
Definition markCorrect (sessionId : string) (now : Z) (st : State)
  : option RoundResult.t * State :=
  match sessions st !! sessionId with
  | None => (None, st)
  | Some session =>
    let round := GameSession.round session in
    match RoundState.activePlayerId round with
    | None => (None, st)
    | Some activePlayerId =>
      if negb (truthy activePlayerId) then (None, st) else
      let activePlayer := GameSession.players session !! activePlayerId in
      let result :=
        RoundResult.mk (RoundState.questionNumber round) (Some activePlayerId)
          (Player.displayName <$> activePlayer)
          (activePlayer ≫= Player.teamId)
          (length (RoundState.buzzQueue round))
          (match RoundState.startedAt round with
           | Some t => if truthy_num t then now - t else 0
           | None => 0
           end) in
      let teams' :=
        match activePlayer ≫= Player.teamId with
        | Some tid =>
          if truthy tid then addScore tid 1 (GameSession.teams session)
          else GameSession.teams session
        | None => GameSession.teams session
        end in
      let session' :=
        GameSession.mk (GameSession.id session) (GameSession.hostSocketId session)
          (GameSession.createdAt session) (GameSession.settings session) teams'
          (GameSession.players session)
          (endedRound (RoundState.questionNumber round))
          (GameSession.roundHistory session ++ [result]) in
      (Some result, set_sessions (<[sessionId := session']> (sessions st)) st)
    end
  end.

Definition markPass (sessionId : string) (st : State)
  : option (string * option string) * State :=
  match sessions st !! sessionId with
  | None => (None, st)
  | Some session =>
    let round := GameSession.round session in
    match RoundState.activePlayerId round with
    | None => (None, st)
    | Some passedPlayerId =>
      if negb (truthy passedPlayerId) then (None, st) else
      let q := renumber (dropPlayer passedPlayerId (RoundState.buzzQueue round)) in
      let r := with_activePlayerId (headPlayerId q) (with_buzzQueue q round) in
      (Some (passedPlayerId, RoundState.activePlayerId r),
       set_sessions (<[sessionId := GameSession.with_round r session]> (sessions st)) st)
    end
  end.

Definition skipPlayer (sessionId playerId : string) (st : State) : bool * State :=
  match sessions st !! sessionId with
  | None => (false, st)
  | Some session =>
    let round := GameSession.round session in
    let r1 := with_buzzQueue
                (renumber (dropPlayer playerId (RoundState.buzzQueue round))) round in
    let r2 := if bool_decide (RoundState.activePlayerId r1 = Some playerId)
              then advanceQueue r1 else r1 in
    (true,
     set_sessions (<[sessionId := GameSession.with_round r2 session]> (sessions st)) st)
  end.

(** ** Staleness sweep *)

(** [Math.max(session.createdAt, ...players.map(p => p.lastSeen))] *)
Definition lastActivity (session : GameSession.t) : Z :=
  foldr Z.max (GameSession.createdAt session)
    (Player.lastSeen <$> playersValues session).

Definition isStale (maxAgeMs now : Z) (session : GameSession.t) : bool :=
  bool_decide (now - lastActivity session > maxAgeMs).

Definition sweepEntry (maxAgeMs now : Z) (acc : State)
    (entry : string * GameSession.t) : State :=
  if isStale maxAgeMs now entry.2 then endSession entry.1 acc else acc.

Definition cleanupStaleSessions (maxAgeMs now : Z) (st : State) : State :=
  foldl (sweepEntry maxAgeMs now) st (map_to_list (sessions st)).

Definition defaultMaxAgeMs : Z := 3600000.

(** ** Traces of calls on the manager *)

Inductive Call :=
  | CreateSession (hostSocketId : string) (settings : PartialSettings.t) (rand : nat → Q)
  | UpdateSettings (sessionId : string) (settings : PartialSettings.t)
  | AddPlayer (sessionId socketId displayName uuid : string)
  | RejoinPlayer (sessionId playerId newSocketId : string)
  | DisconnectPlayer (socketId : string)
  | RemovePlayer (sessionId playerId : string)
  | AddTeam (sessionId name uuid : string)
  | AssignPlayerToTeam (sessionId playerId : string) (teamId : option string)
  | StartRound (sessionId : string)
  | ResetRound (sessionId : string)
  | ProcessBuzz (socketId : string)
  | MarkCorrect (sessionId : string)
  | MarkPass (sessionId : string)
  | SkipPlayer (sessionId playerId : string)
  | CleanupStaleSessions (maxAgeMs : Z).

(** What a call at time [now] leaves behind; only [processBuzz] reports an
    outcome that the trace properties below need. *)
Definition call (c : Call) (now : Z) (st : State) : option BuzzOutcome * State :=
  match c with
  | CreateSession h s rand => (None, (createSession h s now rand st).2)
  | UpdateSettings sid s => (None, updateSettings sid s st)
  | AddPlayer sid sock name uuid => (None, (addPlayer sid sock name uuid now st).2)
  | RejoinPlayer sid pid sock => (None, (rejoinPlayer sid pid sock now st).2)
  | DisconnectPlayer sock => (None, disconnectPlayer sock now st)
  | RemovePlayer sid pid => (None, removePlayer sid pid st)
  | AddTeam sid name uuid => (None, (addTeam sid name uuid st).2)
  | AssignPlayerToTeam sid pid tid => (None, (assignPlayerToTeam sid pid tid st).2)
  | StartRound sid => (None, startRound sid now st)
  | ResetRound sid => (None, resetRound sid st)
  | ProcessBuzz sock =>
    let '(o, st') := processBuzz sock now st in (Some o, st')
  | MarkCorrect sid => (None, (markCorrect sid now st).2)
  | MarkPass sid => (None, (markPass sid st).2)
  | SkipPlayer sid pid => (None, (skipPlayer sid pid st).2)
  | CleanupStaleSessions maxAge => (None, cleanupStaleSessions maxAge now st)
  end.

(** One line of the log of buzz attempts: when, on which socket, the player
    and the session the socket resolved to (if any), and the outcome. *)
Record BuzzLogEntry := mkLog {
  logTime : Z;
  logSocket : string;
  logPlayer : option string;
  logSession : option string;
  logOutcome : BuzzOutcome
}.

Definition resolvedPlayerId (st : State) (socketId : string) : option string :=
  (fun r => Player.id r.1.1) <$> getPlayerBySocketId st socketId.

Definition resolvedSessionId (st : State) (socketId : string) : option string :=
  (fun r => r.1.2) <$> getPlayerBySocketId st socketId.

Fixpoint run (trace : list (Z * Call)) (st : State) : list BuzzLogEntry * State :=
  match trace with
  | [] => ([], st)
  | (now, c) :: rest =>
    let '(o, st') := call c now st in
    let '(log, st'') := run rest st' in
    (match c, o with
     | ProcessBuzz sock, Some out =>
       mkLog now sock (resolvedPlayerId st sock) (resolvedSessionId st sock) out :: log
     | _, _ => log
     end, st'')
  end.

(** The entries accepted into the queue of session [sessionId], in the
    order in which they were accepted. *)
Fixpoint acceptedIn (sessionId : string) (log : list BuzzLogEntry) : list BuzzEntry.t :=
  match log with
  | [] => []
  | l :: log' =>
    match logOutcome l with
    | BuzzAccepted e =>
      if bool_decide (logSession l = Some sessionId)
      then e :: acceptedIn sessionId log'
      else acceptedIn sessionId log'
    | BuzzError _ => acceptedIn sessionId log'
    end
  end.

(** A trace made of buzz attempts only: [(now, socketId)] pairs. *)
Definition buzzTrace (attempts : list (Z * string)) : list (Z * Call) :=
  (fun a => (a.1, ProcessBuzz a.2)) <$> attempts.

(** Time of the last accepted buzz of [playerId] in a log. *)
Definition lastAcceptedBuzz (playerId : string) (log : list BuzzLogEntry) : option Z :=
  foldl (fun acc e =>
           match logOutcome e with
           | BuzzAccepted b =>
             if bool_decide (BuzzEntry.playerId b = playerId)
             then Some (logTime e) else acc
           | BuzzError _ => acc
           end) None log.

(** ** Predicates used in the statements *)

(** The six rejection messages of [processBuzz]. *)
Definition buzzErrors : list string :=
  ["Player not found"; "Buzzer is not active"; "Already buzzed";
   "Too fast"; "Team already buzzed"; "Buzzer is locked"].

(** What an accepted buzz [e] at time [now] does to the round [r], giving
    [r']: server timestamp, next position, appended last, lock on the
    first buzz of an open round, no phase change otherwise. *)
Definition appendsBuzz (now : Z) (e : BuzzEntry.t) (r r' : RoundState.t) : Prop :=
  BuzzEntry.timestamp e = now ∧
  BuzzEntry.position e = (length (RoundState.buzzQueue r) + 1)%nat ∧
  RoundState.buzzQueue r' = RoundState.buzzQueue r ++ [e] ∧
  RoundState.questionNumber r' = RoundState.questionNumber r ∧
  RoundState.startedAt r' = RoundState.startedAt r ∧
  (RoundState.status r = open →
     RoundState.status r' = locked ∧
     RoundState.lockedAt r' = Some now ∧
     RoundState.activePlayerId r' = Some (BuzzEntry.playerId e)) ∧
  (RoundState.status r ≠ open →
     RoundState.status r' = RoundState.status r ∧
     RoundState.lockedAt r' = RoundState.lockedAt r ∧
     RoundState.activePlayerId r' = RoundState.activePlayerId r).

(** The team restriction of [processBuzz]. *)
Definition teamBlocked (settings : SessionSettings.t) (player : Player.t)
    (r : RoundState.t) : bool :=
  SessionSettings.oneBuzzPerTeam settings
  && truthy_opt (Player.teamId player)
  && teamAlreadyBuzzed (Player.teamId player) (RoundState.buzzQueue r).

(** The late-buzz restriction of [processBuzz]. *)
Definition lateBlocked (settings : SessionSettings.t) (r : RoundState.t) : bool :=
  bool_decide (RoundState.status r = locked)
  && negb (SessionSettings.allowLateBuzzes settings).

(** The attempt reaches the rate check: the socket resolves to [player] in
    session [s], the phase is open or locked and the player has no queue
    entry. *)
Definition reachesRateCheck (st : State) (socketId : string)
    (player : Player.t) (sessionId : string) (s : GameSession.t) : Prop :=
  getPlayerBySocketId st socketId = Some (player, sessionId, s) ∧
  (RoundState.status (GameSession.round s) = open ∨
   RoundState.status (GameSession.round s) = locked) ∧
  alreadyBuzzed (Player.id player) (RoundState.buzzQueue (GameSession.round s)) = false.

(** The recorded timestamp [t] of the player is within the cooldown at [now]. *)
Definition withinCooldown (st : State) (player : Player.t) (s : GameSession.t)
    (now : Z) : Prop :=
  ∃ t, playerBuzzTimestamps st !! Player.id player = Some t ∧ t ≠ 0 ∧
       now - t < SessionSettings.buzzCooldownMs (GameSession.settings s).

(** Outcomes of attempts that went past the rate check. *)
Definition passedRateCheck (o : BuzzOutcome) : bool :=
  match o with
  | BuzzAccepted _ => true
  | BuzzError msg =>
    bool_decide (msg = "Team already buzzed") || bool_decide (msg = "Buzzer is locked")
  end.

(** The round of a session, when the session is live. *)
Definition roundOf (sessionId : string) (st : State) : option RoundState.t :=
  GameSession.round <$> (sessions st !! sessionId).

(** The positions along the queue of a session. *)
Definition queuePositions (sessionId : string) (st : State) : option (list nat) :=
  (fun r => BuzzEntry.position <$> RoundState.buzzQueue r) <$> roundOf sessionId st.

(** Number of players of a session that are currently connected. *)
Definition connectedCount (s : GameSession.t) : nat :=
  length (List.filter Player.isConnected (playersValues s)).

(** A connected player of the session has [displayName] up to case. *)
Definition connectedNamesake (s : GameSession.t) (displayName : string) : Prop :=
  ∃ playerId p,
    GameSession.players s !! playerId = Some p ∧
    Player.isConnected p = true ∧
    toLowerCase (Player.displayName p) = toLowerCase displayName.

(** [t] with [delta] more points. *)
Definition bumpScore (delta : Z) (t : Team.t) : Team.t :=
  Team.mk (Team.id t) (Team.name t) (Team.color t) (Team.score t + delta).

(** The team of a player of the session, if the player exists and has one. *)
Definition teamOfPlayer (s : GameSession.t) (playerId : string) : option string :=
  GameSession.players s !! playerId ≫= Player.teamId.

(** The alphabet of session codes, and the characters it leaves out. *)
Definition alphabet : list Ascii.ascii := String.list_ascii_of_string chars.

Definition ambiguous : list Ascii.ascii := String.list_ascii_of_string "O0I1".

Definition codeChar (c : Ascii.ascii) : Prop := c ∈ alphabet ∧ c ∉ ambiguous.

Definition okChar (c : Ascii.ascii) : bool :=
  bool_decide (c ∈ alphabet) && negb (bool_decide (c ∈ ambiguous)).

Definition okIndex (i : Z) : bool :=
  match charAt chars i with
  | String c EmptyString => okChar c
  | _ => false
  end.

(** [Math.random()] returns a number in [0, 1). *)
Definition unitDraws (rand : nat → Q) : Prop :=
  ∀ i, (i < 6)%nat → (0 <= rand i)%Q ∧ (rand i < 1)%Q.

(** ** Non-empty identifiers

    [uuidv4()] never returns the empty string.  A call is well formed when
    the identifiers it brings in are non-empty; the truthiness tests of the
    source then never mistake an identifier for [null]. *)

Definition wellFormedCall (c : Call) : Prop :=
  match c with
  | AddPlayer _ _ _ uuid => uuid ≠ ""
  | AddTeam _ _ uuid => uuid ≠ ""
  | _ => True
  end.

Definition playerOk (p : Player.t) : Prop :=
  Player.id p ≠ "" ∧ ∀ t, Player.teamId p = Some t → t ≠ "".

Definition roundOk (r : RoundState.t) : Prop :=
  Forall (fun e => BuzzEntry.playerId e ≠ "") (RoundState.buzzQueue r) ∧
  ∀ a, RoundState.activePlayerId r = Some a → a ≠ "".

Definition sessionOk (s : GameSession.t) : Prop :=
  map_Forall (fun _ p => playerOk p) (GameSession.players s) ∧
  Forall (fun t => Team.id t ≠ "") (GameSession.teams s) ∧
  roundOk (GameSession.round s).

Definition idsNonEmpty (st : State) : Prop :=
  map_Forall (fun _ s => sessionOk s) (sessions st).

(** ** Running examples

    One session (every draw of the code generator is [0], so its code is
    [AAAAAA]) with players Alice and Bob, and a first round opened at
    [t = 1000]; and variations of it. *)

Definition zeroDraws : nat → Q := fun _ => 0%Q.

Definition exampleSetup (settings : PartialSettings.t) : list (Z * Call) :=
  [(10, CreateSession "host" settings zeroDraws);
   (20, AddPlayer "AAAAAA" "sock-a" "Alice" "player-a");
   (30, AddPlayer "AAAAAA" "sock-b" "Bob" "player-b");
   (1000, StartRound "AAAAAA")].

Definition exampleState : State :=
  (run (exampleSetup PartialSettings.none) emptyState).2.

(** The example after Alice's buzz at [t = 1000] ... *)
Definition oneBuzzState : State :=
  (run (exampleSetup PartialSettings.none ++ [(1000, ProcessBuzz "sock-a")])
     emptyState).2.

(** ... and after Bob's at [t = 1005]. *)
Definition twoBuzzState : State :=
  (run (exampleSetup PartialSettings.none
        ++ [(1000, ProcessBuzz "sock-a"); (1005, ProcessBuzz "sock-b")])
     emptyState).2.

(** Late buzzes disabled; Alice buzzes first, Bob's late buzz is refused,
    and a second round is opened 10 ms later. *)
Definition lateBuzzTrace : list (Z * Call) :=
  exampleSetup (PartialSettings.mk None None (Some false) None None None)
  ++ [(1000, ProcessBuzz "sock-a");
      (2000, ProcessBuzz "sock-b");
      (2010, StartRound "AAAAAA")].

(** A session for one player; Alice joins and her connection drops. *)
Definition fullRoomState : State :=
  (run [(10, CreateSession "host"
               (PartialSettings.mk None None None None (Some 1) None) zeroDraws);
        (20, AddPlayer "AAAAAA" "sock-a" "Alice" "player-a");
        (30, DisconnectPlayer "sock-a")]
     emptyState).2.

(** The example session once Alice's connection has dropped. *)
Definition aliceGoneState : State :=
  (run (exampleSetup PartialSettings.none ++ [(1500, DisconnectPlayer "sock-a")])
     emptyState).2.

(** The example with a team: Alice plays for the Reds, Bob for nobody;
    both have buzzed in round 1, Alice first. *)
Definition teamGameState : State :=
  (run [(10, CreateSession "host" PartialSettings.none zeroDraws);
        (20, AddPlayer "AAAAAA" "sock-a" "Alice" "player-a");
        (30, AddPlayer "AAAAAA" "sock-b" "Bob" "player-b");
        (40, AddTeam "AAAAAA" "Reds" "team-r");
        (50, AssignPlayerToTeam "AAAAAA" "player-a" (Some "team-r"));
        (1000, StartRound "AAAAAA");
        (1100, ProcessBuzz "sock-a");
        (1105, ProcessBuzz "sock-b")]
     emptyState).2.

(** A registry with one live session, of code [AAAAAA]. *)
Definition oneSessionState : State :=
  (run [(10, CreateSession "host" PartialSettings.none zeroDraws)] emptyState).2.

(** ** Three claims read literally

    These follow the wording of the specification, not the source; they
    are the statements that the counterexamples below refute. *)

(** C2 read literally: after [trace], an attempt on [socketId] at [now]
    is rejected as too fast exactly when the player's
    last accepted buzz is less than the cooldown ago. *)
Definition rateLimitFollowsAcceptedBuzzes (trace : list (Z * Call)) (now : Z)
    (socketId : string) : Prop :=
  ∀ player sessionId s,
    getPlayerBySocketId (run trace emptyState).2 socketId
      = Some (player, sessionId, s) →
    ((processBuzz socketId now (run trace emptyState).2).1 = BuzzError "Too fast" ↔
     ∃ t, lastAcceptedBuzz (Player.id player) (run trace emptyState).1 = Some t ∧
          now - t < SessionSettings.buzzCooldownMs (GameSession.settings s)).

(** C5 read literally: the capacity error is returned exactly
    when the connected players reach the maximum. *)
Definition capacityFollowsConnected (st : State)
    (sessionId socketId displayName uuid : string) (now : Z) : Prop :=
  ∀ s,
    sessions st !! sessionId = Some s →
    ((addPlayer sessionId socketId displayName uuid now st).1
       = JoinError "Session is full" ↔
     Z.of_nat (connectedCount s)
       >= SessionSettings.maxPlayersPerSession (GameSession.settings s)).

(** C6 read literally, for uniqueness: the code given to a new session is not
    the code of a session that is live when it is created. *)
Definition codeFreshAmongLive (hostSocketId : string) (settings : PartialSettings.t)
    (now : Z) (rand : nat → Q) (st : State) : Prop :=
  sessions st !! GameSession.id (createSession hostSocketId settings now rand st).1
    = None.

(** ** The rest of the manager

    [removeTeam], and [getPlayerStatus] of [shared/types.ts]. *)

(** [teams.splice(index, 1)] at the first index whose team has [teamId]. *)
Fixpoint removeFirstTeam (teamId : string) (ts : list Team.t) : list Team.t :=
  match ts with
  | [] => []
  | t :: ts' =>
    if bool_decide (Team.id t = teamId) then ts'
    else t :: removeFirstTeam teamId ts'
  end.

(** [if (player.teamId === teamId) player.teamId = null] *)
Definition unassign (teamId : string) (p : Player.t) : Player.t :=
  if bool_decide (Player.teamId p = Some teamId)
  then Player.mk (Player.id p) (Player.socketId p) (Player.displayName p)
         None (Player.isConnected p) (Player.lastSeen p)
  else p.

Definition removeTeam (sessionId teamId : string) (st : State) : bool * State :=
  match sessions st !! sessionId with
  | None => (false, st)
  | Some session =>
    match findTeam teamId (GameSession.teams session) with
    | None => (false, st)
    | Some _ =>
      let session' :=
        GameSession.mk (GameSession.id session) (GameSession.hostSocketId session)
          (GameSession.createdAt session) (GameSession.settings session)
          (removeFirstTeam teamId (GameSession.teams session))
          (unassign teamId <$> GameSession.players session)
          (GameSession.round session) (GameSession.roundHistory session) in
      (true, set_sessions (<[sessionId := session']> (sessions st)) st)
    end
  end.

Module PlayerStatus.
Inductive t := waiting | ready | buzzed | active | passed | queued.
End PlayerStatus.

Definition getPlayerStatus (playerId : string) (round : RoundState.t)
  : PlayerStatus.t :=
  if bool_decide (RoundState.status round = waiting)
     || bool_decide (RoundState.status round = ended)
  then PlayerStatus.waiting
  else if bool_decide (RoundState.activePlayerId round = Some playerId)
  then PlayerStatus.active
  else
    match List.find (fun b => bool_decide (BuzzEntry.playerId b = playerId))
            (RoundState.buzzQueue round) with
    | Some inQueue => PlayerStatus.queued
    | None =>
      if bool_decide (RoundState.status round = open)
      then PlayerStatus.ready else PlayerStatus.waiting
    end.

(** ** Traces over every mutating method

    [Call] with the three mutators it leaves out. *)

Inductive ManagerCall :=
  | BaseCall (c : Call)
  | RemoveTeam (sessionId teamId : string)
  | UpdateTeamScore (sessionId teamId : string) (delta : Z)
  | EndSession (sessionId : string).

Definition applyCall (m : ManagerCall) (now : Z) (st : State) : State :=
  match m with
  | BaseCall c => (call c now st).2
  | RemoveTeam sid tid => (removeTeam sid tid st).2
  | UpdateTeamScore sid tid delta => (updateTeamScore sid tid delta st).2
  | EndSession sid => endSession sid st
  end.

Definition reach (trace : list (Z * ManagerCall)) (st : State) : State :=
  foldl (fun acc tm => applyCall tm.2 tm.1 acc) st trace.

Definition wellFormedManagerCall (m : ManagerCall) : Prop :=
  match m with
  | BaseCall c => wellFormedCall c
  | _ => True
  end.

(** A state of the manager that well-formed calls can produce. *)
Definition reachable (st : State) : Prop :=
  ∃ trace,
    Forall (fun tm => wellFormedManagerCall tm.2) trace ∧
    st = reach trace emptyState.

(** ** Consistency of a session *)

(** No player has two entries in the queue. *)
Definition queueDistinct (r : RoundState.t) : Prop :=
  NoDup (BuzzEntry.playerId <$> RoundState.buzzQueue r).

(** The shape of a round: never [evaluating]; outside of [locked] the
    queue is empty and nobody is active; an active player is the head of
    the queue. *)
Definition roundShape (r : RoundState.t) : Prop :=
  RoundState.status r ≠ evaluating ∧
  (RoundState.status r = locked ∨
   (RoundState.buzzQueue r = [] ∧ RoundState.activePlayerId r = None)) ∧
  (∀ a, RoundState.activePlayerId r = Some a →
        headPlayerId (RoundState.buzzQueue r) = Some a).

(** Every team id held by a player is the id of a team of the session. *)
Definition teamRefsOk (s : GameSession.t) : Prop :=
  ∀ playerId p t,
    GameSession.players s !! playerId = Some p →
    Player.teamId p = Some t →
    ∃ team, team ∈ GameSession.teams s ∧ Team.id team = t.

Definition sessionConsistent (s : GameSession.t) : Prop :=
  queueDistinct (GameSession.round s) ∧
  roundShape (GameSession.round s) ∧
  teamRefsOk s.

Definition consistent (st : State) : Prop :=
  idsNonEmpty st ∧ map_Forall (fun _ s => sessionConsistent s) (sessions st).

(** ** A longer example, over every kind of call

    Two teams, three players; a first round won by Alice, a second one in
    which Bob is kicked while active and Carol passes. *)

Definition fullGameTrace : list (Z * ManagerCall) :=
  [(10, BaseCall (CreateSession "host" PartialSettings.none zeroDraws));
   (20, BaseCall (AddPlayer "AAAAAA" "sock-a" "Alice" "player-a"));
   (30, BaseCall (AddPlayer "AAAAAA" "sock-b" "Bob" "player-b"));
   (35, BaseCall (AddPlayer "AAAAAA" "sock-c" "Carol" "player-c"));
   (40, BaseCall (AddTeam "AAAAAA" "Reds" "team-r"));
   (45, BaseCall (AddTeam "AAAAAA" "Blues" "team-b"));
   (50, BaseCall (AssignPlayerToTeam "AAAAAA" "player-a" (Some "team-r")));
   (55, BaseCall (AssignPlayerToTeam "AAAAAA" "player-b" (Some "team-b")));
   (1000, BaseCall (StartRound "AAAAAA"));
   (1100, BaseCall (ProcessBuzz "sock-a"));
   (1105, BaseCall (ProcessBuzz "sock-b"));
   (1500, BaseCall (MarkCorrect "AAAAAA"));
   (1600, RemoveTeam "AAAAAA" "team-b");
   (2000, BaseCall (StartRound "AAAAAA"));
   (2100, BaseCall (ProcessBuzz "sock-b"));
   (2300, BaseCall (ProcessBuzz "sock-c"));
   (2400, BaseCall (ProcessBuzz "sock-a"))].

Definition fullGameState : State := reach fullGameTrace emptyState.


(** The session a call acts on, if any: the one it names, the one its
    socket resolves to, or the one it creates.  The sweep names none. *)
Definition targetSession (m : ManagerCall) (st : State) : option string :=
  match m with
  | BaseCall (CreateSession _ _ rand) => Some (generateSessionId rand)
  | BaseCall (ProcessBuzz socketId) => resolvedSessionId st socketId
  | BaseCall (DisconnectPlayer socketId) => resolvedSessionId st socketId
  | BaseCall (CleanupStaleSessions _) => None
  | BaseCall (UpdateSettings sessionId _)
  | BaseCall (AddPlayer sessionId _ _ _)
  | BaseCall (RejoinPlayer sessionId _ _)
  | BaseCall (RemovePlayer sessionId _)
  | BaseCall (AddTeam sessionId _ _)
  | BaseCall (AssignPlayerToTeam sessionId _ _)
  | BaseCall (StartRound sessionId)
  | BaseCall (ResetRound sessionId)
  | BaseCall (MarkCorrect sessionId)
  | BaseCall (MarkPass sessionId)
  | BaseCall (SkipPlayer sessionId _)
  | RemoveTeam sessionId _
  | UpdateTeamScore sessionId _ _
  | EndSession sessionId => Some sessionId
  end.

Definition isSweep (m : ManagerCall) : Prop :=
  ∃ maxAgeMs, m = BaseCall (CleanupStaleSessions maxAgeMs).

(** A session in team-exclusive mode: Alice and Carol play for the Reds,
    Bob for nobody; round 1 is open. *)
Definition teamExclusiveTrace : list (Z * ManagerCall) :=
  [(10, BaseCall (CreateSession "host"
                    (PartialSettings.mk None (Some true) None None None None)
                    zeroDraws));
   (20, BaseCall (AddPlayer "AAAAAA" "sock-a" "Alice" "player-a"));
   (30, BaseCall (AddPlayer "AAAAAA" "sock-b" "Bob" "player-b"));
   (35, BaseCall (AddPlayer "AAAAAA" "sock-c" "Carol" "player-c"));
   (40, BaseCall (AddTeam "AAAAAA" "Reds" "team-r"));
   (50, BaseCall (AssignPlayerToTeam "AAAAAA" "player-a" (Some "team-r")));
   (55, BaseCall (AssignPlayerToTeam "AAAAAA" "player-c" (Some "team-r")));
   (1000, BaseCall (StartRound "AAAAAA"))].

Definition teamExclusiveState : State := reach teamExclusiveTrace emptyState.

(** The example with late buzzes disabled, round 1 open. *)
Definition noLateBuzzState : State :=
  (run (exampleSetup (PartialSettings.mk None None (Some false) None None None))
     emptyState).2.

(** ** The client's mirror of a session ([hooks/useSocket.ts])

    The host hook and the player hook keep a [SerializedSession] and update
    it from the events they receive; the two hooks have the same code for
    the reducers below. *)

Module SerializedSession.
Record t := mk {
  id : string;
  hostSocketId : string;
  createdAt : Z;
  settings : SessionSettings.t;
  teams : list Team.t;
  players : list Player.t;
  round : RoundState.t;
  roundHistory : list RoundResult.t
}.

Definition with_round (r : RoundState.t) (s : t) : t :=
  mk (id s) (hostSocketId s) (createdAt s) (settings s) (teams s)
     (players s) r (roundHistory s).
End SerializedSession.

(** [handleBuzzReceived], on event [round:buzzReceived]. *)
Definition handleBuzzReceived (entry : BuzzEntry.t)
    (prev : option SerializedSession.t) : option SerializedSession.t :=
  match prev with
  | None => None
  | Some prev =>
    let round := SerializedSession.round prev in
    let exists_ :=
      existsb (fun b => bool_decide (BuzzEntry.playerId b = BuzzEntry.playerId entry))
        (RoundState.buzzQueue round) in
    if exists_ then Some prev
    else
      let first := bool_decide (length (RoundState.buzzQueue round) = 0%nat) in
      Some (SerializedSession.with_round
              (RoundState.mk
                 (if first then locked else RoundState.status round)
                 (RoundState.questionNumber round)
                 (RoundState.startedAt round)
                 (RoundState.lockedAt round)
                 (if first then Some (BuzzEntry.playerId entry)
                  else RoundState.activePlayerId round)
                 (RoundState.buzzQueue round ++ [entry]))
              prev)
  end.

(** [handlePlayerPassed], on event [round:playerPassed]. *)
Definition handlePlayerPassed (passedPlayerId : string)
    (newActivePlayerId : option string)
    (prev : option SerializedSession.t) : option SerializedSession.t :=
  match prev with
  | None => None
  | Some prev =>
    let round := SerializedSession.round prev in
    let updatedQueue := dropPlayer passedPlayerId (RoundState.buzzQueue round) in
    Some (SerializedSession.with_round
            (RoundState.mk
               (if truthy_opt newActivePlayerId then locked else waiting)
               (RoundState.questionNumber round)
               (RoundState.startedAt round)
               (RoundState.lockedAt round)
               newActivePlayerId
               updatedQueue)
            prev)
  end.

(** What the client shows of a round: phase, active player and the
    players of the queue in order. *)
Definition roundView (r : RoundState.t)
  : RoundStatus * option string * list string :=
  (RoundState.status r, RoundState.activePlayerId r,
   BuzzEntry.playerId <$> RoundState.buzzQueue r).

(** A client's copy of the example session, showing the round [r]. *)
Definition exampleMirror (r : RoundState.t) : SerializedSession.t :=
  SerializedSession.mk "AAAAAA" "host" 10 DEFAULT_SETTINGS []
    [Player.mk "player-a" "sock-a" "Alice" None true 20;
     Player.mk "player-b" "sock-b" "Bob" None true 30]
    r [].

(** ** Calls that play the game

    Buzzes, round control, verdicts, settings and scores: the calls that
    never touch the players of a session. *)

Definition isPlay (m : ManagerCall) : bool :=
  match m with
  | BaseCall (ProcessBuzz _)
  | BaseCall (StartRound _)
  | BaseCall (ResetRound _)
  | BaseCall (MarkCorrect _)
  | BaseCall (MarkPass _)
  | BaseCall (SkipPlayer _ _)
  | BaseCall (UpdateSettings _ _)
  | BaseCall (AddTeam _ _ _)
  | UpdateTeamScore _ _ _ => true
  | _ => false
  end.

(** More than an hour of play in the example session: a second round is
    opened at [t = 3 600 000], Alice buzzes and is marked correct; nobody
    joins or reconnects. *)
Definition longGameTrace : list (Z * ManagerCall) :=
  [(3600000, BaseCall (StartRound "AAAAAA"));
   (3600020, BaseCall (ProcessBuzz "sock-a"));
   (3600030, BaseCall (MarkCorrect "AAAAAA"))].

(** * Properties *)

(** Closed facts about the running example are settled by evaluation. *)
Ltac by_evaluation :=
  repeat match goal with |- _ ∧ _ => split end; vm_compute; reflexivity.

(** ** Lookups and single buzz attempts *)

Lemma getPlayerBySocketId_Some st socketId player sessionId session :
  getPlayerBySocketId st socketId = Some (player, sessionId, session) →
  sessions st !! sessionId = Some session.
Proof.
  unfold getPlayerBySocketId. intros H.
  repeat (case_match; try discriminate). by simplify_eq.
Qed.

Lemma processBuzz_error socketId now st msg st' :
  processBuzz socketId now st = (BuzzError msg, st') →
  sessions st' = sessions st ∧ msg ∈ buzzErrors.
Proof.
  unfold processBuzz, buzzErrors. intros H.
  repeat (case_match; try discriminate); simplify_eq; simpl;
    (split; [reflexivity | set_solver]).
Qed.

Lemma processBuzz_accepted socketId now st e st' :
  processBuzz socketId now st = (BuzzAccepted e, st') →
  ∃ player sessionId session,
    getPlayerBySocketId st socketId = Some (player, sessionId, session) ∧
    e = mkBuzzEntry player session now ∧
    (RoundState.status (GameSession.round session) = open ∨
     RoundState.status (GameSession.round session) = locked) ∧
    sessions st' =
      <[sessionId := GameSession.with_round
                       (pushBuzz e now (GameSession.round session)) session]>
        (sessions st).
Proof.
  unfold processBuzz. intros H.
  destruct (getPlayerBySocketId st socketId) as [[[player sessionId] session]|] eqn:Hres;
    [|discriminate].
  repeat (case_match; try discriminate). simplify_eq.
  exists player, sessionId, session. repeat split; try done.
  destruct (RoundState.status (GameSession.round session)) eqn:Hs;
    try (by left); try (by right);
    rewrite ?bool_decide_eq_true_2 in * by congruence; simpl in *; discriminate.
Qed.

Lemma pushBuzz_appends player session now :
  let e := mkBuzzEntry player session now in
  appendsBuzz now e (GameSession.round session)
    (pushBuzz e now (GameSession.round session)).
Proof.
  unfold appendsBuzz, pushBuzz. simpl.
  case_bool_decide as Hopen; simpl; repeat split; try done; by intros [].
Qed.

Lemma round_with_round r s :
  GameSession.round (GameSession.with_round r s) = r.
Proof. reflexivity. Qed.

Lemma run_buzz_cons now socketId rest st :
  run ((now, ProcessBuzz socketId) :: rest) st =
  (mkLog now socketId (resolvedPlayerId st socketId) (resolvedSessionId st socketId)
     (processBuzz socketId now st).1
     :: (run rest (processBuzz socketId now st).2).1,
   (run rest (processBuzz socketId now st).2).2).
Proof.
  simpl. destruct (processBuzz socketId now st) as [o st1]. simpl.
  by destruct (run rest st1).
Qed.

(** The queue of one session along a trace of buzz attempts, from any
    starting round. *)
Lemma buzzTrace_queue sessionId attempts :
  ∀ st s,
    sessions st !! sessionId = Some s →
    ∃ s',
      sessions (run (buzzTrace attempts) st).2 !! sessionId = Some s' ∧
      let acc := acceptedIn sessionId (run (buzzTrace attempts) st).1 in
      let r := GameSession.round s in
      let r' := GameSession.round s' in
      RoundState.buzzQueue r' = RoundState.buzzQueue r ++ acc ∧
      BuzzEntry.position <$> acc
        = seq (S (length (RoundState.buzzQueue r))) (length acc) ∧
      match acc with
      | [] => r' = r
      | e :: _ =>
        if bool_decide (RoundState.status r = open)
        then RoundState.status r' = locked ∧
             RoundState.lockedAt r' = Some (BuzzEntry.timestamp e) ∧
             RoundState.activePlayerId r' = Some (BuzzEntry.playerId e)
        else RoundState.status r' = RoundState.status r ∧
             RoundState.lockedAt r' = RoundState.lockedAt r ∧
             RoundState.activePlayerId r' = RoundState.activePlayerId r
      end.
Proof.
  induction attempts as [|[now socketId] rest IH]; intros st s Hs.
  { exists s. simpl. by rewrite app_nil_r. }
  change (buzzTrace ((now, socketId) :: rest))
    with ((now, ProcessBuzz socketId) :: buzzTrace rest).
  rewrite run_buzz_cons. cbv zeta.
  destruct (processBuzz socketId now st) as [[e|msg] st1] eqn:Hp; cbn [fst snd].
  - apply processBuzz_accepted in Hp
      as (player & sid0 & s0 & Hres & He & Hstatus & Hsess).
    assert (resolvedSessionId st socketId = Some sid0) as ->
      by (unfold resolvedSessionId; by rewrite Hres).
    cbn [acceptedIn logOutcome logSession].
    case_bool_decide as Hsid.
    + injection Hsid as ->.
      pose proof (getPlayerBySocketId_Some _ _ _ _ _ Hres) as Hs0.
      rewrite Hs in Hs0. injection Hs0 as <-.
      pose proof (pushBuzz_appends player s now) as Happ. cbv zeta in Happ.
      rewrite <- He in Happ.
      destruct Happ as (Hts & Hpos & Hq & _ & _ & Hopen & Hkeep).
      destruct (IH st1 (GameSession.with_round
                          (pushBuzz e now (GameSession.round s)) s))
        as (s' & Hs' & Hqueue & Hposs & Htail).
      { rewrite Hsess. apply lookup_insert_eq. }
      exists s'. split; [done|].
      rewrite !round_with_round in Hqueue, Hposs, Htail.
      rewrite Hq in Hqueue, Hposs. rewrite length_app in Hposs.
      split; [by rewrite Hqueue, <- app_assoc|].
      split.
      { rewrite fmap_cons, Hpos, Hposs. cbn [length seq].
        f_equal; [lia|]. f_equal. lia. }
      destruct (decide (RoundState.status (GameSession.round s) = open)) as [Ho|Ho].
      * rewrite bool_decide_eq_true_2 by done.
        destruct (Hopen Ho) as (H1 & H2 & H3).
        destruct (acceptedIn sessionId _) as [|e2 acc2].
        { rewrite Htail. by rewrite Hts. }
        rewrite bool_decide_eq_false_2 in Htail by (by rewrite H1).
        destruct Htail as (-> & -> & ->). by rewrite Hts.
      * rewrite bool_decide_eq_false_2 by done.
        destruct (Hkeep Ho) as (H1 & H2 & H3).
        destruct (acceptedIn sessionId _) as [|e2 acc2].
        { by rewrite Htail. }
        rewrite bool_decide_eq_false_2 in Htail by (by rewrite H1).
        destruct Htail as (-> & -> & ->). done.
    + destruct (IH st1 s) as (s' & Hs' & Hrest).
      { rewrite Hsess, lookup_insert_ne; [done|]. congruence. }
      by exists s'.
  - apply processBuzz_error in Hp as [Hsess _].
    cbn [acceptedIn logOutcome].
    destruct (IH st1 s) as (s' & Hs' & Hrest); [by rewrite Hsess|].
    by exists s'.
Qed.

(** ** C10: a rejected buzz leaves every round untouched *)

(** C10. Whenever [processBuzz] returns an error, the error is one of the
    six rejections (player not found, buzzer not active, already buzzed,
    too fast, team already buzzed, buzzer locked) and the [sessions] map is
    the one before the call; so the round of every session (status,
    questionNumber, startedAt, lockedAt, activePlayerId and buzzQueue) is
    exactly what it was. *)
Theorem processBuzz_rejection_keeps_round socketId now st msg st' :
  processBuzz socketId now st = (BuzzError msg, st') →
  msg ∈ buzzErrors ∧
  sessions st' = sessions st ∧
  ∀ sessionId,
    GameSession.round <$> (sessions st' !! sessionId)
      = GameSession.round <$> (sessions st !! sessionId).
Proof.
  intros H. apply processBuzz_error in H as [Hs Hmsg].
  split; [done|]. split; [done|]. intros sid. by rewrite Hs.
Qed.

Lemma processBuzz_rejection_keeps_round_witness :
  sessions (processBuzz "sock-a" 1050 (processBuzz "sock-a" 1000 exampleState).2).2
    = sessions (processBuzz "sock-a" 1000 exampleState).2.
Proof.
  refine (proj1 (proj2 (processBuzz_rejection_keeps_round
            "sock-a" 1050 (processBuzz "sock-a" 1000 exampleState).2
            "Already buzzed" _ _))).
  vm_compute. reflexivity.
Defined.

(** ** C1: accepted buzzes are queued in acceptance order *)

(** C1. An accepted buzz is stamped with the time of the call, gets
    position [length buzzQueue + 1] and is appended; it locks an open round
    (lockedAt = now, activePlayerId = the buzzer) and leaves the phase of a
    locked round alone.  Hence, from a freshly opened round (open, empty
    queue), after any sequence of buzz attempts the queue of the session is
    the list of its accepted entries in acceptance order, their positions
    are 1..k, and as soon as one buzz was accepted the round is locked on
    the first accepted buzzer. *)
Theorem processBuzz_positions_follow_acceptance :
  (∀ socketId now st e st',
     processBuzz socketId now st = (BuzzAccepted e, st') →
     ∃ player sessionId s s',
       getPlayerBySocketId st socketId = Some (player, sessionId, s) ∧
       sessions st' !! sessionId = Some s' ∧
       BuzzEntry.playerId e = Player.id player ∧
       appendsBuzz now e (GameSession.round s) (GameSession.round s')) ∧
  (∀ attempts st sessionId s,
     sessions st !! sessionId = Some s →
     RoundState.status (GameSession.round s) = open →
     RoundState.buzzQueue (GameSession.round s) = [] →
     ∃ s',
       sessions (run (buzzTrace attempts) st).2 !! sessionId = Some s' ∧
       let acc := acceptedIn sessionId (run (buzzTrace attempts) st).1 in
       RoundState.buzzQueue (GameSession.round s') = acc ∧
       BuzzEntry.position <$> acc = seq 1 (length acc) ∧
       match acc with
       | [] => GameSession.round s' = GameSession.round s
       | first :: _ =>
         RoundState.status (GameSession.round s') = locked ∧
         RoundState.lockedAt (GameSession.round s') = Some (BuzzEntry.timestamp first) ∧
         RoundState.activePlayerId (GameSession.round s') = Some (BuzzEntry.playerId first)
       end).
Proof.
  split.
  - intros socketId now st e st' Hp.
    apply processBuzz_accepted in Hp
      as (player & sid & s & Hres & He & _ & Hsess).
    exists player, sid, s,
      (GameSession.with_round (pushBuzz e now (GameSession.round s)) s).
    split; [done|]. split; [by rewrite Hsess, lookup_insert_eq|].
    split; [by subst e|].
    rewrite round_with_round. subst e. apply pushBuzz_appends.
  - intros attempts st sid s Hs Hopen Hempty.
    destruct (buzzTrace_queue sid attempts st s Hs) as (s' & Hs' & Hq & Hpos & Hst).
    exists s'. split; [done|]. cbv zeta in *.
    rewrite Hempty in Hq, Hpos. split; [done|]. split; [done|].
    destruct (acceptedIn sid _); [done|].
    by rewrite bool_decide_eq_true_2 in Hst.
Qed.

Lemma processBuzz_positions_follow_acceptance_witness :
  ∃ s',
    sessions (run (buzzTrace [(1000, "sock-b"); (1005, "sock-a"); (1010, "sock-b")])
                exampleState).2 !! "AAAAAA" = Some s' ∧
    BuzzEntry.playerId <$> RoundState.buzzQueue (GameSession.round s')
      = ["player-b"; "player-a"] ∧
    BuzzEntry.position <$> RoundState.buzzQueue (GameSession.round s') = [1; 2]%nat ∧
    RoundState.status (GameSession.round s') = locked ∧
    RoundState.activePlayerId (GameSession.round s') = Some "player-b".
Proof.
  destruct (proj2 processBuzz_positions_follow_acceptance
              [(1000, "sock-b"); (1005, "sock-a"); (1010, "sock-b")]
              exampleState "AAAAAA"
              (default (GameSession.mk "" "" 0 DEFAULT_SETTINGS [] ∅
                          createInitialRoundState [])
                 (sessions exampleState !! "AAAAAA")))
    as (s' & Hs' & Hq & Hpos & Hst).
  - vm_compute. reflexivity.
  - vm_compute. reflexivity.
  - vm_compute. reflexivity.
  - exists s'. split; [exact Hs'|].
    cbv zeta in Hq, Hpos, Hst. rewrite Hq.
    vm_compute. repeat split; try reflexivity.
    all: vm_compute in Hst; destruct Hst as (H1 & H2 & H3); assumption.
Defined.

(** ** C2: the rate limit *)

Lemma processBuzz_resolved st socketId now player sessionId s :
  getPlayerBySocketId st socketId = Some (player, sessionId, s) →
  processBuzz socketId now st =
    let round := GameSession.round s in
    let settings := GameSession.settings s in
    if bool_decide (RoundState.status round ≠ open)
       && bool_decide (RoundState.status round ≠ locked)
    then (BuzzError "Buzzer is not active", st)
    else if alreadyBuzzed (Player.id player) (RoundState.buzzQueue round)
    then (BuzzError "Already buzzed", st)
    else if tooFast (playerBuzzTimestamps st !! Player.id player) now
              (SessionSettings.buzzCooldownMs settings)
    then (BuzzError "Too fast", st)
    else
      let st1 := set_playerBuzzTimestamps
                   (<[Player.id player := now]> (playerBuzzTimestamps st)) st in
      if teamBlocked settings player round
      then (BuzzError "Team already buzzed", st1)
      else if lateBlocked settings round
      then (BuzzError "Buzzer is locked", st1)
      else
        (BuzzAccepted (mkBuzzEntry player s now),
         set_sessions
           (<[sessionId := GameSession.with_round
                             (pushBuzz (mkBuzzEntry player s now) now round) s]>
              (sessions st1)) st1).
Proof. intros H. unfold processBuzz. by rewrite H. Qed.

Lemma roundActive_spec (r : RoundState.t) :
  bool_decide (RoundState.status r ≠ open)
  && bool_decide (RoundState.status r ≠ locked) = false
  ↔ RoundState.status r = open ∨ RoundState.status r = locked.
Proof.
  destruct (RoundState.status r); simpl; split; intros H;
    try discriminate; try (by left); try (by right); try done;
    destruct H; discriminate.
Qed.

Lemma tooFast_spec lastBuzz now cooldown :
  tooFast lastBuzz now cooldown = true
  ↔ ∃ t, lastBuzz = Some t ∧ t ≠ 0 ∧ now - t < cooldown.
Proof.
  unfold tooFast, truthy_num. destruct lastBuzz as [t|].
  - rewrite andb_true_iff, negb_true_iff, bool_decide_eq_false, bool_decide_eq_true.
    split; [intros []; eauto | intros (? & [= <-] & ? & ?); done].
  - split; [done | intros (? & [=] & _)].
Qed.

Lemma processBuzz_unresolved st socketId now :
  getPlayerBySocketId st socketId = None →
  processBuzz socketId now st = (BuzzError "Player not found", st).
Proof. intros H. unfold processBuzz. by rewrite H. Qed.

(** C2, amended. The default cooldown is 100 ms.  [processBuzz] answers
    "Too fast" exactly when the attempt reaches the rate check (player
    resolved, phase open or locked, no queue entry of the player) and the
    player's recorded timestamp is non-zero and less than [buzzCooldownMs]
    before [now].  The recorded timestamp is set to [now] by every attempt
    that passes the rate check (accepted, or rejected afterwards as team
    already buzzed or buzzer locked) and by no other attempt.  An attempt
    within the cooldown of the recorded timestamp is always rejected, and an
    otherwise admissible attempt outside of it is accepted. *)
Theorem processBuzz_rate_limit :
  SessionSettings.buzzCooldownMs DEFAULT_SETTINGS = 100 ∧
  (∀ socketId now st,
     (processBuzz socketId now st).1 = BuzzError "Too fast" ↔
     ∃ player sessionId s,
       reachesRateCheck st socketId player sessionId s ∧
       withinCooldown st player s now) ∧
  (∀ socketId now st,
     playerBuzzTimestamps (processBuzz socketId now st).2 =
       match getPlayerBySocketId st socketId with
       | Some (player, _, _) =>
         if passedRateCheck (processBuzz socketId now st).1
         then <[Player.id player := now]> (playerBuzzTimestamps st)
         else playerBuzzTimestamps st
       | None => playerBuzzTimestamps st
       end) ∧
  (∀ socketId now st player sessionId s,
     getPlayerBySocketId st socketId = Some (player, sessionId, s) →
     withinCooldown st player s now →
     ∃ msg, (processBuzz socketId now st).1 = BuzzError msg) ∧
  (∀ socketId now st player sessionId s,
     reachesRateCheck st socketId player sessionId s →
     ¬ withinCooldown st player s now →
     teamBlocked (GameSession.settings s) player (GameSession.round s) = false →
     lateBlocked (GameSession.settings s) (GameSession.round s) = false →
     (processBuzz socketId now st).1 = BuzzAccepted (mkBuzzEntry player s now)).
Proof.
  split; [reflexivity|]. split; [|split; [|split]].
  - intros socketId now st. split.
    + intros H.
      destruct (getPlayerBySocketId st socketId) as [[[player sid] s]|] eqn:Hres.
      2:{ rewrite processBuzz_unresolved in H by done. discriminate. }
      rewrite (processBuzz_resolved _ _ _ _ _ _ Hres) in H. cbv zeta in H.
      exists player, sid, s.
      destruct (bool_decide _ && bool_decide _) eqn:Hact; [discriminate|].
      destruct (alreadyBuzzed _ _) eqn:Hdup; [discriminate|].
      destruct (tooFast _ _ _) eqn:Hfast.
      * split; [split; [done|split; [by apply roundActive_spec|done]]|].
        by apply tooFast_spec.
      * destruct (teamBlocked _ _ _); [discriminate|].
        destruct (lateBlocked _ _); discriminate.
    + intros (player & sid & s & (Hres & Hact & Hdup) & Hfast).
      rewrite (processBuzz_resolved _ _ _ _ _ _ Hres). cbv zeta.
      apply roundActive_spec in Hact. rewrite Hact, Hdup.
      apply tooFast_spec in Hfast. by rewrite Hfast.
  - intros socketId now st.
    destruct (getPlayerBySocketId st socketId) as [[[player sid] s]|] eqn:Hres.
    2:{ by rewrite processBuzz_unresolved. }
    rewrite (processBuzz_resolved _ _ _ _ _ _ Hres). cbv zeta.
    repeat (case_match; try done).
  - intros socketId now st player sid s Hres Hfast.
    rewrite (processBuzz_resolved _ _ _ _ _ _ Hres). cbv zeta.
    apply tooFast_spec in Hfast. rewrite Hfast.
    repeat (case_match; eauto).
  - intros socketId now st player sid s (Hres & Hact & Hdup) Hslow Hteam Hlate.
    rewrite (processBuzz_resolved _ _ _ _ _ _ Hres). cbv zeta.
    apply roundActive_spec in Hact. rewrite Hact, Hdup, Hteam, Hlate.
    destruct (tooFast _ _ _) eqn:Hfast; [|done].
    by apply tooFast_spec in Hfast.
Qed.

Lemma processBuzz_rate_limit_witness :
  (processBuzz "sock-b" 2100 (run lateBuzzTrace emptyState).2).1
  = BuzzAccepted
      (BuzzEntry.mk "player-b" "Bob" None None None 2100 1).
Proof.
  refine (proj2 (proj2 (proj2 (proj2 processBuzz_rate_limit)))
            "sock-b" 2100 (run lateBuzzTrace emptyState).2
            (Player.mk "player-b" "sock-b" "Bob" None true 30) "AAAAAA"
            (default (GameSession.mk "" "" 0 DEFAULT_SETTINGS [] ∅
                        createInitialRoundState [])
               (sessions (run lateBuzzTrace emptyState).2 !! "AAAAAA"))
            _ _ _ _).
  - split; [|split]; [vm_compute; reflexivity | left; vm_compute; reflexivity
                     | vm_compute; reflexivity].
  - intros (t & Ht & _ & Hlt). vm_compute in Ht. injection Ht as <-.
    vm_compute in Hlt. discriminate.
  - vm_compute. reflexivity.
  - vm_compute. reflexivity.
Defined.

(** C2 as stated fails: with late buzzes disabled, Bob's only earlier
    attempt (t = 2000) was refused as "Buzzer is locked", yet it set his
    timestamp, so his attempt in the next, open round at t = 2050 is
    answered "Too fast" although he has no accepted buzz at all. *)
Lemma processBuzz_rate_limit_counterexample :
  logOutcome <$> (run lateBuzzTrace emptyState).1
    = [BuzzAccepted (BuzzEntry.mk "player-a" "Alice" None None None 1000 1);
       BuzzError "Buzzer is locked"] ∧
  lastAcceptedBuzz "player-b" (run lateBuzzTrace emptyState).1 = None ∧
  playerBuzzTimestamps (run lateBuzzTrace emptyState).2 !! "player-b" = Some 2000 ∧
  (processBuzz "sock-b" 2050 (run lateBuzzTrace emptyState).2).1 = BuzzError "Too fast" ∧
  ¬ rateLimitFollowsAcceptedBuzzes lateBuzzTrace 2050 "sock-b".
Proof.
  split; [vm_compute; reflexivity|].
  split; [vm_compute; reflexivity|].
  split; [vm_compute; reflexivity|].
  split; [vm_compute; reflexivity|].
  intros H.
  destruct (H (Player.mk "player-b" "sock-b" "Bob" None true 30) "AAAAAA"
              (default (GameSession.mk "" "" 0 DEFAULT_SETTINGS [] ∅
                          createInitialRoundState [])
                 (sessions (run lateBuzzTrace emptyState).2 !! "AAAAAA")))
    as [Hfwd _].
  { vm_compute. reflexivity. }
  destruct Hfwd as (t & Ht & _); [vm_compute; reflexivity|].
  vm_compute in Ht. discriminate.
Qed.

(** ** C3 and C4: removing a queued player *)

Lemma renumberFrom_length i q : length (renumberFrom i q) = length q.
Proof. revert i. induction q as [|b q IH]; intros i; simpl; [done|]. by rewrite IH. Qed.

Lemma renumberFrom_positions i q :
  BuzzEntry.position <$> renumberFrom i q = seq (S i) (length q).
Proof.
  revert i. induction q as [|b q IH]; intros i; [done|].
  cbn [renumberFrom length seq]. rewrite fmap_cons, IH. cbn [with_position BuzzEntry.position].
  f_equal. lia.
Qed.

Lemma renumber_positions q :
  BuzzEntry.position <$> renumber q = seq 1 (length (renumber q)).
Proof. unfold renumber. rewrite renumberFrom_length. apply renumberFrom_positions. Qed.

Lemma renumberFrom_playerIds i q :
  BuzzEntry.playerId <$> renumberFrom i q = BuzzEntry.playerId <$> q.
Proof.
  revert i. induction q as [|b q IH]; intros i; [done|].
  cbn [renumberFrom]. by rewrite !fmap_cons, IH.
Qed.

Lemma dropPlayer_absent playerId q :
  playerId ∉ (BuzzEntry.playerId <$> dropPlayer playerId q).
Proof.
  induction q as [|b q IH]; simpl; [set_solver|].
  case_bool_decide as Hb; simpl; [done|].
  rewrite not_elem_of_cons. split; [congruence|done].
Qed.

(** What [markPass] does for a session with an active player: the entries
    of that player are dropped, the rest is renumbered from 1, the new head
    (if any) becomes active; the phase is the one before the call. *)
Lemma markPass_round sessionId st s passed :
  sessions st !! sessionId = Some s →
  RoundState.activePlayerId (GameSession.round s) = Some passed →
  passed ≠ "" →
  let q' := renumber (dropPlayer passed (RoundState.buzzQueue (GameSession.round s))) in
  (markPass sessionId st).1 = Some (passed, headPlayerId q') ∧
  roundOf sessionId (markPass sessionId st).2 =
    Some (RoundState.mk
            (RoundState.status (GameSession.round s))
            (RoundState.questionNumber (GameSession.round s))
            (RoundState.startedAt (GameSession.round s))
            (RoundState.lockedAt (GameSession.round s))
            (headPlayerId q') q') ∧
  BuzzEntry.position <$> q' = seq 1 (length q') ∧
  passed ∉ (BuzzEntry.playerId <$> q').
Proof.
  intros Hs Hactive Hne. unfold markPass, roundOf. rewrite Hs, Hactive.
  unfold truthy. rewrite bool_decide_eq_false_2 by done. simpl.
  rewrite lookup_insert_eq. simpl.
  split; [done|]. split; [done|]. split.
  - apply renumber_positions.
  - unfold renumber. rewrite renumberFrom_playerIds. apply dropPlayer_absent.
Qed.

(** What [skipPlayer] does to the queue of a live session. *)
Lemma skipPlayer_queue sessionId playerId st s :
  sessions st !! sessionId = Some s →
  ∃ r',
    roundOf sessionId (skipPlayer sessionId playerId st).2 = Some r' ∧
    RoundState.buzzQueue r'
      = renumber (dropPlayer playerId (RoundState.buzzQueue (GameSession.round s))) ∧
    BuzzEntry.position <$> RoundState.buzzQueue r'
      = seq 1 (length (RoundState.buzzQueue r')).
Proof.
  intros Hs. unfold skipPlayer, roundOf. rewrite Hs. simpl.
  rewrite lookup_insert_eq. simpl. eexists. split; [done|].
  case_bool_decide; simpl; (split; [done|apply renumber_positions]).
Qed.

(** What [removePlayer] does to the queue of a live session: the entries
    of the player are dropped and the positions are left as they were. *)
Lemma removePlayer_queue sessionId playerId st s :
  sessions st !! sessionId = Some s →
  ∃ r',
    roundOf sessionId (removePlayer sessionId playerId st) = Some r' ∧
    RoundState.buzzQueue r'
      = dropPlayer playerId (RoundState.buzzQueue (GameSession.round s)).
Proof.
  intros Hs. unfold removePlayer, roundOf. rewrite Hs. simpl.
  rewrite lookup_insert_eq. simpl. eexists. split; [done|].
  by case_bool_decide.
Qed.

(** C3. Code evaluated where it departs from the claim: Alice is the only
    queued player and is active in a locked round.  After [markPass] the
    queue is empty and nobody is active, but the phase is still [locked],
    not [waiting]; [skipPlayer] on the same state, which goes through
    [advanceQueue], does reach [waiting]. *)
Theorem markPass_empty_queue_stays_locked :
  roundOf "AAAAAA" oneBuzzState
    = Some (RoundState.mk locked 1 (Some 1000) (Some 1000) (Some "player-a")
              [BuzzEntry.mk "player-a" "Alice" None None None 1000 1]) ∧
  (markPass "AAAAAA" oneBuzzState).1 = Some ("player-a", None) ∧
  roundOf "AAAAAA" (markPass "AAAAAA" oneBuzzState).2
    = Some (RoundState.mk locked 1 (Some 1000) (Some 1000) None []) ∧
  roundOf "AAAAAA" (skipPlayer "AAAAAA" "player-a" oneBuzzState).2
    = Some (RoundState.mk waiting 1 (Some 1000) (Some 1000) None []).
Proof. by_evaluation. Qed.

(** C4. Code evaluated where it departs from the claim: Alice (position 1)
    and Bob (position 2) are queued.  Kicking Alice with [removePlayer]
    leaves Bob at position 2; [skipPlayer] and [markPass] on the same state
    leave him at position 1. *)
Theorem removePlayer_leaves_position_gap :
  queuePositions "AAAAAA" twoBuzzState = Some [1; 2]%nat ∧
  queuePositions "AAAAAA" (removePlayer "AAAAAA" "player-a" twoBuzzState)
    = Some [2]%nat ∧
  queuePositions "AAAAAA" (skipPlayer "AAAAAA" "player-a" twoBuzzState).2
    = Some [1]%nat ∧
  queuePositions "AAAAAA" (markPass "AAAAAA" twoBuzzState).2
    = Some [1]%nat.
Proof. by_evaluation. Qed.

(** ** C5 and C8: joining a session *)

Lemma elem_of_playersValues p s :
  p ∈ playersValues s ↔ ∃ playerId, GameSession.players s !! playerId = Some p.
Proof.
  unfold playersValues. rewrite list_elem_of_fmap. split.
  - intros ([pid p'] & -> & Hin). exists pid. by apply elem_of_map_to_list.
  - intros (pid & Hp). exists (pid, p). split; [done|]. by apply elem_of_map_to_list.
Qed.

Lemma length_playersValues s :
  length (playersValues s) = size (GameSession.players s).
Proof. unfold playersValues. by rewrite length_fmap, length_map_to_list. Qed.

Lemma connectedCount_le_size s :
  (connectedCount s ≤ size (GameSession.players s))%nat.
Proof.
  unfold connectedCount. rewrite <- length_playersValues.
  apply List.filter_length_le.
Qed.

Lemma addPlayer_unknown sessionId socketId displayName uuid now st :
  sessions st !! sessionId = None →
  addPlayer sessionId socketId displayName uuid now st
    = (JoinError "Session not found", st).
Proof. intros H. unfold addPlayer. by rewrite H. Qed.

Lemma addPlayer_live sessionId socketId displayName uuid now st s :
  sessions st !! sessionId = Some s →
  (addPlayer sessionId socketId displayName uuid now st).1 =
    if bool_decide (Z.of_nat (size (GameSession.players s))
                    >= SessionSettings.maxPlayersPerSession (GameSession.settings s))
    then JoinError "Session is full"
    else match List.find (nameClash displayName) (playersValues s) with
         | Some _ => JoinError "Name already taken"
         | None =>
           Joined (Player.mk uuid socketId (slice0 20 (trim displayName)) None true now)
         end.
Proof. intros H. unfold addPlayer. rewrite H. by repeat case_match. Qed.

Lemma find_nameClash s displayName :
  is_Some (List.find (nameClash displayName) (playersValues s))
  ↔ connectedNamesake s displayName.
Proof.
  unfold connectedNamesake, nameClash. split.
  - intros [p Hfind]. apply List.find_some in Hfind as [Hin Hclash].
    apply list_elem_of_In, elem_of_playersValues in Hin as [pid Hp].
    apply andb_true_iff in Hclash as [Hname Hconn].
    apply bool_decide_eq_true in Hname. by exists pid, p.
  - intros (pid & p & Hp & Hconn & Hname).
    destruct (List.find _ _) eqn:Hfind; [by eexists|].
    assert (In p (playersValues s)) as Hin
      by (apply list_elem_of_In, elem_of_playersValues; by exists pid).
    apply (List.find_none _ _ Hfind) in Hin.
    rewrite Hconn, bool_decide_eq_true_2 in Hin by done. discriminate.
Qed.

(** C5, amended. The default maximum is 50.  [addPlayer] answers "Session
    is full" exactly when the session exists and the number of players it
    holds, connected or not, has reached [maxPlayersPerSession]; this
    covers every case in which the connected players reach the maximum. *)
Theorem addPlayer_capacity :
  SessionSettings.maxPlayersPerSession DEFAULT_SETTINGS = 50 ∧
  (∀ sessionId socketId displayName uuid now st,
     (addPlayer sessionId socketId displayName uuid now st).1
       = JoinError "Session is full" ↔
     ∃ s, sessions st !! sessionId = Some s ∧
          Z.of_nat (size (GameSession.players s))
            >= SessionSettings.maxPlayersPerSession (GameSession.settings s)) ∧
  (∀ sessionId socketId displayName uuid now st s,
     sessions st !! sessionId = Some s →
     Z.of_nat (connectedCount s)
       >= SessionSettings.maxPlayersPerSession (GameSession.settings s) →
     (addPlayer sessionId socketId displayName uuid now st).1
       = JoinError "Session is full").
Proof.
  split; [reflexivity|]. split.
  - intros sid sock name uuid now st. split.
    + intros H. destruct (sessions st !! sid) as [s|] eqn:Hs.
      2:{ rewrite addPlayer_unknown in H by done. discriminate. }
      exists s. split; [done|].
      rewrite (addPlayer_live _ _ _ _ _ _ _ Hs) in H.
      case_bool_decide; [done|]. by repeat case_match.
    + intros (s & Hs & Hfull).
      rewrite (addPlayer_live _ _ _ _ _ _ _ Hs).
      by rewrite bool_decide_eq_true_2.
  - intros sid sock name uuid now st s Hs Hconn.
    rewrite (addPlayer_live _ _ _ _ _ _ _ Hs).
    rewrite bool_decide_eq_true_2; [done|].
    pose proof (connectedCount_le_size s). lia.
Qed.

Lemma addPlayer_capacity_witness :
  (addPlayer "AAAAAA" "sock-b" "Bob" "player-b" 40
     (run [(10, CreateSession "host"
                  (PartialSettings.mk None None None None (Some 1) None) zeroDraws);
           (20, AddPlayer "AAAAAA" "sock-a" "Alice" "player-a")] emptyState).2).1
  = JoinError "Session is full".
Proof.
  eapply (proj2 (proj2 addPlayer_capacity)).
  - vm_compute. reflexivity.
  - vm_compute. discriminate.
Defined.

(** C5 as stated fails: the session admits one player, Alice joined and
    is disconnected, so no player is connected; Bob's join is still
    answered "Session is full". *)
Lemma addPlayer_capacity_counterexample :
  (∃ s, sessions fullRoomState !! "AAAAAA" = Some s ∧
        connectedCount s = 0%nat ∧
        size (GameSession.players s) = 1%nat ∧
        SessionSettings.maxPlayersPerSession (GameSession.settings s) = 1) ∧
  (addPlayer "AAAAAA" "sock-b" "Bob" "player-b" 40 fullRoomState).1
    = JoinError "Session is full" ∧
  ¬ capacityFollowsConnected fullRoomState "AAAAAA" "sock-b" "Bob" "player-b" 40.
Proof.
  split; [|split].
  - eexists. split; [vm_compute; reflexivity|]. by_evaluation.
  - vm_compute. reflexivity.
  - intros H.
    edestruct H as [Hfwd _]; [vm_compute; reflexivity|].
    assert (Hfull : (addPlayer "AAAAAA" "sock-b" "Bob" "player-b" 40 fullRoomState).1
                    = JoinError "Session is full") by (vm_compute; reflexivity).
    apply Hfwd in Hfull. vm_compute in Hfull. by apply Hfull.
Qed.

(** C8. In a live session that is not full, [addPlayer] answers "Name
    already taken" exactly when some connected player has the given name up
    to case; and when every player with that name up to case is
    disconnected, the join succeeds with a fresh connected player. *)
Theorem addPlayer_name_check sessionId socketId displayName uuid now st s :
  sessions st !! sessionId = Some s →
  Z.of_nat (size (GameSession.players s))
    < SessionSettings.maxPlayersPerSession (GameSession.settings s) →
  ((addPlayer sessionId socketId displayName uuid now st).1
     = JoinError "Name already taken" ↔ connectedNamesake s displayName) ∧
  ((∀ playerId p,
      GameSession.players s !! playerId = Some p →
      toLowerCase (Player.displayName p) = toLowerCase displayName →
      Player.isConnected p = false) →
   (addPlayer sessionId socketId displayName uuid now st).1
     = Joined (Player.mk uuid socketId (slice0 20 (trim displayName)) None true now)).
Proof.
  intros Hs Hroom. rewrite (addPlayer_live _ _ _ _ _ _ _ Hs).
  rewrite bool_decide_eq_false_2 by lia.
  pose proof (find_nameClash s displayName) as Hfind.
  split; [split|].
  - destruct (List.find _ _); [intros _|done]. apply Hfind. by eexists.
  - intros Hclash. apply Hfind in Hclash as [p ->]. done.
  - intros Hgone. destruct (List.find _ _); [|done].
    destruct Hfind as [Hfind _].
    destruct Hfind as (pid & p & Hp & Hconn & Hname); [by eexists|].
    rewrite (Hgone pid p Hp Hname) in Hconn. discriminate.
Qed.

Lemma addPlayer_name_check_witness :
  (addPlayer "AAAAAA" "sock-c" "bob" "player-c" 1600 aliceGoneState).1
    = JoinError "Name already taken" ∧
  (addPlayer "AAAAAA" "sock-c" "ALICE" "player-c" 1600 aliceGoneState).1
    = Joined (Player.mk "player-c" "sock-c" "ALICE" None true 1600).
Proof.
  pose (s := default (GameSession.mk "" "" 0 DEFAULT_SETTINGS [] ∅
                        createInitialRoundState [])
               (sessions aliceGoneState !! "AAAAAA")).
  assert (Hs : sessions aliceGoneState !! "AAAAAA" = Some s)
    by (vm_compute; reflexivity).
  assert (Hroom : Z.of_nat (size (GameSession.players s))
                  < SessionSettings.maxPlayersPerSession (GameSession.settings s))
    by (vm_compute; reflexivity).
  split.
  - apply (proj1 (addPlayer_name_check "AAAAAA" "sock-c" "bob" "player-c" 1600
                    aliceGoneState s Hs Hroom)).
    exists "player-b", (Player.mk "player-b" "sock-b" "Bob" None true 30).
    split; [vm_compute; reflexivity|]. split; vm_compute; reflexivity.
  - apply (proj2 (addPlayer_name_check "AAAAAA" "sock-c" "ALICE" "player-c" 1600
                    aliceGoneState s Hs Hroom)).
    apply (bool_decide_unpack
             (map_Forall (fun _ p =>
                toLowerCase (Player.displayName p) = toLowerCase "ALICE" →
                Player.isConnected p = false) (GameSession.players s))).
    vm_compute. exact I.
Defined.

(** ** C9: the staleness sweep *)

Lemma foldr_max_spec (init : Z) (l : list Z) :
  init ≤ foldr Z.max init l ∧
  (∀ x, x ∈ l → x ≤ foldr Z.max init l) ∧
  (foldr Z.max init l = init ∨ foldr Z.max init l ∈ l).
Proof.
  induction l as [|y l (IH1 & IH2 & IH3)]; simpl.
  - split; [lia|]. split; [|by left]. intros x Hx. by apply elem_of_nil in Hx.
  - split; [lia|]. split.
    + intros x [->|Hx]%elem_of_cons; [lia|]. specialize (IH2 x Hx). lia.
    + destruct (Z.max_spec y (foldr Z.max init l)) as [[_ ->]|[_ ->]].
      * destruct IH3 as [?|?]; [by left|right; by apply elem_of_cons; right].
      * right. apply elem_of_cons. by left.
Qed.

Lemma forgetPlayers_sessions ps st :
  sessions (foldl (fun acc player => forgetPlayer player acc) st ps) = sessions st.
Proof. revert st. induction ps as [|p ps IH]; intros st; simpl; [done|]. by rewrite IH. Qed.

Lemma endSession_sessions sessionId st :
  sessions (endSession sessionId st) = delete sessionId (sessions st).
Proof.
  unfold endSession. destruct (sessions st !! sessionId) eqn:Hs; simpl.
  - by rewrite forgetPlayers_sessions.
  - symmetry. by apply delete_id.
Qed.

Lemma sweep_sessions maxAgeMs now l st :
  sessions (foldl (sweepEntry maxAgeMs now) st l)
  = foldl (fun m entry => if isStale maxAgeMs now entry.2 then delete entry.1 m else m)
      (sessions st) l.
Proof.
  revert st. induction l as [|e l IH]; intros st; simpl; [done|].
  rewrite IH. f_equal. unfold sweepEntry.
  destruct (isStale _ _ _); [apply endSession_sessions|done].
Qed.

Lemma sweep_lookup_other maxAgeMs now (l : list (string * GameSession.t))
    (m : gmap string GameSession.t) k :
  k ∉ l.*1 →
  foldl (fun m entry => if isStale maxAgeMs now entry.2 then delete entry.1 m else m)
    m l !! k = m !! k.
Proof.
  revert m. induction l as [|[k' v'] l IH]; intros m Hk; simpl; [done|].
  rewrite fmap_cons in Hk. apply not_elem_of_cons in Hk as [Hne Hk].
  rewrite IH by done. simpl in *.
  destruct (isStale _ _ _); [by rewrite lookup_delete_ne|done].
Qed.

Lemma sweep_lookup maxAgeMs now (l : list (string * GameSession.t))
    (m : gmap string GameSession.t) k v :
  NoDup l.*1 → (k, v) ∈ l →
  foldl (fun m entry => if isStale maxAgeMs now entry.2 then delete entry.1 m else m)
    m l !! k = if isStale maxAgeMs now v then None else m !! k.
Proof.
  revert m. induction l as [|[k' v'] l IH]; intros m Hnd Hin; simpl.
  { by apply elem_of_nil in Hin. }
  rewrite fmap_cons in Hnd. apply NoDup_cons in Hnd as [Hk' Hnd]. simpl in Hk'.
  apply elem_of_cons in Hin as [[= <- <-]|Hin].
  - rewrite sweep_lookup_other by done.
    destruct (isStale _ _ _); [by rewrite lookup_delete_eq|done].
  - rewrite IH by done.
    assert (k' ≠ k) as Hne.
    { intros ->. apply Hk'. apply list_elem_of_fmap. by exists (k, v). }
    destruct (isStale maxAgeMs now v); [done|].
    destruct (isStale _ _ _); [by rewrite lookup_delete_ne|done].
Qed.

(** C9. The last activity of a session is the maximum of its creation time
    and the last-seen times of its players, and the sweep removes a live
    session exactly when [now - lastActivity > maxAgeMs]: removed when the
    last activity is [maxAgeMs + 1] ms in the past, retained when it is
    exactly [maxAgeMs] in the past. *)
Theorem cleanupStaleSessions_boundary maxAgeMs now st sessionId s :
  sessions st !! sessionId = Some s →
  (GameSession.createdAt s ≤ lastActivity s ∧
   (∀ playerId p, GameSession.players s !! playerId = Some p →
                  Player.lastSeen p ≤ lastActivity s) ∧
   (lastActivity s = GameSession.createdAt s ∨
    ∃ playerId p, GameSession.players s !! playerId = Some p ∧
                  lastActivity s = Player.lastSeen p)) ∧
  (sessions (cleanupStaleSessions maxAgeMs now st) !! sessionId = None
     ↔ now - lastActivity s > maxAgeMs) ∧
  (sessions (cleanupStaleSessions maxAgeMs now st) !! sessionId = Some s
     ↔ now - lastActivity s ≤ maxAgeMs) ∧
  (now - lastActivity s = maxAgeMs + 1 →
     sessions (cleanupStaleSessions maxAgeMs now st) !! sessionId = None) ∧
  (now - lastActivity s = maxAgeMs →
     sessions (cleanupStaleSessions maxAgeMs now st) !! sessionId = Some s).
Proof.
  intros Hs.
  assert (Hsweep : sessions (cleanupStaleSessions maxAgeMs now st) !! sessionId
                   = if isStale maxAgeMs now s then None else Some s).
  { unfold cleanupStaleSessions. rewrite sweep_sessions.
    rewrite (sweep_lookup _ _ _ _ sessionId s), Hs; [done| |].
    - apply NoDup_fst_map_to_list.
    - by apply elem_of_map_to_list. }
  split.
  { unfold lastActivity.
    destruct (foldr_max_spec (GameSession.createdAt s)
                (Player.lastSeen <$> playersValues s)) as (H1 & H2 & H3).
    split; [done|]. split.
    - intros pid p Hp. apply H2, list_elem_of_fmap. exists p. split; [done|].
      apply elem_of_playersValues. by exists pid.
    - destruct H3 as [H3|H3]; [by left|right].
      apply list_elem_of_fmap in H3 as (p & Hp & Hin).
      apply elem_of_playersValues in Hin as [pid Hpid]. by exists pid, p. }
  rewrite Hsweep. unfold isStale.
  repeat split; try case_bool_decide; try done; try lia.
Qed.

Lemma cleanupStaleSessions_boundary_witness :
  sessions (cleanupStaleSessions 1000 2501 aliceGoneState) !! "AAAAAA" = None ∧
  is_Some (sessions (cleanupStaleSessions 1000 2500 aliceGoneState) !! "AAAAAA").
Proof.
  pose (s := default (GameSession.mk "" "" 0 DEFAULT_SETTINGS [] ∅
                        createInitialRoundState [])
               (sessions aliceGoneState !! "AAAAAA")).
  assert (Hs : sessions aliceGoneState !! "AAAAAA" = Some s)
    by (vm_compute; reflexivity).
  split.
  - apply (cleanupStaleSessions_boundary 1000 2501 aliceGoneState "AAAAAA" s Hs).
    vm_compute. reflexivity.
  - exists s.
    apply (cleanupStaleSessions_boundary 1000 2500 aliceGoneState "AAAAAA" s Hs).
    vm_compute. reflexivity.
Defined.

(** ** Identifiers stay non-empty along well-formed traces *)

Lemma getPlayerBySocketId_player st socketId player sessionId session :
  getPlayerBySocketId st socketId = Some (player, sessionId, session) →
  ∃ playerId, GameSession.players session !! playerId = Some player.
Proof.
  unfold getPlayerBySocketId. intros H.
  repeat (case_match; try discriminate). simplify_eq. by eexists.
Qed.

Lemma dropPlayer_ok playerId q :
  Forall (fun e => BuzzEntry.playerId e ≠ "") q →
  Forall (fun e => BuzzEntry.playerId e ≠ "") (dropPlayer playerId q).
Proof.
  induction 1 as [|e q He Hq IH]; simpl; [constructor|].
  case_bool_decide; simpl; [done|by constructor].
Qed.

Lemma renumberFrom_ok i q :
  Forall (fun e => BuzzEntry.playerId e ≠ "") q →
  Forall (fun e => BuzzEntry.playerId e ≠ "") (renumberFrom i q).
Proof.
  intros H. revert i. induction H as [|e q He Hq IH]; intros i; simpl;
    constructor; [done|apply IH].
Qed.

Lemma headPlayerId_ok q a :
  Forall (fun e => BuzzEntry.playerId e ≠ "") q →
  headPlayerId q = Some a → a ≠ "".
Proof.
  unfold headPlayerId. destruct 1 as [|e q He Hq]; simpl; [done|].
  by intros [= <-].
Qed.

Lemma advanceQueue_ok r : roundOk r → roundOk (advanceQueue r).
Proof.
  intros [Hq Ha]. split; simpl; [done|]. intros a. by apply headPlayerId_ok.
Qed.

Lemma addScore_ok teamId delta ts :
  Forall (fun t => Team.id t ≠ "") ts →
  Forall (fun t => Team.id t ≠ "") (addScore teamId delta ts).
Proof.
  induction 1 as [|t ts Ht Hts IH]; simpl; [constructor|].
  case_bool_decide; by constructor.
Qed.

Lemma findTeam_id teamId ts t : findTeam teamId ts = Some t → Team.id t = teamId.
Proof.
  unfold findTeam. intros H. apply List.find_some in H as [_ H].
  by apply bool_decide_eq_true in H.
Qed.

Lemma findTeam_elem teamId ts t : findTeam teamId ts = Some t → t ∈ ts.
Proof.
  unfold findTeam. intros H. apply List.find_some in H as [H _].
  by apply list_elem_of_In.
Qed.

Lemma forgetPlayers_idsNonEmpty ps st :
  idsNonEmpty st →
  idsNonEmpty (foldl (fun acc player => forgetPlayer player acc) st ps).
Proof. unfold idsNonEmpty. by rewrite forgetPlayers_sessions. Qed.

Lemma endSession_idsNonEmpty sessionId st :
  idsNonEmpty st → idsNonEmpty (endSession sessionId st).
Proof.
  unfold idsNonEmpty. rewrite endSession_sessions. apply map_Forall_delete.
Qed.

Lemma cleanupStaleSessions_idsNonEmpty maxAgeMs now st :
  idsNonEmpty st → idsNonEmpty (cleanupStaleSessions maxAgeMs now st).
Proof.
  unfold cleanupStaleSessions.
  generalize (map_to_list (sessions st)) as l. intros l. revert st.
  induction l as [|e l IH]; intros st Hst; simpl; [done|].
  apply IH. unfold sweepEntry.
  destruct (isStale _ _ _); [by apply endSession_idsNonEmpty|done].
Qed.

Lemma processBuzz_idsNonEmpty socketId now st :
  idsNonEmpty st → idsNonEmpty (processBuzz socketId now st).2.
Proof.
  intros Hst. destruct (processBuzz socketId now st) as [[e|msg] st'] eqn:Hp; simpl.
  - apply processBuzz_accepted in Hp as (player & sid & s & Hres & He & _ & Hsess).
    unfold idsNonEmpty. rewrite Hsess.
    pose proof (getPlayerBySocketId_Some _ _ _ _ _ Hres) as Hs.
    destruct (getPlayerBySocketId_player _ _ _ _ _ Hres) as [pid Hpid].
    destruct (map_Forall_lookup_1 _ _ _ _ Hst Hs) as (Hplayers & Hteams & Hq & Ha).
    destruct (map_Forall_lookup_1 _ _ _ _ Hplayers Hpid) as [Hid _].
    apply map_Forall_insert_2; [|done].
    split; [done|]. split; [done|].
    assert (BuzzEntry.playerId e ≠ "") as Hne by (by subst e).
    unfold pushBuzz. case_bool_decide; split; simpl.
    + apply Forall_app. split; [done|]. by apply Forall_singleton.
    + by intros a [= <-].
    + apply Forall_app. split; [done|]. by apply Forall_singleton.
    + done.
  - apply processBuzz_error in Hp as [Hsess _]. unfold idsNonEmpty. by rewrite Hsess.
Qed.

(** Reading the invariant of one live session, and writing a session back. *)
Ltac open_session Hst Hs :=
  destruct (map_Forall_lookup_1 _ _ _ _ Hst Hs) as (Hplayers & Hteams & Hq & Ha);
  unfold idsNonEmpty; simpl; apply map_Forall_insert_2; [|done].

Lemma createSession_idsNonEmpty hostSocketId settings now rand st :
  idsNonEmpty st → idsNonEmpty (createSession hostSocketId settings now rand st).2.
Proof.
  intros Hst. unfold idsNonEmpty. simpl. apply map_Forall_insert_2; [|done].
  split; [apply map_Forall_empty|]. split; [constructor|].
  split; [constructor|done].
Qed.

Lemma updateSettings_idsNonEmpty sessionId settings st :
  idsNonEmpty st → idsNonEmpty (updateSettings sessionId settings st).
Proof.
  intros Hst. unfold updateSettings.
  destruct (sessions st !! sessionId) as [s|] eqn:Hs; [|done].
  open_session Hst Hs. by split; [|split; [|split]].
Qed.

Lemma addPlayer_idsNonEmpty sessionId socketId displayName uuid now st :
  uuid ≠ "" → idsNonEmpty st →
  idsNonEmpty (addPlayer sessionId socketId displayName uuid now st).2.
Proof.
  intros Huuid Hst. unfold addPlayer.
  destruct (sessions st !! sessionId) as [s|] eqn:Hs; [|done].
  case_bool_decide; [done|]. destruct (List.find _ _); [done|].
  open_session Hst Hs. split; [|by split; [|split]].
  simpl. apply map_Forall_insert_2; [|done]. by split.
Qed.

Lemma rejoinPlayer_idsNonEmpty sessionId playerId newSocketId now st :
  idsNonEmpty st → idsNonEmpty (rejoinPlayer sessionId playerId newSocketId now st).2.
Proof.
  intros Hst. unfold rejoinPlayer.
  destruct (sessions st !! sessionId) as [s|] eqn:Hs; [|done].
  destruct (GameSession.players s !! playerId) as [p|] eqn:Hp; [|done].
  open_session Hst Hs. split; [|by split; [|split]].
  simpl. apply map_Forall_insert_2; [|done].
  exact (map_Forall_lookup_1 _ _ _ _ Hplayers Hp).
Qed.

Lemma disconnectPlayer_idsNonEmpty socketId now st :
  idsNonEmpty st → idsNonEmpty (disconnectPlayer socketId now st).
Proof.
  intros Hst. unfold disconnectPlayer.
  destruct (socketToPlayer st !! socketId) as [pid|]; [|done].
  destruct (negb (truthy pid)); [done|].
  destruct (playerToSession st !! pid) as [sid|]; [|done].
  destruct (negb (truthy sid)); [done|].
  destruct (sessions st !! sid) as [s|] eqn:Hs; [|done].
  destruct (GameSession.players s !! pid) as [p|] eqn:Hp; [|done].
  open_session Hst Hs. split; [|by split; [|split]].
  simpl. apply map_Forall_insert_2; [|done].
  exact (map_Forall_lookup_1 _ _ _ _ Hplayers Hp).
Qed.

Lemma removePlayer_idsNonEmpty sessionId playerId st :
  idsNonEmpty st → idsNonEmpty (removePlayer sessionId playerId st).
Proof.
  intros Hst. unfold removePlayer.
  destruct (sessions st !! sessionId) as [s|] eqn:Hs; [|done].
  open_session Hst Hs.
  split; [by apply map_Forall_delete|]. split; [done|]. simpl.
  assert (roundOk (with_buzzQueue
                     (dropPlayer playerId (RoundState.buzzQueue (GameSession.round s)))
                     (GameSession.round s))) as Hr.
  { split; simpl; [by apply dropPlayer_ok|done]. }
  case_bool_decide; [by apply advanceQueue_ok|done].
Qed.

Lemma addTeam_idsNonEmpty sessionId name uuid st :
  uuid ≠ "" → idsNonEmpty st → idsNonEmpty (addTeam sessionId name uuid st).2.
Proof.
  intros Huuid Hst. unfold addTeam.
  destruct (sessions st !! sessionId) as [s|] eqn:Hs; [|done].
  open_session Hst Hs. split; [done|]. split; [|by split].
  simpl. apply Forall_app. split; [done|]. by apply Forall_singleton.
Qed.

Lemma assignPlayerToTeam_idsNonEmpty sessionId playerId teamId st :
  idsNonEmpty st → idsNonEmpty (assignPlayerToTeam sessionId playerId teamId st).2.
Proof.
  intros Hst. unfold assignPlayerToTeam.
  destruct (sessions st !! sessionId) as [s|] eqn:Hs; [|done].
  destruct (GameSession.players s !! playerId) as [p|] eqn:Hp; [|done].
  destruct (match teamId with Some _ => _ | None => _ end) eqn:Hcheck; [done|].
  open_session Hst Hs. split; [|by split; [|split]].
  simpl. apply map_Forall_insert_2; [|done].
  destruct (map_Forall_lookup_1 _ _ _ _ Hplayers Hp) as [Hid _].
  split; [done|]. simpl. intros t ->.
  apply negb_false_iff, bool_decide_eq_true in Hcheck as [team Hteam].
  rewrite Forall_forall in Hteams.
  rewrite <- (findTeam_id _ _ _ Hteam). by apply Hteams, (findTeam_elem t).
Qed.

Lemma startRound_idsNonEmpty sessionId now st :
  idsNonEmpty st → idsNonEmpty (startRound sessionId now st).
Proof.
  intros Hst. unfold startRound.
  destruct (sessions st !! sessionId) as [s|] eqn:Hs; [|done].
  open_session Hst Hs. split; [done|]. split; [done|]. by split; [constructor|].
Qed.

Lemma resetRound_idsNonEmpty sessionId st :
  idsNonEmpty st → idsNonEmpty (resetRound sessionId st).
Proof.
  intros Hst. unfold resetRound.
  destruct (sessions st !! sessionId) as [s|] eqn:Hs; [|done].
  open_session Hst Hs. split; [done|]. split; [done|]. by split; [constructor|].
Qed.

Lemma markCorrect_idsNonEmpty sessionId now st :
  idsNonEmpty st → idsNonEmpty (markCorrect sessionId now st).2.
Proof.
  intros Hst. unfold markCorrect.
  destruct (sessions st !! sessionId) as [s|] eqn:Hs; [|done].
  destruct (RoundState.activePlayerId (GameSession.round s)) as [a|]; [|done].
  destruct (negb (truthy a)); [done|].
  open_session Hst Hs. split; [done|]. split; [|by split; [constructor|]].
  simpl. destruct (_ ≫= Player.teamId) as [tid|]; [|done].
  destruct (truthy tid); [by apply addScore_ok|done].
Qed.

Lemma markPass_idsNonEmpty sessionId st :
  idsNonEmpty st → idsNonEmpty (markPass sessionId st).2.
Proof.
  intros Hst. unfold markPass.
  destruct (sessions st !! sessionId) as [s|] eqn:Hs; [|done].
  destruct (RoundState.activePlayerId (GameSession.round s)) as [a|]; [|done].
  destruct (negb (truthy a)); [done|].
  open_session Hst Hs. split; [done|]. split; [done|].
  assert (Forall (fun e => BuzzEntry.playerId e ≠ "")
            (renumber (dropPlayer a (RoundState.buzzQueue (GameSession.round s)))))
    as Hq' by (by apply renumberFrom_ok, dropPlayer_ok).
  split; simpl; [done|]. intros b. by apply headPlayerId_ok.
Qed.

Lemma skipPlayer_idsNonEmpty sessionId playerId st :
  idsNonEmpty st → idsNonEmpty (skipPlayer sessionId playerId st).2.
Proof.
  intros Hst. unfold skipPlayer.
  destruct (sessions st !! sessionId) as [s|] eqn:Hs; [|done].
  open_session Hst Hs. split; [done|]. split; [done|]. simpl.
  assert (roundOk (with_buzzQueue
                     (renumber (dropPlayer playerId
                                  (RoundState.buzzQueue (GameSession.round s))))
                     (GameSession.round s))) as Hr.
  { split; simpl; [by apply renumberFrom_ok, dropPlayer_ok|done]. }
  case_bool_decide; [by apply advanceQueue_ok|done].
Qed.

Lemma call_idsNonEmpty c now st :
  wellFormedCall c → idsNonEmpty st → idsNonEmpty (call c now st).2.
Proof.
  destruct c; intros Hc Hst; cbn [call snd wellFormedCall] in *;
    eauto using createSession_idsNonEmpty, updateSettings_idsNonEmpty,
      addPlayer_idsNonEmpty, rejoinPlayer_idsNonEmpty, disconnectPlayer_idsNonEmpty,
      removePlayer_idsNonEmpty, addTeam_idsNonEmpty, assignPlayerToTeam_idsNonEmpty,
      startRound_idsNonEmpty, resetRound_idsNonEmpty, markCorrect_idsNonEmpty,
      markPass_idsNonEmpty, skipPlayer_idsNonEmpty, cleanupStaleSessions_idsNonEmpty.
  match goal with
  | |- context [processBuzz ?sock now st] =>
    pose proof (processBuzz_idsNonEmpty sock now st Hst) as H;
    by destruct (processBuzz sock now st)
  end.
Qed.

(** Every state reached from the empty manager by well-formed calls has
    non-empty player and team identifiers everywhere; in particular a
    non-null [activePlayerId] is never the empty string. *)
Lemma run_idsNonEmpty trace :
  ∀ st,
    Forall (fun tc => wellFormedCall tc.2) trace →
    idsNonEmpty st → idsNonEmpty (run trace st).2.
Proof.
  induction trace as [|[now c] trace IH]; intros st Hwf Hst; [done|].
  apply Forall_cons in Hwf as [Hc Hwf]. simpl.
  pose proof (call_idsNonEmpty c now st Hc Hst) as Hst'.
  destruct (call c now st) as [o st']. simpl in Hst'.
  specialize (IH st' Hwf Hst').
  destruct (run trace st') as [log st'']. done.
Qed.

Lemma reachable_activePlayerId_nonempty trace sessionId s a :
  Forall (fun tc => wellFormedCall tc.2) trace →
  sessions (run trace emptyState).2 !! sessionId = Some s →
  RoundState.activePlayerId (GameSession.round s) = Some a →
  a ≠ "".
Proof.
  intros Hwf Hs Ha.
  assert (idsNonEmpty (run trace emptyState).2) as Hok.
  { apply run_idsNonEmpty; [done|]. unfold idsNonEmpty. apply map_Forall_empty. }
  destruct (map_Forall_lookup_1 _ _ _ _ Hok Hs) as (_ & _ & _ & Hactive).
  by apply Hactive.
Qed.

(** ** C7: marking the active player correct *)

Lemma addScore_first teamId delta l1 t l2 :
  Team.id t = teamId →
  (∀ u, u ∈ l1 → Team.id u ≠ teamId) →
  addScore teamId delta (l1 ++ t :: l2) = l1 ++ bumpScore delta t :: l2.
Proof.
  intros Ht. induction l1 as [|u l1 IH]; intros Hl1; simpl.
  - by rewrite bool_decide_eq_true_2.
  - rewrite bool_decide_eq_false_2 by (apply Hl1; by left).
    rewrite IH; [done|]. intros v Hv. apply Hl1. by right.
Qed.

Lemma addScore_absent teamId delta ts :
  (∀ u, u ∈ ts → Team.id u ≠ teamId) → addScore teamId delta ts = ts.
Proof.
  induction ts as [|u ts IH]; intros Hts; simpl; [done|].
  rewrite bool_decide_eq_false_2 by (apply Hts; by left).
  rewrite IH; [done|]. intros v Hv. apply Hts. by right.
Qed.

Lemma findTeam_None teamId ts :
  findTeam teamId ts = None ↔ ∀ u, u ∈ ts → Team.id u ≠ teamId.
Proof.
  unfold findTeam. induction ts as [|u ts IH]; simpl.
  - split; [|done]. intros _ u Hu. by apply elem_of_nil in Hu.
  - case_bool_decide as Hu.
    + split; [done|]. intros H. exfalso. apply (H u); [by left|done].
    + rewrite IH. split.
      * intros H v [->|Hv]%elem_of_cons; [done|by apply H].
      * intros H v Hv. apply H. by right.
Qed.

(** The public [updateTeamScore] and the award written on the session's
    teams by [markCorrect] are the same update. *)
Lemma updateTeamScore_same_session sessionId teamId delta st s :
  sessions st !! sessionId = Some s →
  sessions (updateTeamScore sessionId teamId delta st).2
    = <[sessionId := with_teams (addScore teamId delta (GameSession.teams s)) s]>
        (sessions st).
Proof.
  intros Hs. unfold updateTeamScore. rewrite Hs.
  destruct (findTeam teamId (GameSession.teams s)) eqn:Hfind; simpl; [done|].
  rewrite addScore_absent by (by apply findTeam_None).
  symmetry. apply insert_id. rewrite Hs. by destruct s.
Qed.

(** C7. For a live session whose activePlayerId is set (player ids are
    UUIDs, hence non-empty: [reachable_activePlayerId_nonempty]),
    [markCorrect] returns a result carrying the
    current question number, the active player as winner and the queue
    length as buzz count, and appends it to the history; the round becomes
    ended with an empty queue, no active player and the same question
    number; the first team carrying the active player's team id gets
    exactly one more point and nothing else in [teams] changes; without a
    team (or without such a team in the session) [teams] is unchanged. *)
Theorem markCorrect_result sessionId now st s winner :
  sessions st !! sessionId = Some s →
  RoundState.activePlayerId (GameSession.round s) = Some winner →
  winner ≠ "" →
  ∃ result s',
    markCorrect sessionId now st
      = (Some result, set_sessions (<[sessionId := s']> (sessions st)) st) ∧
    RoundResult.questionNumber result = RoundState.questionNumber (GameSession.round s) ∧
    RoundResult.winnerId result = Some winner ∧
    RoundResult.buzzCount result = length (RoundState.buzzQueue (GameSession.round s)) ∧
    GameSession.roundHistory s' = GameSession.roundHistory s ++ [result] ∧
    GameSession.round s'
      = RoundState.mk ended (RoundState.questionNumber (GameSession.round s))
          None None None [] ∧
    GameSession.players s' = GameSession.players s ∧
    (teamOfPlayer s winner = None → GameSession.teams s' = GameSession.teams s) ∧
    (∀ teamId,
       teamOfPlayer s winner = Some teamId → teamId ≠ "" →
       (∀ l1 t l2,
          GameSession.teams s = l1 ++ t :: l2 →
          Team.id t = teamId →
          (∀ u, u ∈ l1 → Team.id u ≠ teamId) →
          GameSession.teams s' = l1 ++ bumpScore 1 t :: l2) ∧
       ((∀ u, u ∈ GameSession.teams s → Team.id u ≠ teamId) →
        GameSession.teams s' = GameSession.teams s)).
Proof.
  intros Hs Hactive Hne. unfold markCorrect. rewrite Hs, Hactive.
  unfold truthy. rewrite bool_decide_eq_false_2 by done. cbn [negb].
  eexists _, _. split; [reflexivity|]. cbn.
  split; [done|]. split; [done|]. split; [done|]. split; [done|].
  split; [done|]. split; [done|]. unfold teamOfPlayer. split.
  - by intros ->.
  - intros tid -> Htid. rewrite bool_decide_eq_false_2 by done. cbn [negb].
    split.
    + intros l1 t l2 -> Ht Hl1. by apply addScore_first.
    + apply addScore_absent.
Qed.

Lemma markCorrect_result_witness :
  ∃ result s',
    markCorrect "AAAAAA" 1500 teamGameState
      = (Some result,
         set_sessions (<["AAAAAA" := s']> (sessions teamGameState)) teamGameState) ∧
    RoundResult.questionNumber result = 1%nat ∧
    RoundResult.winnerId result = Some "player-a" ∧
    RoundResult.buzzCount result = 2%nat ∧
    GameSession.round s' = RoundState.mk ended 1 None None None [] ∧
    GameSession.teams s' = [Team.mk "team-r" "Reds" "#FF2D55" 1].
Proof.
  pose (s := default (GameSession.mk "" "" 0 DEFAULT_SETTINGS [] ∅
                        createInitialRoundState [])
               (sessions teamGameState !! "AAAAAA")).
  assert (Hs : sessions teamGameState !! "AAAAAA" = Some s)
    by (vm_compute; reflexivity).
  assert (Hactive : RoundState.activePlayerId (GameSession.round s) = Some "player-a")
    by (vm_compute; reflexivity).
  assert (Hne : "player-a" ≠ "") by discriminate.
  destruct (markCorrect_result "AAAAAA" 1500 teamGameState s "player-a" Hs Hactive Hne)
    as (result & s' & Hrun & Hq & Hw & Hb & _ & Hr & _ & _ & Hteam).
  exists result, s'. split; [exact Hrun|].
  rewrite Hq, Hw, Hb, Hr.
  split; [vm_compute; reflexivity|]. split; [reflexivity|].
  split; [vm_compute; reflexivity|]. split; [vm_compute; reflexivity|].
  assert (Hteam' : teamOfPlayer s "player-a" = Some "team-r")
    by (vm_compute; reflexivity).
  assert (Hr' : "team-r" ≠ "") by discriminate.
  destruct (Hteam "team-r" Hteam' Hr') as [Haward _].
  apply (Haward [] (Team.mk "team-r" "Reds" "#FF2D55" 0) []).
  - vm_compute. reflexivity.
  - reflexivity.
  - intros u Hu. exfalso. exact (proj1 (elem_of_nil u) Hu).
Defined.

(** ** C6: session codes *)

Lemma length_append (a b : string) :
  String.length (String.append a b) = (String.length a + String.length b)%nat.
Proof. induction a as [|c a IH]; simpl; [done|]. by rewrite IH. Qed.

Lemma list_ascii_of_string_append (a b : string) :
  String.list_ascii_of_string (String.append a b)
  = String.list_ascii_of_string a ++ String.list_ascii_of_string b.
Proof. induction a as [|c a IH]; simpl; [done|]. by rewrite IH. Qed.

Lemma okChar_codeChar c : okChar c = true → codeChar c.
Proof.
  unfold okChar, codeChar. rewrite andb_true_iff, negb_true_iff.
  rewrite bool_decide_eq_true, bool_decide_eq_false. done.
Qed.

Lemma okIndex_all i : 0 ≤ i < 32 → okIndex i = true.
Proof.
  intros Hi.
  assert (Hall : Forall (fun i => okIndex i = true) (seqZ 0 32)).
  { apply (bool_decide_unpack (Forall (fun i => okIndex i = true) (seqZ 0 32))).
    vm_compute. exact I. }
  rewrite Forall_forall in Hall. apply Hall, elem_of_seqZ. lia.
Qed.

Lemma charAt_chars i :
  0 ≤ i < 32 → ∃ c, charAt chars i = String c EmptyString ∧ codeChar c.
Proof.
  intros Hi. pose proof (okIndex_all i Hi) as Hok. unfold okIndex in Hok.
  destruct (charAt chars i) as [|c [|c' rest]]; try discriminate.
  exists c. split; [done|]. by apply okChar_codeChar.
Qed.

Lemma randomIndex_bounds (r : Q) :
  (0 <= r)%Q → (r < 1)%Q → 0 ≤ randomIndex r < 32.
Proof.
  intros H0 H1. unfold randomIndex.
  change (inject_Z (Z.of_nat (String.length chars))) with (inject_Z 32).
  split.
  - change 0 with (Qfloor (inject_Z 0)). apply Qfloor_resp_le.
    apply Qmult_le_0_compat; [done|]. unfold Qle. simpl. lia.
  - rewrite Zlt_Qlt. eapply Qle_lt_trans; [apply Qfloor_le|].
    change (inject_Z 32) with (1 * inject_Z 32)%Q at 2.
    apply Qmult_lt_compat_r; [|done]. unfold Qlt. simpl. lia.
Qed.

Lemma generateLoop_spec n :
  ∀ i rand result,
    (∀ j, (i ≤ j < i + n)%nat → (0 <= rand j)%Q ∧ (rand j < 1)%Q) →
    String.length (generateLoop n i rand result) = (String.length result + n)%nat ∧
    (Forall codeChar (String.list_ascii_of_string result) →
     Forall codeChar (String.list_ascii_of_string (generateLoop n i rand result))).
Proof.
  induction n as [|n IH]; intros i rand result Hrand; simpl.
  { split; [lia|done]. }
  destruct (Hrand i) as [H0 H1]; [lia|].
  destruct (charAt_chars (randomIndex (rand i))) as (c & Hc & Hok);
    [by apply randomIndex_bounds|].
  rewrite Hc.
  destruct (IH (S i) rand (String.append result (String c EmptyString))) as [Hlen Hall].
  { intros j Hj. apply Hrand. lia. }
  split.
  - rewrite Hlen, length_append. simpl. lia.
  - intros Hres. apply Hall. rewrite list_ascii_of_string_append.
    apply Forall_app. split; [done|]. simpl. by apply Forall_singleton.
Qed.

(** C6, amended. For draws in [0, 1), the code of a created session is the
    one computed from the six draws alone: six characters, each from the
    32-character alphabet that has no O, 0, I or 1.  The session is stored
    under that code without looking at the registry: a live session that
    already has the code is replaced by the new one. *)
Theorem createSession_code hostSocketId settings now rand st :
  unitDraws rand →
  let s := (createSession hostSocketId settings now rand st).1 in
  let st' := (createSession hostSocketId settings now rand st).2 in
  GameSession.id s = generateSessionId rand ∧
  String.length (GameSession.id s) = 6%nat ∧
  Forall codeChar (String.list_ascii_of_string (GameSession.id s)) ∧
  sessions st' = <[GameSession.id s := s]> (sessions st) ∧
  (∀ old, sessions st !! GameSession.id s = Some old →
          sessions st' !! GameSession.id s = Some s).
Proof.
  intros Hrand. cbv zeta. cbn [createSession fst snd GameSession.id sessions set_sessions].
  destruct (generateLoop_spec 6 0 rand "") as [Hlen Hall].
  { intros j Hj. apply Hrand. lia. }
  split; [done|]. split; [exact Hlen|]. split; [apply Hall; constructor|].
  split; [done|]. intros old _. apply lookup_insert_eq.
Qed.

Lemma createSession_code_witness :
  GameSession.id (createSession "host" PartialSettings.none 10 zeroDraws emptyState).1
    = "AAAAAA" ∧
  String.length
    (GameSession.id (createSession "host" PartialSettings.none 10 zeroDraws emptyState).1)
    = 6%nat.
Proof.
  assert (Hdraws : unitDraws zeroDraws).
  { intros i _. split; [unfold Qle | unfold Qlt]; simpl; lia. }
  destruct (createSession_code "host" PartialSettings.none 10 zeroDraws emptyState Hdraws)
    as (Hid & Hlen & _).
  split; [rewrite Hid; vm_compute; reflexivity | exact Hlen].
Defined.

(** C6 as stated fails on uniqueness: a session with code [AAAAAA] is
    live; a second [createSession] whose draws give the same code returns
    that code again, and the registry then holds a single session under it,
    the new one. *)
Lemma createSession_code_counterexample :
  GameSession.hostSocketId <$> (sessions oneSessionState !! "AAAAAA") = Some "host" ∧
  GameSession.id
    (createSession "host-2" PartialSettings.none 20 zeroDraws oneSessionState).1
    = "AAAAAA" ∧
  GameSession.hostSocketId
    <$> (sessions (createSession "host-2" PartialSettings.none 20 zeroDraws
                     oneSessionState).2 !! "AAAAAA") = Some "host-2" ∧
  size (sessions (createSession "host-2" PartialSettings.none 20 zeroDraws
                    oneSessionState).2) = 1%nat ∧
  ¬ codeFreshAmongLive "host-2" PartialSettings.none 20 zeroDraws oneSessionState.
Proof.
  split; [vm_compute; reflexivity|]. split; [vm_compute; reflexivity|].
  split; [vm_compute; reflexivity|]. split; [vm_compute; reflexivity|].
  unfold codeFreshAmongLive. intros Hfresh.
  assert (Hlive : is_Some
            (sessions oneSessionState
               !! GameSession.id (createSession "host-2" PartialSettings.none 20
                                    zeroDraws oneSessionState).1)).
  { vm_compute. eexists. reflexivity. }
  rewrite Hfresh in Hlive. destruct Hlive as [? Hlive]. discriminate Hlive.
Qed.

(** * Further properties *)

(** ** Consistency is kept by every call *)

Lemma dropPlayer_cons playerId b q :
  dropPlayer playerId (b :: q) =
  if bool_decide (BuzzEntry.playerId b = playerId)
  then dropPlayer playerId q else b :: dropPlayer playerId q.
Proof. unfold dropPlayer. simpl. by case_bool_decide. Qed.

Lemma dropPlayer_playerIds_subset playerId q x :
  x ∈ BuzzEntry.playerId <$> dropPlayer playerId q →
  x ∈ BuzzEntry.playerId <$> q.
Proof.
  induction q as [|b q IH]; [done|]. rewrite dropPlayer_cons.
  case_bool_decide; rewrite ?fmap_cons, ?elem_of_cons; intuition.
Qed.

Lemma dropPlayer_distinct playerId q :
  NoDup (BuzzEntry.playerId <$> q) →
  NoDup (BuzzEntry.playerId <$> dropPlayer playerId q).
Proof.
  induction q as [|b q IH]; [done|]. rewrite dropPlayer_cons.
  rewrite fmap_cons, NoDup_cons. intros [Hb Hq].
  case_bool_decide; [by apply IH|].
  rewrite fmap_cons, NoDup_cons. split; [|by apply IH].
  intros Hin. by apply Hb, (dropPlayer_playerIds_subset playerId).
Qed.

Lemma renumber_distinct q :
  NoDup (BuzzEntry.playerId <$> q) → NoDup (BuzzEntry.playerId <$> renumber q).
Proof. unfold renumber. by rewrite renumberFrom_playerIds. Qed.

Lemma headPlayerId_dropPlayer playerId q a :
  headPlayerId q = Some a → a ≠ playerId →
  headPlayerId (dropPlayer playerId q) = Some a.
Proof.
  destruct q as [|b q]; [done|]. rewrite dropPlayer_cons. intros [= <-] Hne.
  by rewrite bool_decide_eq_false_2.
Qed.

Lemma headPlayerId_renumber q : headPlayerId (renumber q) = headPlayerId q.
Proof. by destruct q. Qed.

Lemma headPlayerId_truthy q :
  Forall (fun e => BuzzEntry.playerId e ≠ "") q →
  truthy_opt (headPlayerId q) = false → q = [].
Proof.
  destruct 1 as [|e q He _]; [done|]. simpl. unfold truthy.
  by rewrite bool_decide_eq_false_2.
Qed.

(** Dropping a player from the queue of a consistent round, then advancing
    when that player was active ([removePlayer] and [skipPlayer], the
    latter after renumbering). *)
Lemma dropAndAdvance_consistent playerId (r : RoundState.t) q' :
  roundOk r → queueDistinct r → roundShape r →
  (q' = dropPlayer playerId (RoundState.buzzQueue r) ∨
   q' = renumber (dropPlayer playerId (RoundState.buzzQueue r))) →
  let r1 := with_buzzQueue q' r in
  let r2 := if bool_decide (RoundState.activePlayerId r1 = Some playerId)
            then advanceQueue r1 else r1 in
  queueDistinct r2 ∧ roundShape r2.
Proof.
  intros [Hids _] Hdistinct (Hev & Hshape & Hhead) Hq'. cbv zeta.
  assert (Hdrop_ids : Forall (fun e => BuzzEntry.playerId e ≠ "") q').
  { destruct Hq' as [->| ->]; [|apply renumberFrom_ok]; by apply dropPlayer_ok. }
  assert (Hdrop_distinct : NoDup (BuzzEntry.playerId <$> q')).
  { destruct Hq' as [->| ->]; [|apply renumber_distinct]; by apply dropPlayer_distinct. }
  assert (Hdrop_head : ∀ a, headPlayerId (RoundState.buzzQueue r) = Some a →
                            a ≠ playerId → headPlayerId q' = Some a).
  { intros a Ha Hne. destruct Hq' as [->| ->]; [|rewrite headPlayerId_renumber];
      by apply headPlayerId_dropPlayer. }
  assert (Hdrop_nil : RoundState.buzzQueue r = [] → q' = []).
  { intros Hnil. rewrite Hnil in Hq'. by destruct Hq' as [->| ->]. }
  case_bool_decide as Hactive; simpl in Hactive.
  - split; [done|]. unfold roundShape, advanceQueue. simpl.
    destruct Hshape as [Hlocked|[_ Hnone]]; [|congruence].
    destruct (truthy_opt (headPlayerId q')) eqn:Htruthy; simpl.
    + split; [done|]. split; [by left|done].
    + rewrite (headPlayerId_truthy q') by done.
      split; [done|]. split; [by right|done].
  - split; [done|]. unfold roundShape. simpl.
    split; [done|]. split.
    + destruct Hshape as [?|[Hnil ?]]; [by left|right]. split; [by apply Hdrop_nil|done].
    + intros a Ha. apply Hdrop_head; [by apply Hhead|congruence].
Qed.

Ltac open_consistent Hc Hs :=
  let Hids := fresh "Hids" in
  let Hcons := fresh "Hcons" in
  destruct Hc as [Hids Hcons];
  destruct (map_Forall_lookup_1 _ _ _ _ Hids Hs) as (Hplayers & Hteams & Hround);
  destruct (map_Forall_lookup_1 _ _ _ _ Hcons Hs) as (Hdistinct & Hshape & Hrefs);
  simpl; apply map_Forall_insert_2; [|done].

Lemma emptyState_consistent : consistent emptyState.
Proof. split; apply map_Forall_empty. Qed.

Lemma createSession_consistent hostSocketId settings now rand st :
  consistent st →
  map_Forall (fun _ s => sessionConsistent s)
    (sessions (createSession hostSocketId settings now rand st).2).
Proof.
  intros [_ Hcons]. simpl. apply map_Forall_insert_2; [|done].
  split; [constructor|]. split.
  - split; [done|]. split; [by right|done].
  - intros pid p t Hp. simpl in Hp. by rewrite lookup_empty in Hp.
Qed.

Lemma updateSettings_consistent sessionId settings st :
  consistent st →
  map_Forall (fun _ s => sessionConsistent s)
    (sessions (updateSettings sessionId settings st)).
Proof.
  intros Hc. unfold updateSettings.
  destruct (sessions st !! sessionId) as [s|] eqn:Hs; [|by destruct Hc].
  open_consistent Hc Hs. by split; [|split].
Qed.

Lemma addPlayer_consistent sessionId socketId displayName uuid now st :
  consistent st →
  map_Forall (fun _ s => sessionConsistent s)
    (sessions (addPlayer sessionId socketId displayName uuid now st).2).
Proof.
  intros Hc. unfold addPlayer.
  destruct (sessions st !! sessionId) as [s|] eqn:Hs; [|by destruct Hc].
  case_bool_decide; [by destruct Hc|]. destruct (List.find _ _); [by destruct Hc|].
  open_consistent Hc Hs. split; [done|]. split; [done|].
  intros pid p t Hp; simpl in Hp; apply lookup_insert_Some in Hp as [[<- <-]|[_ Hp]]; [done|]. by apply (Hrefs pid p).
Qed.

Lemma rejoinPlayer_consistent sessionId playerId newSocketId now st :
  consistent st →
  map_Forall (fun _ s => sessionConsistent s)
    (sessions (rejoinPlayer sessionId playerId newSocketId now st).2).
Proof.
  intros Hc. unfold rejoinPlayer.
  destruct (sessions st !! sessionId) as [s|] eqn:Hs; [|by destruct Hc].
  destruct (GameSession.players s !! playerId) as [p0|] eqn:Hp0; [|by destruct Hc].
  open_consistent Hc Hs. split; [done|]. split; [done|].
  intros pid p t Hp; simpl in Hp; apply lookup_insert_Some in Hp as [[<- <-]|[_ Hp]]; [|by apply (Hrefs pid p)].
  by apply (Hrefs playerId p0).
Qed.

Lemma disconnectPlayer_consistent socketId now st :
  consistent st →
  map_Forall (fun _ s => sessionConsistent s)
    (sessions (disconnectPlayer socketId now st)).
Proof.
  intros Hc. unfold disconnectPlayer.
  destruct (socketToPlayer st !! socketId) as [pid0|]; [|by destruct Hc].
  destruct (negb (truthy pid0)); [by destruct Hc|].
  destruct (playerToSession st !! pid0) as [sid|]; [|by destruct Hc].
  destruct (negb (truthy sid)); [by destruct Hc|].
  destruct (sessions st !! sid) as [s|] eqn:Hs; [|by destruct Hc].
  destruct (GameSession.players s !! pid0) as [p0|] eqn:Hp0; [|by destruct Hc].
  open_consistent Hc Hs. split; [done|]. split; [done|].
  intros pid p t Hp; simpl in Hp; apply lookup_insert_Some in Hp as [[<- <-]|[_ Hp]]; [|by apply (Hrefs pid p)].
  by apply (Hrefs pid0 p0).
Qed.

Lemma removePlayer_consistent sessionId playerId st :
  consistent st →
  map_Forall (fun _ s => sessionConsistent s)
    (sessions (removePlayer sessionId playerId st)).
Proof.
  intros Hc. unfold removePlayer.
  destruct (sessions st !! sessionId) as [s|] eqn:Hs; [|by destruct Hc].
  open_consistent Hc Hs.
  destruct (dropAndAdvance_consistent playerId (GameSession.round s)
              (dropPlayer playerId (RoundState.buzzQueue (GameSession.round s))))
    as [Hd Hsh]; [done|done|done|by left|].
  split; [exact Hd|]. split; [exact Hsh|].
  intros pid p t Hp; simpl in Hp; apply lookup_delete_Some in Hp as [_ Hp]. by apply (Hrefs pid p).
Qed.

Lemma skipPlayer_consistent sessionId playerId st :
  consistent st →
  map_Forall (fun _ s => sessionConsistent s)
    (sessions (skipPlayer sessionId playerId st).2).
Proof.
  intros Hc. unfold skipPlayer.
  destruct (sessions st !! sessionId) as [s|] eqn:Hs; [|by destruct Hc].
  open_consistent Hc Hs.
  destruct (dropAndAdvance_consistent playerId (GameSession.round s)
              (renumber (dropPlayer playerId (RoundState.buzzQueue (GameSession.round s)))))
    as [Hd Hsh]; [done|done|done|by right|].
  split; [exact Hd|]. split; [exact Hsh|done].
Qed.

Lemma addTeam_consistent sessionId name uuid st :
  consistent st →
  map_Forall (fun _ s => sessionConsistent s)
    (sessions (addTeam sessionId name uuid st).2).
Proof.
  intros Hc. unfold addTeam.
  destruct (sessions st !! sessionId) as [s|] eqn:Hs; [|by destruct Hc].
  open_consistent Hc Hs. split; [done|]. split; [done|].
  intros pid p t Hp Ht. destruct (Hrefs pid p t Hp Ht) as (team & Hin & Hid).
  exists team. split; [|done]. simpl. apply elem_of_app. by left.
Qed.

Lemma assignPlayerToTeam_consistent sessionId playerId teamId st :
  consistent st →
  map_Forall (fun _ s => sessionConsistent s)
    (sessions (assignPlayerToTeam sessionId playerId teamId st).2).
Proof.
  intros Hc. unfold assignPlayerToTeam.
  destruct (sessions st !! sessionId) as [s|] eqn:Hs; [|by destruct Hc].
  destruct (GameSession.players s !! playerId) as [p0|] eqn:Hp0; [|by destruct Hc].
  destruct (match teamId with Some _ => _ | None => _ end) eqn:Hcheck; [by destruct Hc|].
  open_consistent Hc Hs. split; [done|]. split; [done|].
  intros pid p t Hp; simpl in Hp; apply lookup_insert_Some in Hp as [[<- <-]|[_ Hp]]; [|by apply (Hrefs pid p)].
  simpl. intros ->.
  apply negb_false_iff, bool_decide_eq_true in Hcheck as [team Hteam].
  exists team. split; [by apply (findTeam_elem t)|by apply (findTeam_id _ _ _ Hteam)].
Qed.

Lemma startRound_consistent sessionId now st :
  consistent st →
  map_Forall (fun _ s => sessionConsistent s) (sessions (startRound sessionId now st)).
Proof.
  intros Hc. unfold startRound.
  destruct (sessions st !! sessionId) as [s|] eqn:Hs; [|by destruct Hc].
  open_consistent Hc Hs. split; [constructor|]. split; [|done].
  split; [done|]. split; [by right|done].
Qed.

Lemma resetRound_consistent sessionId st :
  consistent st →
  map_Forall (fun _ s => sessionConsistent s) (sessions (resetRound sessionId st)).
Proof.
  intros Hc. unfold resetRound.
  destruct (sessions st !! sessionId) as [s|] eqn:Hs; [|by destruct Hc].
  open_consistent Hc Hs. split; [constructor|]. split; [|done].
  split; [done|]. split; [by right|done].
Qed.

Lemma alreadyBuzzed_spec playerId q :
  alreadyBuzzed playerId q = true ↔ playerId ∈ BuzzEntry.playerId <$> q.
Proof.
  unfold alreadyBuzzed. induction q as [|b q IH].
  - split; [done|]. by intros ?%elem_of_nil.
  - cbn [existsb]. rewrite fmap_cons, orb_true_iff, IH, bool_decide_eq_true, elem_of_cons.
    intuition.
Qed.

(** Everything an accepted buzz went through. *)
Lemma processBuzz_accepted_checks socketId now st e st' :
  processBuzz socketId now st = (BuzzAccepted e, st') →
  ∃ player sessionId s,
    reachesRateCheck st socketId player sessionId s ∧
    tooFast (playerBuzzTimestamps st !! Player.id player) now
      (SessionSettings.buzzCooldownMs (GameSession.settings s)) = false ∧
    teamBlocked (GameSession.settings s) player (GameSession.round s) = false ∧
    lateBlocked (GameSession.settings s) (GameSession.round s) = false ∧
    e = mkBuzzEntry player s now ∧
    st' = mkState
            (<[sessionId := GameSession.with_round
                              (pushBuzz e now (GameSession.round s)) s]> (sessions st))
            (playerToSession st) (socketToPlayer st)
            (<[Player.id player := now]> (playerBuzzTimestamps st)).
Proof.
  intros H.
  destruct (getPlayerBySocketId st socketId) as [[[player sid] s]|] eqn:Hres.
  2:{ rewrite processBuzz_unresolved in H by done. discriminate. }
  rewrite (processBuzz_resolved _ _ _ _ _ _ Hres) in H. cbv zeta in H.
  exists player, sid, s.
  destruct (bool_decide _ && bool_decide _) eqn:Hact; [discriminate|].
  destruct (alreadyBuzzed _ _) eqn:Hdup; [discriminate|].
  destruct (tooFast _ _ _) eqn:Hfast; [discriminate|].
  destruct (teamBlocked _ _ _) eqn:Hteam; [discriminate|].
  destruct (lateBlocked _ _) eqn:Hlate; [discriminate|].
  injection H as <- <-.
  split; [split; [done|split; [by apply roundActive_spec|done]]|]. done.
Qed.

Lemma pushBuzz_consistent player s now :
  roundOk (GameSession.round s) →
  queueDistinct (GameSession.round s) → roundShape (GameSession.round s) →
  (RoundState.status (GameSession.round s) = open ∨
   RoundState.status (GameSession.round s) = locked) →
  alreadyBuzzed (Player.id player) (RoundState.buzzQueue (GameSession.round s)) = false →
  let r' := pushBuzz (mkBuzzEntry player s now) now (GameSession.round s) in
  queueDistinct r' ∧ roundShape r'.
Proof.
  intros _ Hdistinct (Hev & Hshape & Hhead) Hactive Hdup. cbv zeta.
  assert (Hnew : Player.id player
                 ∉ BuzzEntry.playerId <$> RoundState.buzzQueue (GameSession.round s)).
  { rewrite <- alreadyBuzzed_spec. by rewrite Hdup. }
  unfold pushBuzz. case_bool_decide as Hopen.
  - destruct Hshape as [Hlocked|[Hnil Hnone]]; [congruence|].
    split.
    + unfold queueDistinct. simpl. rewrite Hnil. simpl. apply NoDup_singleton.
    + unfold roundShape. simpl. split; [done|]. split; [by left|].
      rewrite Hnil. by intros a [= <-].
  - split.
    + unfold queueDistinct in *. simpl. rewrite fmap_app. apply NoDup_app.
      split; [done|]. split; [|apply NoDup_singleton].
      intros x Hx [->|[]%elem_of_nil]%elem_of_cons. done.
    + unfold roundShape. simpl. split; [done|]. split.
      * left. by destruct Hactive.
      * intros a Ha. specialize (Hhead a Ha).
        destruct (RoundState.buzzQueue (GameSession.round s)); [done|]. done.
Qed.

Lemma processBuzz_consistent socketId now st :
  consistent st →
  map_Forall (fun _ s => sessionConsistent s) (sessions (processBuzz socketId now st).2).
Proof.
  intros Hc. destruct (processBuzz socketId now st) as [[e|msg] st'] eqn:Hp; simpl.
  - apply processBuzz_accepted_checks in Hp
      as (player & sid & s & (Hres & Hact & Hdup) & _ & _ & _ & -> & ->).
    pose proof (getPlayerBySocketId_Some _ _ _ _ _ Hres) as Hs.
    open_consistent Hc Hs.
    destruct (pushBuzz_consistent player s now) as [Hd Hsh]; try done.
  - apply processBuzz_error in Hp as [-> _]. by destruct Hc.
Qed.

Lemma elem_of_team_ids (t : string) (ts : list Team.t) :
  (∃ team, team ∈ ts ∧ Team.id team = t) ↔ t ∈ Team.id <$> ts.
Proof.
  rewrite list_elem_of_fmap. split.
  - intros (team & Hin & <-). by exists team.
  - intros (team & -> & Hin). by exists team.
Qed.

Lemma addScore_ids teamId delta ts :
  Team.id <$> addScore teamId delta ts = Team.id <$> ts.
Proof.
  induction ts as [|t ts IH]; [done|]. cbn [addScore].
  case_bool_decide; rewrite !fmap_cons; [done|]. by rewrite IH.
Qed.

Lemma addScore_teamRefs teamId delta s ts' :
  teamRefsOk s → ts' = addScore teamId delta (GameSession.teams s) →
  ∀ playerId p t,
    GameSession.players s !! playerId = Some p → Player.teamId p = Some t →
    ∃ team, team ∈ ts' ∧ Team.id team = t.
Proof.
  intros Hrefs -> pid p t Hp Ht. apply elem_of_team_ids.
  rewrite addScore_ids. apply elem_of_team_ids. by apply (Hrefs pid p).
Qed.

Lemma markCorrect_consistent sessionId now st :
  consistent st →
  map_Forall (fun _ s => sessionConsistent s) (sessions (markCorrect sessionId now st).2).
Proof.
  intros Hc. unfold markCorrect.
  destruct (sessions st !! sessionId) as [s|] eqn:Hs; [|by destruct Hc].
  destruct (RoundState.activePlayerId (GameSession.round s)) as [a|]; [|by destruct Hc].
  destruct (negb (truthy a)); [by destruct Hc|].
  open_consistent Hc Hs. split; [constructor|]. split.
  { split; [done|]. split; [by right|done]. }
  intros pid p t Hp Ht. simpl in Hp |- *.
  destruct (_ ≫= Player.teamId) as [tid|]; [|by apply (Hrefs pid p)].
  destruct (truthy tid); [|by apply (Hrefs pid p)].
  by apply (addScore_teamRefs tid 1 s _ Hrefs eq_refl pid p).
Qed.

Lemma markPass_consistent sessionId st :
  consistent st →
  map_Forall (fun _ s => sessionConsistent s) (sessions (markPass sessionId st).2).
Proof.
  intros Hc. unfold markPass.
  destruct (sessions st !! sessionId) as [s|] eqn:Hs; [|by destruct Hc].
  destruct (RoundState.activePlayerId (GameSession.round s)) as [a|] eqn:Ha;
    [|by destruct Hc].
  destruct (negb (truthy a)); [by destruct Hc|].
  open_consistent Hc Hs. destruct Hshape as (Hev & Hshape & Hhead).
  split; [|split; [|done]].
  - unfold queueDistinct. simpl. by apply renumber_distinct, dropPlayer_distinct.
  - unfold roundShape. simpl. split; [done|]. split; [|done].
    left. destruct Hshape as [?|[_ ?]]; [done|congruence].
Qed.

Lemma updateTeamScore_consistent sessionId teamId delta st :
  consistent st →
  map_Forall (fun _ s => sessionConsistent s)
    (sessions (updateTeamScore sessionId teamId delta st).2).
Proof.
  intros Hc. unfold updateTeamScore.
  destruct (sessions st !! sessionId) as [s|] eqn:Hs; [|by destruct Hc].
  destruct (findTeam teamId (GameSession.teams s)) as [found|]; [|by destruct Hc].
  open_consistent Hc Hs. split; [done|]. split; [done|].
  intros pid p t Hp Ht. simpl in Hp |- *.
  by apply (addScore_teamRefs teamId delta s _ Hrefs eq_refl pid p).
Qed.

Lemma updateTeamScore_idsNonEmpty sessionId teamId delta st :
  idsNonEmpty st → idsNonEmpty (updateTeamScore sessionId teamId delta st).2.
Proof.
  intros Hst. unfold updateTeamScore.
  destruct (sessions st !! sessionId) as [s|] eqn:Hs; [|done].
  destruct (findTeam teamId (GameSession.teams s)); [|done].
  open_session Hst Hs. split; [done|]. split; [|by split].
  by apply addScore_ok.
Qed.

Lemma removeFirstTeam_ok teamId ts :
  Forall (fun t => Team.id t ≠ "") ts →
  Forall (fun t => Team.id t ≠ "") (removeFirstTeam teamId ts).
Proof.
  induction 1 as [|t ts Ht Hts IH]; simpl; [constructor|].
  case_bool_decide; [done|by constructor].
Qed.

Lemma removeFirstTeam_keeps teamId ts t :
  t ≠ teamId → t ∈ Team.id <$> ts → t ∈ Team.id <$> removeFirstTeam teamId ts.
Proof.
  intros Hne. induction ts as [|u ts IH]; [done|]. cbn [removeFirstTeam].
  rewrite fmap_cons, elem_of_cons. intros [->|Hin].
  - rewrite bool_decide_eq_false_2 by done. rewrite fmap_cons. by left.
  - case_bool_decide; [done|]. rewrite fmap_cons. right. by apply IH.
Qed.

Lemma unassign_teamId teamId p t :
  Player.teamId (unassign teamId p) = Some t → Player.teamId p = Some t ∧ t ≠ teamId.
Proof.
  unfold unassign. case_bool_decide as Hp; simpl; [done|].
  intros Ht. split; [done|]. congruence.
Qed.

Lemma unassign_id teamId p : Player.id (unassign teamId p) = Player.id p.
Proof. unfold unassign. by case_bool_decide. Qed.

Lemma removeTeam_idsNonEmpty sessionId teamId st :
  idsNonEmpty st → idsNonEmpty (removeTeam sessionId teamId st).2.
Proof.
  intros Hst. unfold removeTeam.
  destruct (sessions st !! sessionId) as [s|] eqn:Hs; [|done].
  destruct (findTeam teamId (GameSession.teams s)) as [found|]; [|done].
  open_session Hst Hs. split; [|split; [by apply removeFirstTeam_ok|by split]].
  simpl. intros pid p' Hp'. rewrite lookup_fmap in Hp'.
  destruct (GameSession.players s !! pid) as [p|] eqn:Hp; [|done].
  injection Hp' as <-. destruct (map_Forall_lookup_1 _ _ _ _ Hplayers Hp) as [Hid Hteam].
  split; [by rewrite unassign_id|].
  intros t Ht. apply unassign_teamId in Ht as [Ht _]. by apply Hteam.
Qed.

Lemma removeTeam_consistent sessionId teamId st :
  consistent st →
  map_Forall (fun _ s => sessionConsistent s) (sessions (removeTeam sessionId teamId st).2).
Proof.
  intros Hc. unfold removeTeam.
  destruct (sessions st !! sessionId) as [s|] eqn:Hs; [|by destruct Hc].
  destruct (findTeam teamId (GameSession.teams s)) as [found|]; [|by destruct Hc].
  open_consistent Hc Hs. split; [done|]. split; [done|].
  intros pid p' t Hp' Ht. simpl in Hp' |- *. rewrite lookup_fmap in Hp'.
  destruct (GameSession.players s !! pid) as [p|] eqn:Hp; [|done].
  injection Hp' as <-. apply unassign_teamId in Ht as [Ht Hne].
  apply elem_of_team_ids, removeFirstTeam_keeps; [done|].
  apply elem_of_team_ids. by apply (Hrefs pid p).
Qed.

Lemma endSession_consistent sessionId st :
  consistent st →
  map_Forall (fun _ s => sessionConsistent s) (sessions (endSession sessionId st)).
Proof.
  intros [_ Hcons]. rewrite endSession_sessions. by apply map_Forall_delete.
Qed.

Lemma cleanupStaleSessions_consistent maxAgeMs now st :
  consistent st →
  map_Forall (fun _ s => sessionConsistent s)
    (sessions (cleanupStaleSessions maxAgeMs now st)).
Proof.
  intros [_ Hcons]. unfold cleanupStaleSessions. rewrite sweep_sessions.
  generalize (map_to_list (sessions st)) as l. revert Hcons.
  generalize (sessions st) as m. intros m Hm l. revert m Hm.
  induction l as [|e l IH]; intros m Hm; simpl; [done|].
  apply IH. destruct (isStale _ _ _); [by apply map_Forall_delete|done].
Qed.

Lemma applyCall_consistent m now st :
  wellFormedManagerCall m → consistent st → consistent (applyCall m now st).
Proof.
  intros Hwf Hc. split.
  - destruct Hc as [Hids _].
    destruct m as [c| | |]; cbn [applyCall];
      eauto using call_idsNonEmpty, removeTeam_idsNonEmpty,
        updateTeamScore_idsNonEmpty, endSession_idsNonEmpty.
  - destruct m as [c| | |]; cbn [applyCall];
      eauto using removeTeam_consistent, updateTeamScore_consistent,
        endSession_consistent.
    destruct c; cbn [call snd];
      eauto using createSession_consistent, updateSettings_consistent,
        addPlayer_consistent, rejoinPlayer_consistent, disconnectPlayer_consistent,
        removePlayer_consistent, addTeam_consistent, assignPlayerToTeam_consistent,
        startRound_consistent, resetRound_consistent, markCorrect_consistent,
        markPass_consistent, skipPlayer_consistent, cleanupStaleSessions_consistent.
    match goal with
    | |- context [processBuzz ?sock now st] =>
      pose proof (processBuzz_consistent sock now st Hc) as H;
      by destruct (processBuzz sock now st)
    end.
Qed.

Lemma reach_consistent trace :
  ∀ st,
    Forall (fun tm => wellFormedManagerCall tm.2) trace →
    consistent st → consistent (reach trace st).
Proof.
  unfold reach. induction trace as [|[now m] trace IH]; intros st Hwf Hc; [done|].
  apply Forall_cons in Hwf as [Hm Hwf]. simpl.
  apply IH; [done|]. by apply applyCall_consistent.
Qed.

Lemma reachable_consistent st : reachable st → consistent st.
Proof.
  intros (trace & Hwf & ->). apply reach_consistent; [done|].
  apply emptyState_consistent.
Qed.

(** ** Invariants of reachable states *)

Lemma fullGameState_reachable : reachable fullGameState.
Proof.
  exists fullGameTrace. split; [|reflexivity].
  unfold fullGameTrace. repeat constructor; discriminate.
Qed.

(** X1. In every state that well-formed calls can produce, no player has
    two entries in the buzz queue of a round. *)
Theorem reachable_queue_distinct st sessionId s :
  reachable st →
  sessions st !! sessionId = Some s →
  NoDup (BuzzEntry.playerId <$> RoundState.buzzQueue (GameSession.round s)).
Proof.
  intros [_ Hcons]%reachable_consistent Hs.
  by destruct (map_Forall_lookup_1 _ _ _ _ Hcons Hs) as (Hd & _).
Qed.

Lemma reachable_queue_distinct_witness :
  ∃ s, sessions fullGameState !! "AAAAAA" = Some s ∧
       BuzzEntry.playerId <$> RoundState.buzzQueue (GameSession.round s)
         = ["player-b"; "player-c"; "player-a"] ∧
       NoDup (BuzzEntry.playerId <$> RoundState.buzzQueue (GameSession.round s)).
Proof.
  eexists. split; [vm_compute; reflexivity|]. split; [vm_compute; reflexivity|].
  eapply (reachable_queue_distinct fullGameState "AAAAAA");
    [exact fullGameState_reachable | vm_compute; reflexivity].
Defined.

(** X2. In every state that well-formed calls can produce, a round is
    never [evaluating]; unless it is [locked] its queue is empty and nobody
    is active; and an active player is always the head of the queue. *)
Theorem reachable_round_shape st sessionId s :
  reachable st →
  sessions st !! sessionId = Some s →
  RoundState.status (GameSession.round s) ≠ evaluating ∧
  (RoundState.status (GameSession.round s) = locked ∨
   (RoundState.buzzQueue (GameSession.round s) = [] ∧
    RoundState.activePlayerId (GameSession.round s) = None)) ∧
  (∀ a, RoundState.activePlayerId (GameSession.round s) = Some a →
        headPlayerId (RoundState.buzzQueue (GameSession.round s)) = Some a).
Proof.
  intros [_ Hcons]%reachable_consistent Hs.
  by destruct (map_Forall_lookup_1 _ _ _ _ Hcons Hs) as (_ & Hshape & _).
Qed.

Lemma reachable_round_shape_witness :
  ∃ s, sessions fullGameState !! "AAAAAA" = Some s ∧
       RoundState.status (GameSession.round s) = locked ∧
       RoundState.activePlayerId (GameSession.round s) = Some "player-b" ∧
       headPlayerId (RoundState.buzzQueue (GameSession.round s)) = Some "player-b".
Proof.
  eexists. split; [vm_compute; reflexivity|]. split; [vm_compute; reflexivity|].
  split; [vm_compute; reflexivity|].
  eapply (reachable_round_shape fullGameState "AAAAAA");
    [exact fullGameState_reachable | vm_compute; reflexivity | vm_compute; reflexivity].
Defined.

(** X3. In every state that well-formed calls can produce, the team id of
    a player is the id of a team of the player's session: [removeTeam]
    unassigns the members and [assignPlayerToTeam] refuses unknown teams. *)
Theorem reachable_team_refs st sessionId s playerId p t :
  reachable st →
  sessions st !! sessionId = Some s →
  GameSession.players s !! playerId = Some p →
  Player.teamId p = Some t →
  ∃ team, team ∈ GameSession.teams s ∧ Team.id team = t.
Proof.
  intros [_ Hcons]%reachable_consistent Hs.
  destruct (map_Forall_lookup_1 _ _ _ _ Hcons Hs) as (_ & _ & Hrefs).
  apply Hrefs.
Qed.

Lemma reachable_team_refs_witness :
  ∃ s team,
    sessions fullGameState !! "AAAAAA" = Some s ∧
    team ∈ GameSession.teams s ∧ Team.id team = "team-r".
Proof.
  pose (s := default (GameSession.mk "" "" 0 DEFAULT_SETTINGS [] ∅
                        createInitialRoundState [])
               (sessions fullGameState !! "AAAAAA")).
  assert (Hs : sessions fullGameState !! "AAAAAA" = Some s)
    by (vm_compute; reflexivity).
  assert (Hp : GameSession.players s !! "player-a"
               = Some (Player.mk "player-a" "sock-a" "Alice" (Some "team-r") true 20))
    by (vm_compute; reflexivity).
  destruct (reachable_team_refs fullGameState "AAAAAA" s "player-a" _ "team-r"
              fullGameState_reachable Hs Hp eq_refl) as (team & Hin & Hid).
  exists s, team. split; [exact Hs|]. split; [exact Hin|exact Hid].
Defined.





(** ** One call, one session *)

Lemma disconnectPlayer_sessions socketId now st :
  sessions (disconnectPlayer socketId now st) = sessions st ∨
  ∃ player sessionId s,
    getPlayerBySocketId st socketId = Some (player, sessionId, s) ∧
    ∃ playerId,
      GameSession.players s !! playerId = Some player ∧
      sessions (disconnectPlayer socketId now st) =
        <[sessionId :=
            GameSession.with_players
              (<[playerId := Player.mk (Player.id player) (Player.socketId player)
                               (Player.displayName player) (Player.teamId player)
                               false now]> (GameSession.players s)) s]> (sessions st).
Proof.
  unfold disconnectPlayer, getPlayerBySocketId.
  destruct (socketToPlayer st !! socketId) as [pid|]; [|by left].
  destruct (negb (truthy pid)); [by left|].
  destruct (playerToSession st !! pid) as [sid|]; [|by left].
  destruct (negb (truthy sid)); [by left|].
  destruct (sessions st !! sid) as [s|]; [|by left].
  destruct (GameSession.players s !! pid) as [p|] eqn:Hp; [|by left].
  right. exists p, sid, s. split; [done|]. by exists pid.
Qed.

(** X5. A call other than the sweep leaves every session except its
    target exactly as it was. *)
Theorem call_touches_one_session m now st sessionId :
  ¬ isSweep m →
  targetSession m st ≠ Some sessionId →
  sessions (applyCall m now st) !! sessionId = sessions st !! sessionId.
Proof.
  intros Hsweep Htarget.
  destruct m as [c|sid tid|sid tid delta|sid]; cbn [applyCall targetSession] in *.
  - destruct c; cbn [call snd] in *.
    + simpl. apply lookup_insert_ne. congruence.
    + unfold updateSettings. repeat case_match; simpl; try done;
        apply lookup_insert_ne; congruence.
    + unfold addPlayer. repeat case_match; simpl; try done;
        apply lookup_insert_ne; congruence.
    + unfold rejoinPlayer. repeat case_match; simpl; try done;
        apply lookup_insert_ne; congruence.
    + destruct (disconnectPlayer_sessions socketId now st)
        as [->|(p & sid & s & Hres & pid & _ & ->)]; [done|].
      unfold resolvedSessionId in Htarget. rewrite Hres in Htarget. simpl in Htarget.
      apply lookup_insert_ne. congruence.
    + unfold removePlayer. repeat case_match; simpl; try done;
        apply lookup_insert_ne; congruence.
    + unfold addTeam. repeat case_match; simpl; try done;
        apply lookup_insert_ne; congruence.
    + unfold assignPlayerToTeam. repeat case_match; simpl; try done;
        apply lookup_insert_ne; congruence.
    + unfold startRound. repeat case_match; simpl; try done;
        apply lookup_insert_ne; congruence.
    + unfold resetRound. repeat case_match; simpl; try done;
        apply lookup_insert_ne; congruence.
    + destruct (processBuzz socketId now st) as [[e|msg] st'] eqn:Hp; simpl.
      * apply processBuzz_accepted in Hp as (p & sid & s & Hres & _ & _ & ->).
        unfold resolvedSessionId in Htarget. rewrite Hres in Htarget. simpl in Htarget.
        apply lookup_insert_ne. congruence.
      * by apply processBuzz_error in Hp as [-> _].
    + unfold markCorrect. repeat case_match; simpl; try done;
        apply lookup_insert_ne; congruence.
    + unfold markPass. repeat case_match; simpl; try done;
        apply lookup_insert_ne; congruence.
    + unfold skipPlayer. repeat case_match; simpl; try done;
        apply lookup_insert_ne; congruence.
    + exfalso. apply Hsweep. by eexists.
  - unfold removeTeam. repeat case_match; simpl; try done;
      apply lookup_insert_ne; congruence.
  - unfold updateTeamScore. repeat case_match; simpl; try done;
      apply lookup_insert_ne; congruence.
  - rewrite endSession_sessions. apply lookup_delete_ne. congruence.
Qed.

Lemma call_touches_one_session_witness :
  sessions (applyCall (BaseCall (StartRound "BBBBBB")) 3000 fullGameState) !! "AAAAAA"
  = sessions fullGameState !! "AAAAAA".
Proof.
  apply call_touches_one_session.
  - intros [maxAge Hm]. discriminate Hm.
  - discriminate.
Defined.

(** ** The question counter *)

Ltac same_counter :=
  repeat case_match; simplify_eq; simpl in *; try done;
  repeat match goal with
  | H : <[?k := _]> _ !! ?sid = Some _ |- _ =>
    destruct (decide (k = sid)) as [->|];
    [rewrite lookup_insert_eq in H | rewrite lookup_insert_ne in H by done]
  end; simplify_eq; done.

Lemma sweep_survivor maxAgeMs now st sessionId s' :
  sessions (cleanupStaleSessions maxAgeMs now st) !! sessionId = Some s' →
  sessions st !! sessionId = Some s'.
Proof.
  unfold cleanupStaleSessions. rewrite sweep_sessions.
  destruct (sessions st !! sessionId) as [s|] eqn:Hs.
  - rewrite (sweep_lookup _ _ _ _ sessionId s), Hs.
    + by destruct (isStale _ _ _).
    + apply NoDup_fst_map_to_list.
    + by apply elem_of_map_to_list.
  - rewrite sweep_lookup_other, Hs; [done|].
    intros ([k v] & -> & Hin)%list_elem_of_fmap.
    apply elem_of_map_to_list in Hin. simpl in Hs. congruence.
Qed.

(** X6. The question counter of a session that stays live through a call
    changes only by [startRound] on that session, and then by exactly one;
    resets, buzzes, verdicts, kicks and the sweep leave it alone.  (A
    [createSession] that draws the code of the session replaces it by a new
    session and is set aside.) *)
Theorem questionNumber_moves_only_by_startRound m now st sessionId s s' :
  sessions st !! sessionId = Some s →
  sessions (applyCall m now st) !! sessionId = Some s' →
  (∀ h p rand, m = BaseCall (CreateSession h p rand) →
               generateSessionId rand ≠ sessionId) →
  (m = BaseCall (StartRound sessionId) ∧
   RoundState.questionNumber (GameSession.round s')
     = S (RoundState.questionNumber (GameSession.round s))) ∨
  (m ≠ BaseCall (StartRound sessionId) ∧
   RoundState.questionNumber (GameSession.round s')
     = RoundState.questionNumber (GameSession.round s)).
Proof.
  intros Hs Hs' Hcreate.
  destruct m as [c|sid tid|sid tid delta|sid]; cbn [applyCall] in Hs'.
  - destruct c; cbn [call snd] in Hs'.
    + right. split; [done|]. simpl in Hs'.
      rewrite lookup_insert_ne in Hs' by (by eapply Hcreate).
      rewrite Hs in Hs'. by simplify_eq.
    + right. split; [done|]. unfold updateSettings in Hs'. same_counter.
    + right. split; [done|]. unfold addPlayer in Hs'. same_counter.
    + right. split; [done|]. unfold rejoinPlayer in Hs'. same_counter.
    + right. split; [done|].
      destruct (disconnectPlayer_sessions socketId now st)
        as [Heq|(p & sid & s0 & Hres & pid & _ & Heq)]; rewrite Heq in Hs'.
      * rewrite Hs in Hs'. by simplify_eq.
      * apply getPlayerBySocketId_Some in Hres. same_counter.
    + right. split; [done|]. unfold removePlayer in Hs'. same_counter.
    + right. split; [done|]. unfold addTeam in Hs'. same_counter.
    + right. split; [done|]. unfold assignPlayerToTeam in Hs'. same_counter.
    + unfold startRound in Hs'.
      destruct (sessions st !! sessionId0) as [s0|] eqn:Hs0.
      * simpl in Hs'. destruct (decide (sessionId0 = sessionId)) as [->|Hne].
        -- left. split; [done|]. rewrite lookup_insert_eq in Hs'.
           simplify_eq. simpl. lia.
        -- right. split; [congruence|]. rewrite lookup_insert_ne in Hs' by done.
           rewrite Hs in Hs'. by simplify_eq.
      * right. split; [congruence|]. rewrite Hs in Hs'. by simplify_eq.
    + right. split; [done|]. unfold resetRound in Hs'. same_counter.
    + right. split; [done|].
      destruct (processBuzz socketId now st) as [[e|msg] st'] eqn:Hp; simpl in Hs'.
      * apply processBuzz_accepted in Hp as (p & sid & s0 & Hres & _ & _ & Heq).
        rewrite Heq in Hs'. apply getPlayerBySocketId_Some in Hres.
        destruct (decide (sid = sessionId)) as [->|];
          [rewrite lookup_insert_eq in Hs' | rewrite lookup_insert_ne in Hs' by done];
          simplify_eq; [|done].
        unfold pushBuzz. by case_bool_decide.
      * apply processBuzz_error in Hp as [Heq _]. rewrite Heq, Hs in Hs'.
        by simplify_eq.
    + right. split; [done|]. unfold markCorrect in Hs'. same_counter.
    + right. split; [done|]. unfold markPass in Hs'. same_counter.
    + right. split; [done|]. unfold skipPlayer in Hs'. same_counter.
    + right. split; [done|]. apply sweep_survivor in Hs'.
      rewrite Hs in Hs'. by simplify_eq.
  - right. split; [done|]. unfold removeTeam in Hs'. same_counter.
  - right. split; [done|]. unfold updateTeamScore in Hs'. same_counter.
  - right. split; [done|]. rewrite endSession_sessions in Hs'.
    apply lookup_delete_Some in Hs' as [_ Hs']. rewrite Hs in Hs'. by simplify_eq.
Qed.

Lemma questionNumber_moves_only_by_startRound_witness :
  ∃ s s',
    sessions fullGameState !! "AAAAAA" = Some s ∧
    sessions (applyCall (BaseCall (ResetRound "AAAAAA")) 3000 fullGameState)
      !! "AAAAAA" = Some s' ∧
    RoundState.questionNumber (GameSession.round s) = 2%nat ∧
    RoundState.questionNumber (GameSession.round s') = 2%nat.
Proof.
  eexists _, _. split; [vm_compute; reflexivity|]. split; [vm_compute; reflexivity|].
  split; [vm_compute; reflexivity|].
  destruct (questionNumber_moves_only_by_startRound
              (BaseCall (ResetRound "AAAAAA")) 3000 fullGameState "AAAAAA" _ _
              ltac:(vm_compute; reflexivity) ltac:(vm_compute; reflexivity))
    as [[Hm _]|[_ Hq]].
  - intros h p rand Hm. discriminate Hm.
  - discriminate Hm.
  - rewrite Hq. vm_compute. reflexivity.
Defined.

(** X7. Resetting a round just before starting one changes nothing: the
    state after [resetRound] then [startRound] is the state after
    [startRound] alone, so a reset does not consume a question number. *)
Theorem startRound_after_resetRound sessionId now st :
  startRound sessionId now (resetRound sessionId st) = startRound sessionId now st.
Proof.
  unfold startRound, resetRound.
  destruct (sessions st !! sessionId) as [s|] eqn:Hs; simpl; [|by rewrite Hs].
  rewrite lookup_insert_eq. unfold set_sessions. simpl. f_equal.
  by rewrite insert_insert_eq.
Qed.

(** ** Reconnecting, kicking, ending *)



Lemma headPlayerId_elem q a :
  headPlayerId q = Some a → a ∈ BuzzEntry.playerId <$> q.
Proof.
  destruct q as [|b q]; [done|]. intros [= <-]. rewrite fmap_cons. by left.
Qed.

(** X9. After [removePlayer] on a live session the player is gone from
    the session's players, has no entry in the buzz queue and is not the
    active player; and a buzz on any socket that was bound to the player is
    answered "Player not found". *)
Theorem removePlayer_forgets sessionId playerId st s :
  sessions st !! sessionId = Some s →
  ∃ s',
    sessions (removePlayer sessionId playerId st) !! sessionId = Some s' ∧
    GameSession.players s' !! playerId = None ∧
    (playerId ∉ BuzzEntry.playerId <$> RoundState.buzzQueue (GameSession.round s')) ∧
    RoundState.activePlayerId (GameSession.round s') ≠ Some playerId ∧
    ∀ socketId now,
      socketToPlayer st !! socketId = Some playerId →
      processBuzz socketId now (removePlayer sessionId playerId st)
        = (BuzzError "Player not found", removePlayer sessionId playerId st).
Proof.
  intros Hs. unfold removePlayer at 1. rewrite Hs. cbn [sessions].
  eexists. split; [apply lookup_insert_eq|].
  cbn [GameSession.players GameSession.with_players GameSession.with_round
       GameSession.round].
  split; [apply lookup_delete_eq|].
  pose proof (dropPlayer_absent playerId
                (RoundState.buzzQueue (GameSession.round s))) as Habsent.
  split; [|split].
  - by case_bool_decide.
  - case_bool_decide as Hactive; [|done].
    unfold advanceQueue. cbn [RoundState.activePlayerId RoundState.buzzQueue with_buzzQueue].
    intros Hhead. by apply headPlayerId_elem in Hhead.
  - intros socketId now Hsock. apply processBuzz_unresolved.
    unfold getPlayerBySocketId, removePlayer. rewrite Hs.
    cbn [socketToPlayer playerToSession].
    destruct (GameSession.players s !! playerId) as [p|].
    + destruct (decide (Player.socketId p = socketId)) as [->|Hne].
      * by rewrite lookup_delete_eq.
      * rewrite lookup_delete_ne, Hsock by done.
        destruct (negb (truthy playerId)); [done|]. by rewrite lookup_delete_eq.
    + rewrite Hsock. destruct (negb (truthy playerId)); [done|].
      by rewrite lookup_delete_eq.
Qed.

Lemma removePlayer_forgets_witness :
  (processBuzz "sock-a" 1200 (removePlayer "AAAAAA" "player-a" twoBuzzState)).1
    = BuzzError "Player not found" ∧
  roundOf "AAAAAA" (removePlayer "AAAAAA" "player-a" twoBuzzState)
    = Some (RoundState.mk locked 1 (Some 1000) (Some 1000) (Some "player-b")
              [BuzzEntry.mk "player-b" "Bob" None None None 1005 2]).
Proof.
  pose (s := default (GameSession.mk "" "" 0 DEFAULT_SETTINGS [] ∅
                        createInitialRoundState [])
               (sessions twoBuzzState !! "AAAAAA")).
  assert (Hs : sessions twoBuzzState !! "AAAAAA" = Some s)
    by (vm_compute; reflexivity).
  destruct (removePlayer_forgets "AAAAAA" "player-a" twoBuzzState s Hs)
    as (s' & _ & _ & _ & _ & Hbuzz).
  split; [|vm_compute; reflexivity].
  rewrite (Hbuzz "sock-a" 1200); [reflexivity|vm_compute; reflexivity].
Defined.

Lemma forgetPlayers_lookups ps st :
  playerBuzzTimestamps (foldl (fun acc player => forgetPlayer player acc) st ps)
    = playerBuzzTimestamps st ∧
  (∀ k, socketToPlayer (foldl (fun acc player => forgetPlayer player acc) st ps) !! k
        = None ∨
        socketToPlayer (foldl (fun acc player => forgetPlayer player acc) st ps) !! k
        = socketToPlayer st !! k) ∧
  (∀ k, playerToSession (foldl (fun acc player => forgetPlayer player acc) st ps) !! k
        = None ∨
        playerToSession (foldl (fun acc player => forgetPlayer player acc) st ps) !! k
        = playerToSession st !! k).
Proof.
  revert st. induction ps as [|p ps IH]; intros st; cbn [foldl].
  { split; [done|]. split; intros k; by right. }
  destruct (IH (forgetPlayer p st)) as (Hts & Hsock & Hpl).
  split; [by rewrite Hts|]. split; intros k.
  - destruct (Hsock k) as [?|Heq]; [by left|]. rewrite Heq. cbn [forgetPlayer socketToPlayer].
    destruct (decide (Player.socketId p = k)) as [->|];
      [left; apply lookup_delete_eq | right; by apply lookup_delete_ne].
  - destruct (Hpl k) as [?|Heq]; [by left|]. rewrite Heq. cbn [forgetPlayer playerToSession].
    destruct (decide (Player.id p = k)) as [->|];
      [left; apply lookup_delete_eq | right; by apply lookup_delete_ne].
Qed.

(** X10. Ending a session removes it and only it from the registry, keeps
    the rate-limit timestamps, and every socket that resolved to a player
    of that session resolves to nobody afterwards. *)
Theorem endSession_forgets sessionId st :
  sessions (endSession sessionId st) !! sessionId = None ∧
  (∀ other, other ≠ sessionId →
            sessions (endSession sessionId st) !! other = sessions st !! other) ∧
  playerBuzzTimestamps (endSession sessionId st) = playerBuzzTimestamps st ∧
  (∀ socketId player s,
     getPlayerBySocketId st socketId = Some (player, sessionId, s) →
     getPlayerBySocketId (endSession sessionId st) socketId = None).
Proof.
  rewrite endSession_sessions.
  split; [apply lookup_delete_eq|]. split; [intros other Hne; by apply lookup_delete_ne|].
  split.
  - unfold endSession. destruct (sessions st !! sessionId); [|done].
    cbn [set_sessions playerBuzzTimestamps]. apply forgetPlayers_lookups.
  - intros socketId player s Hres.
    pose proof (getPlayerBySocketId_Some _ _ _ _ _ Hres) as Hs.
    revert Hres. unfold getPlayerBySocketId, endSession. rewrite Hs.
    cbn [set_sessions socketToPlayer playerToSession sessions].
    destruct (forgetPlayers_lookups (playersValues s) st) as (_ & Hsock & Hpl).
    rewrite forgetPlayers_sessions.
    destruct (Hsock socketId) as [->| ->]; [done|].
    destruct (socketToPlayer st !! socketId) as [pid|]; [|done].
    destruct (negb (truthy pid)); [done|].
    destruct (Hpl pid) as [->| ->]; [done|].
    destruct (playerToSession st !! pid) as [sid|]; [|done].
    destruct (negb (truthy sid)); [done|].
    destruct (decide (sid = sessionId)) as [->|Hne].
    + by rewrite lookup_delete_eq.
    + rewrite lookup_delete_ne by done. intros Hres.
      repeat case_match; simplify_eq.
Qed.

Lemma endSession_forgets_witness :
  getPlayerBySocketId (endSession "AAAAAA" twoBuzzState) "sock-b" = None.
Proof.
  eapply (proj2 (proj2 (proj2 (endSession_forgets "AAAAAA" twoBuzzState)))).
  vm_compute. reflexivity.
Defined.

(** ** Teams and names *)



Lemma findTeam_Some_iff teamId ts :
  is_Some (findTeam teamId ts) ↔ teamId ∈ Team.id <$> ts.
Proof.
  rewrite <- elem_of_team_ids. split.
  - intros [team Hteam]. exists team.
    split; [by apply (findTeam_elem teamId)|by apply (findTeam_id _ _ _ Hteam)].
  - intros (team & Hin & Hid). destruct (findTeam teamId ts) eqn:Hfind; [by eexists|].
    exfalso. by apply (proj1 (findTeam_None teamId ts) Hfind team).
Qed.







Lemma length_slice0 n s : (String.length (slice0 n s) ≤ n)%nat.
Proof.
  unfold slice0. revert s. induction n as [|n IH]; intros s.
  - destruct s; simpl; lia.
  - destruct s as [|c s]; simpl; [lia|]. specialize (IH s). lia.
Qed.

Lemma TEAM_COLORS_nth i : (i < 8)%nat → nth i TEAM_COLORS "" ∈ TEAM_COLORS.
Proof.
  intros Hi. unfold TEAM_COLORS.
  do 8 (destruct i as [|i]; [simpl; set_solver|]). lia.
Qed.

(** X13. The name stored for a joined player and for a created team has
    at most 20 characters; a new team starts at score 0 with a colour of
    the palette, the one at index (number of teams before) mod 8. *)
Theorem stored_names_bounded sessionId st :
  (∀ socketId displayName uuid now player,
     (addPlayer sessionId socketId displayName uuid now st).1 = Joined player →
     (String.length (Player.displayName player) ≤ 20)%nat) ∧
  (∀ name uuid team s,
     sessions st !! sessionId = Some s →
     (addTeam sessionId name uuid st).1 = Some team →
     (String.length (Team.name team) ≤ 20)%nat ∧
     Team.score team = 0 ∧
     Team.color team ∈ TEAM_COLORS ∧
     Team.color team = nth (length (GameSession.teams s) mod 8) TEAM_COLORS "").
Proof.
  split.
  - intros sock name uuid now player. unfold addPlayer.
    repeat case_match; cbn [fst]; intros [= <-]. apply length_slice0.
  - intros name uuid team s Hs. unfold addTeam. rewrite Hs. cbn [fst].
    intros [= <-]. cbn [Team.name Team.score Team.color].
    split; [apply length_slice0|]. split; [done|]. split; [|done].
    assert (length (GameSession.teams s) mod 8 < 8)%nat as Hmod
      by (apply Nat.mod_upper_bound; lia).
    exact (TEAM_COLORS_nth _ Hmod).
Qed.

Lemma stored_names_bounded_witness :
  (String.length
     (Player.displayName
        (Player.mk "player-d" "sock-d" "Bartholomew the Grea" None true 70)) ≤ 20)%nat.
Proof.
  eapply (proj1 (stored_names_bounded "AAAAAA" exampleState)
            "sock-d" "   Bartholomew the Great   " "player-d" 70).
  vm_compute. reflexivity.
Defined.

(** ** Team-exclusive mode and late buzzes, along buzz attempts *)

Lemma processBuzz_session sessionId socketId now st s :
  sessions st !! sessionId = Some s →
  sessions (processBuzz socketId now st).2 !! sessionId = Some s ∨
  ∃ player,
    (∃ playerId, GameSession.players s !! playerId = Some player) ∧
    (RoundState.status (GameSession.round s) = open ∨
     RoundState.status (GameSession.round s) = locked) ∧
    alreadyBuzzed (Player.id player) (RoundState.buzzQueue (GameSession.round s)) = false ∧
    teamBlocked (GameSession.settings s) player (GameSession.round s) = false ∧
    lateBlocked (GameSession.settings s) (GameSession.round s) = false ∧
    sessions (processBuzz socketId now st).2 !! sessionId
      = Some (GameSession.with_round
                (pushBuzz (mkBuzzEntry player s now) now (GameSession.round s)) s).
Proof.
  intros Hs. destruct (processBuzz socketId now st) as [[e|msg] st'] eqn:Hp; cbn [snd].
  - apply processBuzz_accepted_checks in Hp
      as (player & sid & s0 & (Hres & Hact & Hdup) & _ & Hteam & Hlate & -> & ->).
    cbn [sessions].
    destruct (decide (sid = sessionId)) as [->|Hne].
    + pose proof (getPlayerBySocketId_Some _ _ _ _ _ Hres) as Hs0.
      rewrite Hs in Hs0. injection Hs0 as <-.
      right. exists player. split; [exact (getPlayerBySocketId_player _ _ _ _ _ Hres)|].
      split; [done|]. split; [done|]. split; [done|]. split; [done|].
      apply lookup_insert_eq.
    + left. by rewrite lookup_insert_ne.
  - left. apply processBuzz_error in Hp as [-> _]. done.
Qed.

Lemma buzzTrace_preserves (P : GameSession.t → Prop) sessionId :
  (∀ s player now,
     P s →
     (∃ playerId, GameSession.players s !! playerId = Some player) →
     (RoundState.status (GameSession.round s) = open ∨
      RoundState.status (GameSession.round s) = locked) →
     alreadyBuzzed (Player.id player) (RoundState.buzzQueue (GameSession.round s)) = false →
     teamBlocked (GameSession.settings s) player (GameSession.round s) = false →
     lateBlocked (GameSession.settings s) (GameSession.round s) = false →
     P (GameSession.with_round
          (pushBuzz (mkBuzzEntry player s now) now (GameSession.round s)) s)) →
  ∀ attempts st s,
    sessions st !! sessionId = Some s → P s →
    ∃ s', sessions (run (buzzTrace attempts) st).2 !! sessionId = Some s' ∧ P s'.
Proof.
  intros Hstep. induction attempts as [|[now socketId] rest IH]; intros st s Hs HP.
  { by exists s. }
  change (buzzTrace ((now, socketId) :: rest))
    with ((now, ProcessBuzz socketId) :: buzzTrace rest).
  rewrite run_buzz_cons. cbn [snd].
  destruct (processBuzz_session sessionId socketId now st s Hs)
    as [Hsame|(player & Hp & Hact & Hdup & Hteam & Hlate & Hpush)].
  - by apply (IH _ s).
  - eapply IH; [exact Hpush|]. by apply Hstep.
Qed.

Lemma teamAlreadyBuzzed_spec teamId q :
  teamAlreadyBuzzed teamId q = true ↔ teamId ∈ BuzzEntry.teamId <$> q.
Proof.
  unfold teamAlreadyBuzzed. induction q as [|b q IH].
  - split; [done|]. by intros ?%elem_of_nil.
  - cbn [existsb]. rewrite fmap_cons, orb_true_iff, IH, bool_decide_eq_true, elem_of_cons.
    intuition.
Qed.

Lemma pushBuzz_sessionOk s player now :
  sessionOk s →
  (∃ playerId, GameSession.players s !! playerId = Some player) →
  sessionOk (GameSession.with_round
               (pushBuzz (mkBuzzEntry player s now) now (GameSession.round s)) s).
Proof.
  intros (Hplayers & Hteams & Hq & Ha) [pid Hp].
  destruct (map_Forall_lookup_1 _ _ _ _ Hplayers Hp) as [Hid _].
  split; [done|]. split; [done|].
  unfold pushBuzz. case_bool_decide; split; cbn.
  - apply Forall_app. split; [done|]. by apply Forall_singleton.
  - by intros a [= <-].
  - apply Forall_app. split; [done|]. by apply Forall_singleton.
  - done.
Qed.

(** X14. Team-exclusive mode: from a reachable state in which a session
    has [oneBuzzPerTeam] set and an empty queue, whatever buzz attempts
    follow, no two entries of the queue carry the same team. *)
Theorem oneBuzzPerTeam_exclusive attempts st sessionId s :
  reachable st →
  sessions st !! sessionId = Some s →
  SessionSettings.oneBuzzPerTeam (GameSession.settings s) = true →
  RoundState.buzzQueue (GameSession.round s) = [] →
  ∃ s',
    sessions (run (buzzTrace attempts) st).2 !! sessionId = Some s' ∧
    NoDup (omap BuzzEntry.teamId (RoundState.buzzQueue (GameSession.round s'))).
Proof.
  intros [Hids _]%reachable_consistent Hs Hmode Hempty.
  pose proof (map_Forall_lookup_1 _ _ _ _ Hids Hs) as Hok.
  destruct (buzzTrace_preserves
              (fun s => sessionOk s ∧
                        SessionSettings.oneBuzzPerTeam (GameSession.settings s) = true ∧
                        NoDup (omap BuzzEntry.teamId
                                 (RoundState.buzzQueue (GameSession.round s))))
              sessionId) with (attempts := attempts) (st := st) (s := s)
    as (s' & Hs' & _ & _ & Hnodup); [| done | | by exists s'].
  - clear. intros s player now (Hok & Hmode & Hnodup) Hp _ _ Hteam _.
    split; [by apply pushBuzz_sessionOk|]. split; [done|].
    destruct Hok as (Hplayers & _). destruct Hp as [pid Hp].
    destruct (map_Forall_lookup_1 _ _ _ _ Hplayers Hp) as [_ Hteamid].
    assert (RoundState.buzzQueue
              (pushBuzz (mkBuzzEntry player s now) now (GameSession.round s))
            = RoundState.buzzQueue (GameSession.round s)
              ++ [mkBuzzEntry player s now]) as Hq
      by (unfold pushBuzz; by case_bool_decide).
    rewrite round_with_round, Hq, omap_app. cbn [omap list_omap BuzzEntry.teamId mkBuzzEntry].
    destruct (Player.teamId player) as [t|] eqn:Ht; [|by rewrite app_nil_r].
    apply NoDup_app. split; [done|]. split; [|apply NoDup_singleton].
    intros x Hx [->|[]%elem_of_nil]%elem_of_cons.
    apply list_elem_of_omap in Hx as (b & Hb & Hbt).
    unfold teamBlocked in Hteam. rewrite Hmode, Ht in Hteam. cbn [truthy_opt andb] in Hteam.
    unfold truthy in Hteam. rewrite bool_decide_eq_false_2 in Hteam by (by apply Hteamid).
    cbn [negb andb] in Hteam.
    assert (teamAlreadyBuzzed (Some t) (RoundState.buzzQueue (GameSession.round s)) = true)
      as Hdup; [|congruence].
    apply teamAlreadyBuzzed_spec, list_elem_of_fmap. by exists b.
  - split; [done|]. split; [done|]. rewrite Hempty. constructor.
Qed.

Lemma oneBuzzPerTeam_exclusive_witness :
  ∃ s',
    sessions (run (buzzTrace [(1100, "sock-a"); (1300, "sock-c"); (1400, "sock-b")])
                teamExclusiveState).2 !! "AAAAAA" = Some s' ∧
    NoDup (omap BuzzEntry.teamId (RoundState.buzzQueue (GameSession.round s'))).
Proof.
  eapply (oneBuzzPerTeam_exclusive _ teamExclusiveState "AAAAAA").
  - exists teamExclusiveTrace. split; [|reflexivity].
    unfold teamExclusiveTrace. repeat constructor; discriminate.
  - vm_compute. reflexivity.
  - vm_compute. reflexivity.
  - vm_compute. reflexivity.
Defined.

(** X15. With late buzzes disabled, from a freshly opened round (open,
    empty queue) and whatever buzz attempts follow, the queue never holds
    more than one entry: only the first accepted buzz gets in. *)
Theorem no_late_buzz_single_entry attempts st sessionId s :
  sessions st !! sessionId = Some s →
  SessionSettings.allowLateBuzzes (GameSession.settings s) = false →
  RoundState.status (GameSession.round s) = open →
  RoundState.buzzQueue (GameSession.round s) = [] →
  ∃ s',
    sessions (run (buzzTrace attempts) st).2 !! sessionId = Some s' ∧
    (length (RoundState.buzzQueue (GameSession.round s')) ≤ 1)%nat.
Proof.
  intros Hs Hlate Hopen Hempty.
  destruct (buzzTrace_preserves
              (fun s => SessionSettings.allowLateBuzzes (GameSession.settings s) = false ∧
                        ((RoundState.status (GameSession.round s) = open ∧
                          RoundState.buzzQueue (GameSession.round s) = []) ∨
                         (RoundState.status (GameSession.round s) = locked ∧
                          length (RoundState.buzzQueue (GameSession.round s)) ≤ 1)%nat))
              sessionId) with (attempts := attempts) (st := st) (s := s)
    as (s' & Hs' & _ & Hshape); [| done | by split; [|left] | ].
  - clear. intros s player now (Hlate & Hshape) _ _ _ _ Hblocked.
    split; [done|]. rewrite round_with_round.
    destruct Hshape as [[Hopen Hempty]|[Hlocked _]].
    + right. unfold pushBuzz. rewrite bool_decide_eq_true_2 by done. cbn.
      rewrite Hempty. split; [done|]. simpl. lia.
    + unfold lateBlocked in Hblocked. rewrite Hlate in Hblocked.
      rewrite bool_decide_eq_true_2 in Hblocked by done. discriminate.
  - exists s'. split; [done|]. destruct Hshape as [[_ ->]|[_ ?]]; [simpl; lia|done].
Qed.

Lemma no_late_buzz_single_entry_witness :
  ∃ s',
    sessions (run (buzzTrace [(1000, "sock-a"); (2000, "sock-b")])
                noLateBuzzState).2 !! "AAAAAA" = Some s' ∧
    (length (RoundState.buzzQueue (GameSession.round s')) ≤ 1)%nat.
Proof.
  eapply (no_late_buzz_single_entry _ noLateBuzzState "AAAAAA").
  - vm_compute. reflexivity.
  - vm_compute. reflexivity.
  - vm_compute. reflexivity.
  - vm_compute. reflexivity.
Defined.

(** ** The displayed status and the admission of a buzz *)

Lemma find_queue_entry playerId q :
  is_Some (List.find (fun b => bool_decide (BuzzEntry.playerId b = playerId)) q)
  ↔ alreadyBuzzed playerId q = true.
Proof.
  unfold alreadyBuzzed. induction q as [|b q IH]; cbn [List.find existsb].
  - split; [by intros [? ?]|done].
  - destruct (bool_decide (BuzzEntry.playerId b = playerId)); [|exact IH].
    split; [done|by eexists].
Qed.

Lemma pushBuzz_status player s now :
  (RoundState.status (GameSession.round s) = open ∨
   RoundState.status (GameSession.round s) = locked) →
  RoundState.status (pushBuzz (mkBuzzEntry player s now) now (GameSession.round s))
    = locked.
Proof. intros [H|H]; unfold pushBuzz; rewrite H; by case_bool_decide. Qed.

(** X16. [getPlayerStatus] never answers [buzzed] or [passed].  After an
    accepted buzz the buzzer's status is [active] or [queued], and [active]
    when the round was open.  A player shown as [ready] can only be
    accepted or refused as too fast or because the team already buzzed; a
    player shown as [queued] is always refused, as already buzzed or, in a
    phase that takes no buzzes, as not active. *)
Theorem getPlayerStatus_and_buzz :
  (∀ playerId r,
     getPlayerStatus playerId r ≠ PlayerStatus.buzzed ∧
     getPlayerStatus playerId r ≠ PlayerStatus.passed) ∧
  (∀ socketId now st e st',
     processBuzz socketId now st = (BuzzAccepted e, st') →
     ∃ player sessionId s s',
       getPlayerBySocketId st socketId = Some (player, sessionId, s) ∧
       sessions st' !! sessionId = Some s' ∧
       (getPlayerStatus (BuzzEntry.playerId e) (GameSession.round s')
          = PlayerStatus.active ∨
        getPlayerStatus (BuzzEntry.playerId e) (GameSession.round s')
          = PlayerStatus.queued) ∧
       (RoundState.status (GameSession.round s) = open →
        getPlayerStatus (BuzzEntry.playerId e) (GameSession.round s')
          = PlayerStatus.active)) ∧
  (∀ socketId now st player sessionId s,
     getPlayerBySocketId st socketId = Some (player, sessionId, s) →
     getPlayerStatus (Player.id player) (GameSession.round s) = PlayerStatus.ready →
     (∃ e, (processBuzz socketId now st).1 = BuzzAccepted e) ∨
     (processBuzz socketId now st).1 = BuzzError "Too fast" ∨
     (processBuzz socketId now st).1 = BuzzError "Team already buzzed") ∧
  (∀ socketId now st player sessionId s,
     getPlayerBySocketId st socketId = Some (player, sessionId, s) →
     getPlayerStatus (Player.id player) (GameSession.round s) = PlayerStatus.queued →
     (processBuzz socketId now st).1 = BuzzError "Buzzer is not active" ∨
     (processBuzz socketId now st).1 = BuzzError "Already buzzed").
Proof.
  split; [|split; [|split]].
  - intros pid r. unfold getPlayerStatus. by repeat case_match.
  - intros socketId now st e st' Hp.
    apply processBuzz_accepted_checks in Hp
      as (player & sid & s & (Hres & Hact & Hdup) & _ & _ & _ & -> & ->).
    exists player, sid, s. eexists. split; [done|].
    split; [cbn [sessions]; apply lookup_insert_eq|]. rewrite round_with_round.
    unfold getPlayerStatus. rewrite (pushBuzz_status _ _ _ Hact). cbn [orb bool_decide].
    rewrite !bool_decide_eq_false_2 by done. cbn [orb].
    assert (is_Some (List.find
              (fun b => bool_decide (BuzzEntry.playerId b
                                     = BuzzEntry.playerId (mkBuzzEntry player s now)))
              (RoundState.buzzQueue
                 (pushBuzz (mkBuzzEntry player s now) now (GameSession.round s)))))
      as [found ->].
    { apply find_queue_entry, alreadyBuzzed_spec.
      replace (RoundState.buzzQueue (pushBuzz _ _ _))
        with (RoundState.buzzQueue (GameSession.round s) ++ [mkBuzzEntry player s now])
        by (unfold pushBuzz; by case_bool_decide).
      rewrite fmap_app, elem_of_app. right. rewrite fmap_cons. by left. }
    split.
    + case_bool_decide; [by left|by right].
    + intros Hopen. unfold pushBuzz.
      rewrite (bool_decide_eq_true_2 (RoundState.status _ = open)) by done.
      cbn [RoundState.activePlayerId]. by rewrite bool_decide_eq_true_2.
  - intros socketId now st player sid s Hres Hready.
    rewrite (processBuzz_resolved _ _ _ _ _ _ Hres). cbv zeta.
    unfold getPlayerStatus in Hready.
    destruct (bool_decide (_ = waiting) || bool_decide (_ = ended)); [discriminate|].
    destruct (bool_decide (RoundState.activePlayerId _ = _)); [discriminate|].
    pose proof (find_queue_entry (Player.id player)
                  (RoundState.buzzQueue (GameSession.round s))) as Hfind.
    destruct (List.find _ _); [discriminate|].
    case_bool_decide as Hopen; [|discriminate]. rewrite Hopen.
    cbn [bool_decide andb]. rewrite bool_decide_eq_false_2 by (by intros []).
    cbn [andb].
    destruct (alreadyBuzzed _ _); [by destruct (proj2 Hfind eq_refl)|].
    destruct (tooFast _ _ _); [by right; left|].
    destruct (teamBlocked _ _ _); [by right; right|].
    unfold lateBlocked. rewrite Hopen. cbn. left. by eexists.
  - intros socketId now st player sid s Hres Hqueued.
    rewrite (processBuzz_resolved _ _ _ _ _ _ Hres). cbv zeta.
    unfold getPlayerStatus in Hqueued.
    destruct (bool_decide (_ = waiting) || bool_decide (_ = ended)); [discriminate|].
    destruct (bool_decide (RoundState.activePlayerId _ = _)); [discriminate|].
    pose proof (find_queue_entry (Player.id player)
                  (RoundState.buzzQueue (GameSession.round s))) as Hfind.
    destruct (List.find _ _).
    2:{ by case_bool_decide. }
    destruct (bool_decide _ && bool_decide _); [by left|].
    rewrite (proj1 Hfind) by (by eexists). by right.
Qed.

Lemma getPlayerStatus_and_buzz_witness :
  (processBuzz "sock-b" 1200 twoBuzzState).1 = BuzzError "Buzzer is not active" ∨
  (processBuzz "sock-b" 1200 twoBuzzState).1 = BuzzError "Already buzzed".
Proof.
  pose (s := default (GameSession.mk "" "" 0 DEFAULT_SETTINGS [] ∅
                        createInitialRoundState [])
               (sessions twoBuzzState !! "AAAAAA")).
  eapply (proj2 (proj2 (proj2 getPlayerStatus_and_buzz)) "sock-b" 1200 twoBuzzState
            (Player.mk "player-b" "sock-b" "Bob" None true 30) "AAAAAA" s).
  - vm_compute. reflexivity.
  - vm_compute. reflexivity.
Defined.

(** ** Joining, leaving and joining again *)

Lemma disconnectPlayer_resolved socketId now st player sessionId s playerId :
  getPlayerBySocketId st socketId = Some (player, sessionId, s) →
  socketToPlayer st !! socketId = Some playerId →
  GameSession.players s !! playerId = Some player ∧
  disconnectPlayer socketId now st =
    set_sessions
      (<[sessionId :=
           GameSession.with_players
             (<[playerId := Player.mk (Player.id player) (Player.socketId player)
                              (Player.displayName player) (Player.teamId player)
                              false now]> (GameSession.players s)) s]> (sessions st))
      st.
Proof.
  unfold getPlayerBySocketId, disconnectPlayer. intros Hres Hsock.
  rewrite Hsock in Hres |- *.
  destruct (negb (truthy playerId)); [done|].
  destruct (playerToSession st !! playerId) as [sid|]; [|done].
  destruct (negb (truthy sid)); [done|].
  destruct (sessions st !! sid) as [s0|]; [|done].
  destruct (GameSession.players s0 !! playerId) as [p|] eqn:Hp; [|done].
  by simplify_eq.
Qed.

(** X17. A disconnected player keeps the slot but frees the name: once the
    player on a socket is disconnected, a join under any name that no other
    connected player of the session carries up to case succeeds, provided
    the session still has room; in particular the name of the player who
    just left can be taken again. *)
Theorem disconnect_frees_name
    socketId now st player sessionId s playerId displayName socketId2 uuid now2 :
  getPlayerBySocketId st socketId = Some (player, sessionId, s) →
  socketToPlayer st !! socketId = Some playerId →
  Z.of_nat (size (GameSession.players s))
    < SessionSettings.maxPlayersPerSession (GameSession.settings s) →
  (∀ k q, GameSession.players s !! k = Some q → k ≠ playerId →
          Player.isConnected q = true →
          toLowerCase (Player.displayName q) ≠ toLowerCase displayName) →
  (addPlayer sessionId socketId2 displayName uuid now2
     (disconnectPlayer socketId now st)).1
  = Joined (Player.mk uuid socketId2 (slice0 20 (trim displayName)) None true now2).
Proof.
  intros Hres Hsock Hroom Hothers.
  destruct (disconnectPlayer_resolved _ now _ _ _ _ _ Hres Hsock) as [Hp ->].
  erewrite addPlayer_live; [|cbn [sessions set_sessions]; apply lookup_insert_eq].
  cbn [GameSession.players GameSession.with_players GameSession.settings].
  rewrite map_size_insert_Some by (by eexists).
  rewrite bool_decide_eq_false_2 by lia.
  destruct (List.find _ _) as [clash|] eqn:Hfind; [|done].
  exfalso.
  destruct (proj1 (find_nameClash _ displayName) (ex_intro _ clash Hfind))
    as (k & q & Hq & Hconn & Hname).
  cbn [GameSession.players GameSession.with_players] in Hq.
  apply lookup_insert_Some in Hq as [[<- <-]|[Hne Hq]]; [discriminate|].
  by apply (Hothers k q).
Qed.

Lemma disconnect_frees_name_witness :
  (addPlayer "AAAAAA" "sock-a2" "alice" "player-a2" 1300
     (disconnectPlayer "sock-a" 1200 twoBuzzState)).1
  = Joined (Player.mk "player-a2" "sock-a2" "alice" None true 1300).
Proof.
  pose (s := default (GameSession.mk "" "" 0 DEFAULT_SETTINGS [] ∅
                        createInitialRoundState [])
               (sessions twoBuzzState !! "AAAAAA")).
  eapply (disconnect_frees_name "sock-a" 1200 twoBuzzState
            (Player.mk "player-a" "sock-a" "Alice" None true 20) "AAAAAA" s
            "player-a" "alice" "sock-a2" "player-a2" 1300).
  - vm_compute. reflexivity.
  - vm_compute. reflexivity.
  - vm_compute. reflexivity.
  - apply (bool_decide_unpack
             (map_Forall (fun k q =>
                k ≠ "player-a" → Player.isConnected q = true →
                toLowerCase (Player.displayName q) ≠ toLowerCase "alice")
                (GameSession.players s))).
    vm_compute. exact I.
Defined.

(** X18. A successful join is immediately usable: when the session code
    and the new id are non-empty, the joining socket resolves to the new
    player in that session, connected and without a team; the round is the
    one before the join, and with a fresh id the session holds one player
    more. *)
Theorem addPlayer_then_resolves sessionId socketId displayName uuid now st s player :
  sessions st !! sessionId = Some s →
  (addPlayer sessionId socketId displayName uuid now st).1 = Joined player →
  sessionId ≠ "" → uuid ≠ "" →
  ∃ s',
    getPlayerBySocketId (addPlayer sessionId socketId displayName uuid now st).2 socketId
      = Some (player, sessionId, s') ∧
    Player.id player = uuid ∧
    Player.isConnected player = true ∧
    Player.teamId player = None ∧
    GameSession.round s' = GameSession.round s ∧
    (GameSession.players s !! uuid = None →
     size (GameSession.players s') = S (size (GameSession.players s))).
Proof.
  intros Hs Hjoined Hsid Huuid. revert Hjoined. unfold addPlayer. rewrite Hs.
  case_bool_decide; [done|]. destruct (List.find _ _); [done|].
  cbn [fst snd]. intros [= <-]. eexists. split.
  - unfold getPlayerBySocketId. cbn [socketToPlayer playerToSession sessions].
    rewrite lookup_insert_eq. unfold truthy.
    rewrite (bool_decide_eq_false_2 (uuid = "")) by done. cbn [negb].
    rewrite lookup_insert_eq.
    rewrite (bool_decide_eq_false_2 (sessionId = "")) by done. cbn [negb].
    rewrite lookup_insert_eq. cbn [GameSession.players GameSession.with_players].
    by rewrite lookup_insert_eq.
  - split; [done|]. split; [done|]. split; [done|]. split; [done|].
    intros Hfresh. cbn [GameSession.players GameSession.with_players].
    by apply map_size_insert_None.
Qed.

Lemma addPlayer_then_resolves_witness :
  ∃ s',
    getPlayerBySocketId
      (addPlayer "AAAAAA" "sock-c" "Carol" "player-c" 1300 twoBuzzState).2 "sock-c"
    = Some (Player.mk "player-c" "sock-c" "Carol" None true 1300, "AAAAAA", s').
Proof.
  pose (s := default (GameSession.mk "" "" 0 DEFAULT_SETTINGS [] ∅
                        createInitialRoundState [])
               (sessions twoBuzzState !! "AAAAAA")).
  assert (Hs : sessions twoBuzzState !! "AAAAAA" = Some s)
    by (vm_compute; reflexivity).
  assert (Hj : (addPlayer "AAAAAA" "sock-c" "Carol" "player-c" 1300 twoBuzzState).1
               = Joined (Player.mk "player-c" "sock-c" "Carol" None true 1300))
    by (vm_compute; reflexivity).
  assert (H1 : "AAAAAA" ≠ "") by discriminate.
  assert (H2 : "player-c" ≠ "") by discriminate.
  clearbody s.
  destruct (addPlayer_then_resolves _ _ _ _ _ _ s _ Hs Hj H1 H2) as (s' & Hres & _).
  exists s'. exact Hres.
Defined.

(** ** The client's mirror *)

Lemma existsb_playerId_app playerId q e :
  BuzzEntry.playerId e = playerId →
  existsb (fun b => bool_decide (BuzzEntry.playerId b = playerId)) (q ++ [e]) = true.
Proof.
  intros He. rewrite existsb_app. cbn [existsb].
  rewrite (bool_decide_eq_true_2 _ He). by rewrite orb_true_r.
Qed.

(** X19. The client's [handleBuzzReceived] tolerates a repeated event:
    applying it twice with the same entry gives what applying it once
    gives; it never puts a second entry of a player into the queue, and it
    leaves an absent session absent. *)
Theorem handleBuzzReceived_idempotent entry :
  (∀ prev, handleBuzzReceived entry (handleBuzzReceived entry prev)
           = handleBuzzReceived entry prev) ∧
  handleBuzzReceived entry None = None ∧
  (∀ c c', handleBuzzReceived entry (Some c) = Some c' →
           queueDistinct (SerializedSession.round c) →
           queueDistinct (SerializedSession.round c')).
Proof.
  split; [|split; [done|]].
  - intros [c|]; [|done]. cbn [handleBuzzReceived].
    destruct (existsb _ _) eqn:Hex; cbn [handleBuzzReceived].
    + by rewrite Hex.
    + cbn [SerializedSession.round SerializedSession.with_round RoundState.buzzQueue].
      by rewrite existsb_playerId_app.
  - intros c c' Hc' Hdistinct. cbn [handleBuzzReceived] in Hc'.
    destruct (existsb _ _) eqn:Hex; injection Hc' as <-; [done|].
    unfold queueDistinct in *.
    cbn [SerializedSession.round SerializedSession.with_round RoundState.buzzQueue].
    rewrite fmap_app. apply NoDup_app. split; [done|]. split; [|apply NoDup_singleton].
    intros x Hx [->|[]%elem_of_nil]%elem_of_cons.
    apply alreadyBuzzed_spec in Hx. unfold alreadyBuzzed in Hx. congruence.
Qed.

Lemma handleBuzzReceived_idempotent_witness :
  queueDistinct
    (RoundState.mk locked 1 (Some 1000) (Some 1000) (Some "player-a")
       [BuzzEntry.mk "player-a" "Alice" None None None 1000 1;
        BuzzEntry.mk "player-b" "Bob" None None None 1005 2]).
Proof.
  apply (proj2 (proj2 (handleBuzzReceived_idempotent
                         (BuzzEntry.mk "player-b" "Bob" None None None 1005 2)))
           (exampleMirror
              (RoundState.mk locked 1 (Some 1000) (Some 1000) (Some "player-a")
                 [BuzzEntry.mk "player-a" "Alice" None None None 1000 1]))
           (exampleMirror
              (RoundState.mk locked 1 (Some 1000) (Some 1000) (Some "player-a")
                 [BuzzEntry.mk "player-a" "Alice" None None None 1000 1;
                  BuzzEntry.mk "player-b" "Bob" None None None 1005 2]))).
  - vm_compute. reflexivity.
  - unfold queueDistinct. simpl. apply NoDup_singleton.
Defined.

Lemma alreadyBuzzed_same_players playerId q1 q2 :
  BuzzEntry.playerId <$> q1 = BuzzEntry.playerId <$> q2 →
  alreadyBuzzed playerId q1 = alreadyBuzzed playerId q2.
Proof.
  intros Hq. apply eq_true_iff_eq. by rewrite !alreadyBuzzed_spec, Hq.
Qed.

(** X20. The client follows the server on an accepted buzz: in a reachable
    state, when the client's copy of the round shows the phase, the active
    player and the queued players that the server has, and the server's
    round is open or has a non-empty queue, then after the server accepted
    the buzz and the client handled the entry, the client again shows the
    phase, active player and queued players of the server. *)
Theorem handleBuzzReceived_follows_server socketId now st entry st' c :
  reachable st →
  processBuzz socketId now st = (BuzzAccepted entry, st') →
  ∃ sessionId s s' c',
    resolvedSessionId st socketId = Some sessionId ∧
    sessions st !! sessionId = Some s ∧
    sessions st' !! sessionId = Some s' ∧
    handleBuzzReceived entry (Some c) = Some c' ∧
    (roundView (SerializedSession.round c) = roundView (GameSession.round s) →
     RoundState.status (GameSession.round s) = open ∨
     RoundState.buzzQueue (GameSession.round s) ≠ [] →
     roundView (SerializedSession.round c') = roundView (GameSession.round s')).
Proof.
  intros [_ Hcons]%reachable_consistent Hp.
  apply processBuzz_accepted_checks in Hp
    as (player & sid & s & (Hres & Hact & Hdup) & _ & _ & _ & -> & ->).
  pose proof (getPlayerBySocketId_Some _ _ _ _ _ Hres) as Hs.
  destruct (map_Forall_lookup_1 _ _ _ _ Hcons Hs) as (_ & (_ & Hshape & _) & _).
  exists sid, s. eexists.
  exists (default c (handleBuzzReceived (mkBuzzEntry player s now) (Some c))).
  split; [unfold resolvedSessionId; by rewrite Hres|]. split; [done|].
  split; [cbn [sessions]; apply lookup_insert_eq|].
  split; [cbn [handleBuzzReceived]; by destruct (existsb _ _)|].
  unfold roundView. intros [= Hst Hactive Hq] Hfresh.
  cbn [handleBuzzReceived]. rewrite round_with_round.
  change (existsb _ (RoundState.buzzQueue (SerializedSession.round c)))
    with (alreadyBuzzed (BuzzEntry.playerId (mkBuzzEntry player s now))
            (RoundState.buzzQueue (SerializedSession.round c))).
  rewrite (alreadyBuzzed_same_players _ _ _ Hq).
  cbn [mkBuzzEntry BuzzEntry.playerId]. rewrite Hdup.
  cbn [default from_option SerializedSession.round SerializedSession.with_round
       RoundState.status RoundState.activePlayerId RoundState.buzzQueue].
  unfold id.
  unfold pushBuzz.
  destruct (decide (RoundState.status (GameSession.round s) = open)) as [Hopen|Hopen].
  - rewrite !(bool_decide_eq_true_2 (RoundState.status _ = open)) by done.
    destruct Hshape as [?|[Hnil _]]; [congruence|]. rewrite Hnil in Hq.
    apply fmap_nil_inv in Hq. rewrite Hq, Hnil. done.
  - rewrite !(bool_decide_eq_false_2 (RoundState.status _ = open)) by done.
    destruct Hfresh as [?|Hne]; [done|].
    assert (RoundState.buzzQueue (SerializedSession.round c) ≠ []) as Hne'.
    { intros Hnil. rewrite Hnil in Hq. symmetry in Hq. by apply fmap_nil_inv in Hq. }
    rewrite bool_decide_eq_false_2
      by (by destruct (RoundState.buzzQueue (SerializedSession.round c))).
    cbn [SerializedSession.round SerializedSession.with_round
         RoundState.status RoundState.activePlayerId RoundState.buzzQueue].
    rewrite !fmap_app, Hst, Hactive, Hq. done.
Qed.

Lemma handleBuzzReceived_follows_server_witness :
  ∃ c',
    handleBuzzReceived
      (BuzzEntry.mk "player-a" "Alice" (Some "team-r") (Some "Reds") (Some "#FF2D55")
         1100 1)
      (Some (exampleMirror (RoundState.mk open 1 (Some 1000) None None [])))
    = Some c' ∧
    roundView (SerializedSession.round c') = (locked, Some "player-a", ["player-a"]).
Proof.
  pose (st' := (processBuzz "sock-a" 1100 teamExclusiveState).2).
  pose (s0 := default (GameSession.mk "" "" 0 DEFAULT_SETTINGS [] ∅
                         createInitialRoundState [])
                (sessions teamExclusiveState !! "AAAAAA")).
  pose (s1 := default s0 (sessions st' !! "AAAAAA")).
  assert (Hreach : reachable teamExclusiveState).
  { exists teamExclusiveTrace. split; [|reflexivity].
    unfold teamExclusiveTrace. repeat constructor; discriminate. }
  assert (Hp : processBuzz "sock-a" 1100 teamExclusiveState
               = (BuzzAccepted
                    (BuzzEntry.mk "player-a" "Alice" (Some "team-r") (Some "Reds")
                       (Some "#FF2D55") 1100 1), st'))
    by (vm_compute; reflexivity).
  assert (Hsid : resolvedSessionId teamExclusiveState "sock-a" = Some "AAAAAA")
    by (vm_compute; reflexivity).
  assert (Hs0 : sessions teamExclusiveState !! "AAAAAA" = Some s0)
    by (vm_compute; reflexivity).
  assert (Hs1 : sessions st' !! "AAAAAA" = Some s1) by (vm_compute; reflexivity).
  assert (Hv0 : roundView (GameSession.round s0) = (open, None, []))
    by (vm_compute; reflexivity).
  assert (Hopen : RoundState.status (GameSession.round s0) = open)
    by (vm_compute; reflexivity).
  assert (Hv1 : roundView (GameSession.round s1) = (locked, Some "player-a", ["player-a"]))
    by (vm_compute; reflexivity).
  clearbody s0 s1 st'.
  destruct (handleBuzzReceived_follows_server "sock-a" 1100 teamExclusiveState _ st'
              (exampleMirror (RoundState.mk open 1 (Some 1000) None None []))
              Hreach Hp)
    as (sid & s & s' & c' & Hrs & Hs & Hs' & Hc' & Hview).
  rewrite Hsid in Hrs. injection Hrs as <-.
  rewrite Hs0 in Hs. injection Hs as <-.
  rewrite Hs1 in Hs'. injection Hs' as <-.
  exists c'. split; [exact Hc'|]. rewrite <- Hv1. apply Hview.
  - rewrite Hv0. reflexivity.
  - left. exact Hopen.
Defined.

Lemma dropPlayer_playerIds playerId q :
  BuzzEntry.playerId <$> dropPlayer playerId q
  = List.filter (fun x => negb (bool_decide (x = playerId))) (BuzzEntry.playerId <$> q).
Proof.
  induction q as [|b q IH]; [done|]. rewrite dropPlayer_cons, fmap_cons.
  cbn [List.filter]. case_bool_decide; cbn [negb]; [done|]. by rewrite fmap_cons, IH.
Qed.

(** X21. The client follows the server on a pass: when the client's copy
    of the round lists the queued players that the server has, then after
    the server's [markPass] and the client's [handlePlayerPassed] on the
    returned pair, client and server have the same active player and the
    same players queued in the same order; the client shows the phase as
    [locked] while someone is active and as [waiting] otherwise. *)
Theorem handlePlayerPassed_follows_server sessionId st s passed c :
  sessions st !! sessionId = Some s →
  RoundState.activePlayerId (GameSession.round s) = Some passed →
  passed ≠ "" →
  BuzzEntry.playerId <$> RoundState.buzzQueue (SerializedSession.round c)
    = BuzzEntry.playerId <$> RoundState.buzzQueue (GameSession.round s) →
  ∃ newActive s' c',
    (markPass sessionId st).1 = Some (passed, newActive) ∧
    sessions (markPass sessionId st).2 !! sessionId = Some s' ∧
    handlePlayerPassed passed newActive (Some c) = Some c' ∧
    RoundState.activePlayerId (SerializedSession.round c')
      = RoundState.activePlayerId (GameSession.round s') ∧
    BuzzEntry.playerId <$> RoundState.buzzQueue (SerializedSession.round c')
      = BuzzEntry.playerId <$> RoundState.buzzQueue (GameSession.round s') ∧
    RoundState.status (SerializedSession.round c')
      = (if truthy_opt newActive then locked else waiting).
Proof.
  intros Hs Hactive Hne Hq.
  destruct (markPass_round sessionId st s passed Hs Hactive Hne)
    as (Hres & Hround & _ & _). cbv zeta in Hres, Hround.
  unfold roundOf in Hround.
  destruct (sessions (markPass sessionId st).2 !! sessionId) as [s'|]; [|done].
  injection Hround as Hround.
  eexists _, s', _. split; [exact Hres|]. split; [done|]. split; [reflexivity|].
  cbn [SerializedSession.round SerializedSession.with_round
       RoundState.activePlayerId RoundState.buzzQueue RoundState.status].
  rewrite Hround. cbn [RoundState.activePlayerId RoundState.buzzQueue].
  split; [done|]. split; [|done].
  unfold renumber. by rewrite renumberFrom_playerIds, !dropPlayer_playerIds, Hq.
Qed.

Lemma handlePlayerPassed_follows_server_witness :
  ∃ newActive s' c',
    (markPass "AAAAAA" twoBuzzState).1 = Some ("player-a", newActive) ∧
    sessions (markPass "AAAAAA" twoBuzzState).2 !! "AAAAAA" = Some s' ∧
    handlePlayerPassed "player-a" newActive
      (Some (exampleMirror
               (RoundState.mk locked 1 (Some 1000) (Some 1000) (Some "player-a")
                  [BuzzEntry.mk "player-a" "Alice" None None None 1000 1;
                   BuzzEntry.mk "player-b" "Bob" None None None 1005 2])))
      = Some c' ∧
    RoundState.activePlayerId (SerializedSession.round c')
      = RoundState.activePlayerId (GameSession.round s').
Proof.
  pose (s := default (GameSession.mk "" "" 0 DEFAULT_SETTINGS [] ∅
                        createInitialRoundState [])
               (sessions twoBuzzState !! "AAAAAA")).
  assert (Hs : sessions twoBuzzState !! "AAAAAA" = Some s)
    by (vm_compute; reflexivity).
  assert (Hactive : RoundState.activePlayerId (GameSession.round s) = Some "player-a")
    by (vm_compute; reflexivity).
  assert (Hne : "player-a" ≠ "") by discriminate.
  assert (Hq : BuzzEntry.playerId
                 <$> RoundState.buzzQueue
                       (SerializedSession.round
                          (exampleMirror
                             (RoundState.mk locked 1 (Some 1000) (Some 1000)
                                (Some "player-a")
                                [BuzzEntry.mk "player-a" "Alice" None None None 1000 1;
                                 BuzzEntry.mk "player-b" "Bob" None None None 1005 2])))
               = BuzzEntry.playerId <$> RoundState.buzzQueue (GameSession.round s))
    by (vm_compute; reflexivity).
  clearbody s.
  destruct (handlePlayerPassed_follows_server "AAAAAA" twoBuzzState s "player-a" _
              Hs Hactive Hne Hq)
    as (newActive & s' & c' & H1 & H2 & H3 & H4 & _).
  exists newActive, s', c'. split; [exact H1|]. split; [exact H2|].
  split; [exact H3|exact H4].
Defined.

(** ** Renumbering, and assigning teams *)

(** X22. On any live session, whatever the positions were before,
    [skipPlayer] leaves the queue without the skipped player, the others in
    their order, at positions 1..k; and so does [markPass] for the active
    player. *)
Theorem skip_and_pass_renumber sessionId st s :
  sessions st !! sessionId = Some s →
  (∀ playerId,
     ∃ r',
       roundOf sessionId (skipPlayer sessionId playerId st).2 = Some r' ∧
       BuzzEntry.playerId <$> RoundState.buzzQueue r'
         = BuzzEntry.playerId
             <$> dropPlayer playerId (RoundState.buzzQueue (GameSession.round s)) ∧
       BuzzEntry.position <$> RoundState.buzzQueue r'
         = seq 1 (length (RoundState.buzzQueue r'))) ∧
  (∀ passed,
     RoundState.activePlayerId (GameSession.round s) = Some passed → passed ≠ "" →
     ∃ r',
       roundOf sessionId (markPass sessionId st).2 = Some r' ∧
       BuzzEntry.playerId <$> RoundState.buzzQueue r'
         = BuzzEntry.playerId
             <$> dropPlayer passed (RoundState.buzzQueue (GameSession.round s)) ∧
       BuzzEntry.position <$> RoundState.buzzQueue r'
         = seq 1 (length (RoundState.buzzQueue r'))).
Proof.
  intros Hs. split.
  - intros pid. destruct (skipPlayer_queue sessionId pid st s Hs) as (r' & Hr' & Hq & Hpos).
    exists r'. split; [done|]. split; [|done].
    rewrite Hq. unfold renumber. apply renumberFrom_playerIds.
  - intros passed Hactive Hne.
    destruct (markPass_round sessionId st s passed Hs Hactive Hne)
      as (_ & Hround & Hpos & _). cbv zeta in Hround, Hpos.
    eexists. split; [exact Hround|]. cbn [RoundState.buzzQueue].
    split; [unfold renumber; apply renumberFrom_playerIds|exact Hpos].
Qed.

Lemma skip_and_pass_renumber_witness :
  ∃ r',
    roundOf "AAAAAA" (skipPlayer "AAAAAA" "player-b" fullGameState).2 = Some r' ∧
    BuzzEntry.position <$> RoundState.buzzQueue r'
      = seq 1 (length (RoundState.buzzQueue r')).
Proof.
  pose (s := default (GameSession.mk "" "" 0 DEFAULT_SETTINGS [] ∅
                        createInitialRoundState [])
               (sessions fullGameState !! "AAAAAA")).
  assert (Hs : sessions fullGameState !! "AAAAAA" = Some s)
    by (vm_compute; reflexivity).
  clearbody s.
  destruct (proj1 (skip_and_pass_renumber "AAAAAA" fullGameState s Hs) "player-b")
    as (r' & Hr' & _ & Hpos).
  exists r'. split; [exact Hr'|exact Hpos].
Defined.

(** X23. [assignPlayerToTeam] answers [true] exactly when the session and
    the player exist and the team is [null] or a team of the session; when
    it answers [false] the state is as before; when it answers [true] the
    player has the given team, every other player is as before and so are
    the teams and the round. *)
Theorem assignPlayerToTeam_checks sessionId playerId teamId st :
  ((assignPlayerToTeam sessionId playerId teamId st).1 = true ↔
   ∃ s p, sessions st !! sessionId = Some s ∧
          GameSession.players s !! playerId = Some p ∧
          ∀ t, teamId = Some t → t ∈ Team.id <$> GameSession.teams s) ∧
  ((assignPlayerToTeam sessionId playerId teamId st).1 = false →
   (assignPlayerToTeam sessionId playerId teamId st).2 = st) ∧
  (∀ s, sessions st !! sessionId = Some s →
        (assignPlayerToTeam sessionId playerId teamId st).1 = true →
        ∃ s',
          sessions (assignPlayerToTeam sessionId playerId teamId st).2 !! sessionId
            = Some s' ∧
          (Player.teamId <$> GameSession.players s' !! playerId) = Some teamId ∧
          (∀ other, other ≠ playerId →
                    GameSession.players s' !! other = GameSession.players s !! other) ∧
          GameSession.teams s' = GameSession.teams s ∧
          GameSession.round s' = GameSession.round s).
Proof.
  unfold assignPlayerToTeam.
  destruct (sessions st !! sessionId) as [s|] eqn:Hs; cbn [fst snd].
  2:{ split; [|split; [done|intros ? [=]]]. split; [done|]. by intros (? & ? & [=] & _). }
  destruct (GameSession.players s !! playerId) as [p|] eqn:Hp; cbn [fst snd].
  2:{ split; [|split; [done|by intros]]. split; [done|].
      intros (? & ? & [= <-] & Hp' & _). congruence. }
  assert ((match teamId with
           | Some tid => negb (bool_decide (is_Some (findTeam tid (GameSession.teams s))))
           | None => false
           end) = false ↔ ∀ t, teamId = Some t → t ∈ Team.id <$> GameSession.teams s)
    as Hcheck.
  { destruct teamId as [tid|]; [|by split].
    rewrite negb_false_iff, bool_decide_eq_true, findTeam_Some_iff. split.
    - by intros ? ? [= <-].
    - intros H. by apply H. }
  destruct (match teamId with Some _ => _ | None => _ end); cbn [fst snd].
  - split; [|split; [done|by intros]]. split; [done|].
    intros (? & ? & [= <-] & _ & Hteam). by apply Hcheck in Hteam.
  - split; [|split; [done|]].
    + split; [|done]. intros _. exists s, p. split; [done|]. split; [done|].
      by apply Hcheck.
    + intros ? [= <-] _. eexists. cbn [sessions set_sessions].
      split; [apply lookup_insert_eq|].
      cbn [GameSession.players GameSession.with_players GameSession.teams
           GameSession.round].
      split; [by rewrite lookup_insert_eq|].
      split; [intros other Hne; by apply lookup_insert_ne|done].
Qed.

Lemma assignPlayerToTeam_checks_witness :
  (assignPlayerToTeam "AAAAAA" "player-b" (Some "team-x") teamGameState).2
  = teamGameState.
Proof.
  apply (proj1 (proj2 (assignPlayerToTeam_checks "AAAAAA" "player-b" (Some "team-x")
                         teamGameState))).
  vm_compute. reflexivity.
Defined.

(** ** The sweep and what counts as activity *)

Lemma sweep_keeps_fresh maxAgeMs now l st :
  Forall (fun entry => isStale maxAgeMs now entry.2 = false) l →
  foldl (sweepEntry maxAgeMs now) st l = st.
Proof.
  revert st. induction l as [|e l IH]; intros st Hl; simpl; [done|].
  apply Forall_cons in Hl as [He Hl]. unfold sweepEntry at 2. rewrite He.
  by apply IH.
Qed.

Lemma sweep_lookup_live maxAgeMs now st sessionId s :
  sessions st !! sessionId = Some s →
  sessions (cleanupStaleSessions maxAgeMs now st) !! sessionId
  = if isStale maxAgeMs now s then None else Some s.
Proof.
  intros Hs. unfold cleanupStaleSessions. rewrite sweep_sessions.
  rewrite (sweep_lookup _ _ _ _ sessionId s), Hs; [done| |].
  - apply NoDup_fst_map_to_list.
  - by apply elem_of_map_to_list.
Qed.

(** X24. The sweep is idempotent: sweeping again at the same instant with
    the same age limit changes nothing, in the sessions and in the socket
    and player indexes alike; every session that a sweep leaves is one it
    found, unchanged. *)
Theorem cleanupStaleSessions_idempotent maxAgeMs now st :
  cleanupStaleSessions maxAgeMs now (cleanupStaleSessions maxAgeMs now st)
    = cleanupStaleSessions maxAgeMs now st ∧
  ∀ sessionId s,
    sessions (cleanupStaleSessions maxAgeMs now st) !! sessionId = Some s →
    sessions st !! sessionId = Some s ∧ now - lastActivity s ≤ maxAgeMs.
Proof.
  assert (∀ sessionId s,
            sessions (cleanupStaleSessions maxAgeMs now st) !! sessionId = Some s →
            sessions st !! sessionId = Some s ∧ isStale maxAgeMs now s = false)
    as Hkept.
  { intros sid s Hs. pose proof (sweep_survivor _ _ _ _ _ Hs) as Hs0.
    split; [done|]. rewrite (sweep_lookup_live _ _ _ _ _ Hs0) in Hs.
    by destruct (isStale maxAgeMs now s). }
  split.
  - unfold cleanupStaleSessions at 1. apply sweep_keeps_fresh.
    apply Forall_forall. intros [k v] Hin. apply elem_of_map_to_list in Hin.
    by apply Hkept in Hin as [_ ?].
  - intros sid s Hs. apply Hkept in Hs as [Hs0 Hfresh]. split; [done|].
    unfold isStale in Hfresh. apply bool_decide_eq_false in Hfresh. lia.
Qed.

Lemma cleanupStaleSessions_idempotent_witness :
  ∃ s,
    sessions (cleanupStaleSessions 1000 2500 aliceGoneState) !! "AAAAAA" = Some s ∧
    sessions aliceGoneState !! "AAAAAA" = Some s ∧
    2500 - lastActivity s ≤ 1000.
Proof.
  pose (s := default (GameSession.mk "" "" 0 DEFAULT_SETTINGS [] ∅
                        createInitialRoundState [])
               (sessions aliceGoneState !! "AAAAAA")).
  assert (Hs : sessions (cleanupStaleSessions 1000 2500 aliceGoneState) !! "AAAAAA"
               = Some s)
    by (vm_compute; reflexivity).
  clearbody s. exists s. split; [exact Hs|].
  exact (proj2 (cleanupStaleSessions_idempotent 1000 2500 aliceGoneState) "AAAAAA" s Hs).
Defined.

Lemma isPlay_keeps_players m now st sessionId s :
  isPlay m = true →
  sessions st !! sessionId = Some s →
  ∃ s',
    sessions (applyCall m now st) !! sessionId = Some s' ∧
    GameSession.players s' = GameSession.players s ∧
    GameSession.createdAt s' = GameSession.createdAt s.
Proof.
  intros Hplay Hs.
  assert (∀ sid s0 s1,
            sessions st !! sid = Some s0 →
            GameSession.players s1 = GameSession.players s0 →
            GameSession.createdAt s1 = GameSession.createdAt s0 →
            ∃ s', <[sid := s1]> (sessions st) !! sessionId = Some s' ∧
                  GameSession.players s' = GameSession.players s ∧
                  GameSession.createdAt s' = GameSession.createdAt s) as Hins.
  { intros sid s0 s1 Hs0 Hp Hc. destruct (decide (sid = sessionId)) as [->|Hne].
    - rewrite lookup_insert_eq. exists s1. simplify_eq. done.
    - rewrite lookup_insert_ne by done. by exists s. }
  destruct m as [c|sid tid|sid tid delta|sid]; try discriminate Hplay;
    cbn [applyCall].
  - destruct c; try discriminate Hplay; cbn [call snd].
    + unfold updateSettings. repeat case_match; cbn [snd sessions set_sessions];
        try (by exists s); by eapply Hins.
    + unfold addTeam. repeat case_match; cbn [snd sessions set_sessions];
        try (by exists s); by eapply Hins.
    + unfold startRound. repeat case_match; cbn [snd sessions set_sessions];
        try (by exists s); by eapply Hins.
    + unfold resetRound. repeat case_match; cbn [snd sessions set_sessions];
        try (by exists s); by eapply Hins.
    + destruct (processBuzz socketId now st) as [o st'] eqn:Hp. cbn [snd].
      replace st' with (processBuzz socketId now st).2 by (by rewrite Hp).
      destruct (processBuzz_session sessionId socketId now st s Hs)
        as [Heq|(player & _ & _ & _ & _ & _ & Heq)]; rewrite Heq; eauto.
    + unfold markCorrect. repeat case_match; cbn [snd sessions set_sessions];
        try (by exists s); by eapply Hins.
    + unfold markPass. repeat case_match; cbn [snd sessions set_sessions];
        try (by exists s); by eapply Hins.
    + unfold skipPlayer. repeat case_match; cbn [snd sessions set_sessions];
        try (by exists s); by eapply Hins.
  - unfold updateTeamScore. repeat case_match; cbn [snd sessions set_sessions];
      try (by exists s); by eapply Hins.
Qed.

(** X25. Playing does not count as activity.  Through any sequence of
    buzzes, round starts and resets, verdicts, skips, settings changes,
    team creations and score changes a session stays live with the same
    players, the same last-seen times and the same last activity; so once
    the last join, reconnect or disconnect is more than the age limit ago,
    the sweep removes the session however recent the last buzz was. *)
Theorem play_is_not_activity trace st sessionId s :
  Forall (fun tm => isPlay tm.2 = true) trace →
  sessions st !! sessionId = Some s →
  ∃ s',
    sessions (reach trace st) !! sessionId = Some s' ∧
    GameSession.players s' = GameSession.players s ∧
    lastActivity s' = lastActivity s ∧
    ∀ maxAgeMs now,
      now - lastActivity s > maxAgeMs →
      sessions (cleanupStaleSessions maxAgeMs now (reach trace st)) !! sessionId = None.
Proof.
  intros Htrace Hs.
  assert (∃ s', sessions (reach trace st) !! sessionId = Some s' ∧
                GameSession.players s' = GameSession.players s ∧
                GameSession.createdAt s' = GameSession.createdAt s)
    as (s' & Hs' & Hp & Hc).
  { revert st s Hs. induction Htrace as [|[now m] trace Hm _ IH]; intros st s Hs.
    - by exists s.
    - unfold reach. cbn [foldl]. fold (reach trace (applyCall m now st)).
      destruct (isPlay_keeps_players m now st sessionId s Hm Hs)
        as (s1 & Hs1 & Hp1 & Hc1).
      destruct (IH _ _ Hs1) as (s' & Hs' & Hp & Hc).
      exists s'. split; [done|]. split; congruence. }
  assert (lastActivity s' = lastActivity s) as Hlast.
  { unfold lastActivity, playersValues. by rewrite Hp, Hc. }
  exists s'. split; [done|]. split; [done|]. split; [done|].
  intros maxAgeMs now Hold. rewrite (sweep_lookup_live _ _ _ _ _ Hs').
  unfold isStale. rewrite Hlast. by rewrite bool_decide_eq_true_2.
Qed.

Lemma play_is_not_activity_witness :
  sessions (cleanupStaleSessions defaultMaxAgeMs 3600031
              (reach longGameTrace exampleState)) !! "AAAAAA" = None.
Proof.
  pose (s := default (GameSession.mk "" "" 0 DEFAULT_SETTINGS [] ∅
                        createInitialRoundState [])
               (sessions exampleState !! "AAAAAA")).
  assert (Hs : sessions exampleState !! "AAAAAA" = Some s)
    by (vm_compute; reflexivity).
  assert (Hold : 3600031 - lastActivity s > defaultMaxAgeMs)
    by (vm_compute; reflexivity).
  assert (Htrace : Forall (fun tm => isPlay tm.2 = true) longGameTrace)
    by (repeat constructor).
  clearbody s.
  destruct (play_is_not_activity longGameTrace exampleState "AAAAAA" s Htrace Hs)
    as (s' & _ & _ & _ & Hsweep).
  exact (Hsweep defaultMaxAgeMs 3600031 Hold).
Defined.

(** ** Skipping the active player *)

(** X26. [skipPlayer] on a live session answers [true].  When the skipped
    player was active, the head of the remaining queue becomes active; the
    phase stays as it was while someone is left and becomes [waiting] when
    the queue is empty.  When the skipped player was not active, the active
    player and the phase stay as they were. *)
Theorem skipPlayer_advances sessionId playerId st s :
  sessions st !! sessionId = Some s →
  idsNonEmpty st →
  (skipPlayer sessionId playerId st).1 = true ∧
  ∃ r',
    roundOf sessionId (skipPlayer sessionId playerId st).2 = Some r' ∧
    (RoundState.activePlayerId (GameSession.round s) = Some playerId →
     RoundState.activePlayerId r' = headPlayerId (RoundState.buzzQueue r') ∧
     (RoundState.buzzQueue r' = [] → RoundState.status r' = waiting) ∧
     (RoundState.buzzQueue r' ≠ [] →
      RoundState.status r' = RoundState.status (GameSession.round s))) ∧
    (RoundState.activePlayerId (GameSession.round s) ≠ Some playerId →
     RoundState.activePlayerId r' = RoundState.activePlayerId (GameSession.round s) ∧
     RoundState.status r' = RoundState.status (GameSession.round s)).
Proof.
  intros Hs Hids. unfold skipPlayer, roundOf. rewrite Hs. cbn [fst snd].
  split; [done|]. cbn [sessions set_sessions]. rewrite lookup_insert_eq.
  eexists. split; [reflexivity|].
  cbn [GameSession.round GameSession.with_round with_buzzQueue
       RoundState.activePlayerId].
  split.
  - intros Hactive. rewrite bool_decide_eq_true_2 by done.
    cbn [advanceQueue RoundState.activePlayerId RoundState.buzzQueue
         RoundState.status].
    split; [done|]. split.
    + intros ->. done.
    + intros Hq.
      destruct (renumber (dropPlayer playerId
                            (RoundState.buzzQueue (GameSession.round s))))
        as [|b q] eqn:Hren; [done|].
      assert (headPlayerId (b :: q) = Some (BuzzEntry.playerId b)) as Hhead by done.
      cbn [with_buzzQueue RoundState.buzzQueue RoundState.status].
      rewrite Hhead.
      assert (BuzzEntry.playerId b ≠ "") as Hne.
      { pose proof (Hids _ _ Hs) as (_ & _ & Hq' & _).
        assert (BuzzEntry.playerId b
                  ∈ BuzzEntry.playerId <$> renumber (dropPlayer playerId
                      (RoundState.buzzQueue (GameSession.round s)))) as Hin.
        { rewrite Hren. rewrite fmap_cons. apply elem_of_cons. by left. }
        unfold renumber in Hin. rewrite renumberFrom_playerIds in Hin.
        apply dropPlayer_playerIds_subset in Hin.
        apply list_elem_of_fmap in Hin as (e & He & Hin).
        rewrite Forall_forall in Hq'. rewrite He. by apply Hq'. }
      unfold truthy_opt, truthy.
      destruct (BuzzEntry.playerId b) eqn:Hb; [done|]. done.
  - intros Hactive. by rewrite bool_decide_eq_false_2.
Qed.

Lemma skipPlayer_advances_witness :
  ∃ r',
    roundOf "AAAAAA" (skipPlayer "AAAAAA" "player-a" oneBuzzState).2 = Some r' ∧
    RoundState.status r' = waiting.
Proof.
  pose (s := default (GameSession.mk "" "" 0 DEFAULT_SETTINGS [] ∅
                        createInitialRoundState [])
               (sessions oneBuzzState !! "AAAAAA")).
  assert (Hs : sessions oneBuzzState !! "AAAAAA" = Some s)
    by (vm_compute; reflexivity).
  assert (Hactive : RoundState.activePlayerId (GameSession.round s) = Some "player-a")
    by (vm_compute; reflexivity).
  assert (Hids : idsNonEmpty oneBuzzState).
  { unfold oneBuzzState, exampleSetup. cbn [app].
    apply run_idsNonEmpty; [repeat constructor; discriminate|].
    apply map_Forall_empty. }
  clearbody s.
  destruct (skipPlayer_advances "AAAAAA" "player-a" oneBuzzState s Hs Hids)
    as (_ & r' & Hr' & Hact & _).
  exists r'. split; [exact Hr'|].
  destruct (Hact Hactive) as (_ & Hempty & _). apply Hempty.
  revert Hr'. vm_compute. intros [= <-]. reflexivity.
Defined.
